(** * dat-to-excel: a shallow embedding of the converters and their properties

    The development follows the three Python sources of the repository:
    - [convert_dat_to_excel.py]: the [SybaseDatReader] class (encoding,
      delimiter and fixed-width sniffing, the two readers and [auto_read]),
      [clean_data], [clean_for_excel] and [export_to_excel];
    - [convert_dbf_to_excel.py]: [convert_dbf_properly] and
      [convert_with_field_mapping];
    - [dat_diagnostic_tool.py]: the encodings, the delimiter counts, the
      structure section and the recommendations of [diagnose_dat_file].

    Python's [str] is a sequence of Unicode code points, so text is a list of
    code points here; bytes are [Byte.byte].  The libraries the scripts call
    (pandas, chardet, dbfread, the file system) are collaborators whose
    answers are taken as parameters: each returns a value or raises. *)

From Stdlib Require Import List NArith ZArith QArith Bool Lia.
From Stdlib.Strings Require Import String Ascii Byte.
Import ListNotations.

Local Open Scope nat_scope.
Local Open Scope list_scope.

(* ================================================================== *)
(** * Python strings *)

Module PyStr.

(** One Unicode code point. *)
Definition char := N.

(** A Python [str]. *)
Definition str := list char.

(** A literal, written with Rocq's string notation. *)
Definition lit (s : string) : str := map N_of_ascii (list_ascii_of_string s).

Definition char_eqb (a b : char) : bool := N.eqb a b.

Fixpoint eqb (a b : str) : bool :=
  match a, b with
  | [], [] => true
  | x :: a', y :: b' => char_eqb x y && eqb a' b'
  | _, _ => false
  end.

Definition in_range (lo hi c : char) : bool := (N.leb lo c && N.leb c hi)%bool.

(** [c.isspace()] for a single code point. *)
Definition isspace (c : char) : bool :=
  (in_range 9 13 c || in_range 28 32 c || char_eqb c 133 || char_eqb c 160
   || char_eqb c 5760 || in_range 8192 8202 c || in_range 8232 8233 c
   || char_eqb c 8239 || char_eqb c 8287 || char_eqb c 12288)%N%bool.

(** [s.count(c)] for a one-character needle. *)
Fixpoint count (c : char) (s : str) : nat :=
  match s with
  | [] => 0
  | x :: r => if char_eqb x c then S (count c r) else count c r
  end.

(** [s.lstrip(...)], [s.rstrip(...)] and [s.strip(...)], the stripped set
    given as a predicate on code points. *)
Fixpoint lstrip_by (p : char -> bool) (s : str) : str :=
  match s with
  | [] => []
  | c :: r => if p c then lstrip_by p r else s
  end.

Definition rstrip_by (p : char -> bool) (s : str) : str :=
  rev (lstrip_by p (rev s)).

Definition strip_by (p : char -> bool) (s : str) : str :=
  rstrip_by p (lstrip_by p s).

(** [s.strip()]: whitespace on both sides. *)
Definition strip (s : str) : str := strip_by isspace s.

(** Membership of a code point in the argument of [strip(chars)]. *)
Definition among (chars : str) (c : char) : bool := existsb (char_eqb c) chars.

(** [s.strip(chars)] and [s.rstrip(chars)]. *)
Definition strip_chars (chars s : str) : str := strip_by (among chars) s.
Definition rstrip_chars (chars s : str) : str := rstrip_by (among chars) s.

(** [s.startswith(p)]. *)
Fixpoint startswith (p s : str) : bool :=
  match p, s with
  | [], _ => true
  | _ :: _, [] => false
  | x :: p', y :: s' => char_eqb x y && startswith p' s'
  end.

(** [old in s]. *)
Fixpoint contains (old s : str) : bool :=
  match s with
  | [] => startswith old []
  | _ :: r => startswith old s || contains old r
  end.

(** [s.replace(old, new)] for a non-empty [old]: a scan from the left that
    replaces each occurrence it meets and resumes after it.  [skip] counts
    the characters of a matched occurrence still to be dropped. *)
Fixpoint replace_from (old new : str) (skip : nat) (s : str) : str :=
  match s with
  | [] => []
  | c :: r =>
      match skip with
      | S k => replace_from old new k r
      | O => if startswith old s
             then new ++ replace_from old new (List.length old - 1) r
             else c :: replace_from old new 0 r
      end
  end.

Definition replace (old new s : str) : str := replace_from old new 0 s.

(** [re.sub('[class]', '', s)] and [re.sub('[class]', r, s)] for a class of
    single code points. *)
Definition remove_class (p : char -> bool) (s : str) : str :=
  filter (fun c => negb (p c)) s.

Definition sub_class (p : char -> bool) (r : char) (s : str) : str :=
  map (fun c => if p c then r else c) s.

End PyStr.

Import PyStr.

(* ================================================================== *)
(** * Exceptions and results *)

(** A raised Python exception.  [ValueError] is the one [auto_read] raises
    itself; every other exception comes out of a collaborator. *)
Inductive exn : Type :=
| ValueError (msg : string)
| AttributeError (msg : string)
| OtherError (msg : string).

(** The outcome of a call: a value or a raised exception. *)
Inductive result (A : Type) : Type :=
| Ok (a : A)
| Raise (e : exn).

Arguments Ok {A} a.
Arguments Raise {A} e.

Definition is_ok {A} (r : result A) : bool :=
  match r with Ok _ => true | Raise _ => false end.

(* ================================================================== *)
(** * The table: a pandas DataFrame *)

Section Frame.

(** The numeric cell type (float64 in pandas); its values are never
    inspected by the code under study. *)
Context {num : Type}.

(** A column; NaN is [None].  A column of dtype [object] holds text or
    NaN, or booleans or NaN: the second is what [pd.read_csv] returns for
    a column of true and false with missing values.  A numeric column
    holds numbers or NaN. *)
Inductive Series : Type :=
| ObjectCol (vals : list (option str))
| BoolObjectCol (vals : list (option bool))
| NumericCol (vals : list (option num)).

Definition series_len (s : Series) : nat :=
  match s with
  | ObjectCol vs => List.length vs
  | BoolObjectCol vs => List.length vs
  | NumericCol vs => List.length vs
  end.

(** [series.isna()] on one cell. *)
Definition isna {A} (v : option A) : bool :=
  match v with
  | None => true
  | Some _ => false
  end.

(** What pandas makes of an object column of text that it looks at again
    after a replacement by NaN: a column left without any value comes
    back as float64, every cell NaN. *)
Definition downcast (vs : list (option str)) : Series :=
  match vs with
  | [] => ObjectCol vs
  | _ :: _ =>
      if forallb isna vs then NumericCol (map (fun _ => None) vs)
      else ObjectCol vs
  end.

(** [len(df)] is the length of the index; the columns keep their order and
    their labels. *)
Record DataFrame : Type := mkDF {
  index_len : nat;
  columns : list (str * Series)
}.

Definition labels (df : DataFrame) : list str := map fst (columns df).

(** Every column is as long as the index. *)
Definition well_formed (df : DataFrame) : Prop :=
  Forall (fun c => series_len (snd c) = index_len df) (columns df).

Definition occurrences (col : str) (names : list str) : nat :=
  List.length (filter (PyStr.eqb col) names).

Fixpoint lookup (col : str) (cs : list (str * Series)) : option Series :=
  match cs with
  | [] => None
  | (n, s) :: r => if PyStr.eqb col n then Some s else lookup col r
  end.

(** [df[col]] followed by [.dtype]: a Series when the label is unique.  A
    repeated label selects a DataFrame, which has no [dtype]; the attribute
    access raises. *)
Definition getitem (df : DataFrame) (col : str) : result Series :=
  match lookup col (columns df) with
  | Some s =>
      if Nat.eqb (occurrences col (labels df)) 1 then Ok s
      else Raise (AttributeError "'DataFrame' object has no attribute 'dtype'")
  | None => Raise (OtherError "KeyError")
  end.

(** [df[col] = s]: the column of that label is replaced in place. *)
Definition setitem (df : DataFrame) (col : str) (s : Series) : DataFrame :=
  mkDF (index_len df)
       (map (fun c => if PyStr.eqb col (fst c) then (fst c, s) else c) (columns df)).

End Frame.

Arguments Series : clear implicits.
Arguments DataFrame : clear implicits.

(* ================================================================== *)
(** * Data Cleaner: [clean_data] and [clean_for_excel] *)

Section Cleaner.

Context {num : Type}.

(** [pd.to_numeric(..., errors='coerce')] on one text value: its number, or
    NaN when the text does not parse. *)
Variable to_numeric_str : str -> option num.

(** Whether pandas holds the object columns of the frame in one block
    when [df.replace] runs.  It decides nothing but the dtype of an
    object column that holds NaN alone and no empty string, next to a
    column that holds one: pandas looks again at every column of a block
    in which it replaced a value.  Through pandas 1.5 [replace]
    consolidates the frame first; later versions keep the block each
    assignment of the first loop made. *)
Variable one_block : bool.

Local Abbreviation Series := (Series num).
Local Abbreviation DataFrame := (DataFrame num).

(** [series.str.strip()] on one cell: NaN stays NaN. *)
Definition strip_cell (v : option str) : option str := option_map strip v.

(** [series.str]: the accessor takes an object column whose values, NaN
    apart, are text, or which holds NaN alone; on booleans it raises.
    [.strip()] then gives NaN for NaN. *)
Definition str_strip (s : Series) : result Series :=
  match s with
  | ObjectCol vs => Ok (ObjectCol (map strip_cell vs))
  | BoolObjectCol vs =>
      if forallb isna vs then Ok (ObjectCol (map (fun _ => None) vs))
      else Raise (AttributeError "Can only use .str accessor with string values!")
  | NumericCol _ => Ok s
  end.

(** The first loop of [clean_data]:
    [for col in df.columns: if df[col].dtype == 'object': df[col] = df[col].str.strip()].
    The loop is not guarded: a repeated label raises out of [clean_data],
    and so does an object column of booleans. *)
Fixpoint strip_loop (cols : list str) (df : DataFrame) : result DataFrame :=
  match cols with
  | [] => Ok df
  | col :: rest =>
      match getitem df col with
      | Raise e => Raise e
      | Ok (NumericCol _) => strip_loop rest df
      | Ok s =>
          match str_strip s with
          | Raise e => Raise e
          | Ok s' => strip_loop rest (setitem df col s')
          end
      end
  end.

(** One cell of [df.replace('', np.nan)]. *)
Definition nan_if_empty (v : option str) : option str :=
  match v with
  | Some [] => None
  | _ => v
  end.

(** A column with a cell that is the empty string. *)
Definition has_empty (s : Series) : bool :=
  match s with
  | ObjectCol vs =>
      existsb (fun v => match v with Some [] => true | _ => false end) vs
  | _ => false
  end.

(** One column of [df.replace('', np.nan)]; [block] tells whether pandas
    replaced a value in the block of the column, in another column of
    it.  pandas looks again at the dtype of the columns of a block in
    which it replaced a value, and at no other.  (The first loop of
    [clean_data] leaves no object column of booleans.) *)
Definition replace_empty_series (block : bool) (s : Series) : Series :=
  match s with
  | ObjectCol vs =>
      if has_empty s || block then downcast (map nan_if_empty vs)
      else ObjectCol (map nan_if_empty vs)
  | _ => s
  end.

(** [df.replace('', np.nan)]: a new frame, the numeric columns as they were. *)
Definition replace_empty (df : DataFrame) : DataFrame :=
  let replaced := existsb (fun c => has_empty (snd c)) (columns df) in
  mkDF (index_len df)
       (map (fun c => (fst c, replace_empty_series (one_block && replaced) (snd c)))
            (columns df)).

(** One cell of [pd.to_numeric(df[col], errors='coerce')]. *)
Definition to_numeric_cell (v : option str) : option num :=
  match v with
  | Some s => to_numeric_str s
  | None => None
  end.

(** [series.notna().sum()]. *)
Definition notna_sum {A} (vs : list (option A)) : nat :=
  List.length (filter (fun v => match v with Some _ => true | None => false end) vs).

(** [count / len(df) > 0.5] on two counts.  The quotient of two integers is
    above one half exactly when twice the count exceeds the length (a zero
    length gives inf for a positive count and nan for a zero count). *)
Definition above_half (count len : nat) : bool := Nat.ltb len (2 * count).

(** The body of the second loop of [clean_data], inside its [try]:
    a numeric column is skipped; any other column is parsed as a whole and
    replaced as a whole when the parse clears the threshold.  An exception
    in the body is swallowed ([except: pass]) and leaves the frame alone.
    (The object columns that get here hold text or NaN: the first loop
    leaves no other.) *)
Definition convert_column (df : DataFrame) (col : str) : DataFrame :=
  match getitem df col with
  | Raise _ => df
  | Ok (NumericCol _) => df
  | Ok (ObjectCol vs) =>
      let numeric_series := map to_numeric_cell vs in
      if above_half (notna_sum numeric_series) (index_len df)
      then setitem df col (NumericCol numeric_series)
      else df
  | Ok (BoolObjectCol _) => df
  end.

Definition convert_loop (cols : list str) (df : DataFrame) : DataFrame :=
  fold_left convert_column cols df.

(** [clean_data(df)]. *)
Definition clean_data (df : DataFrame) : result DataFrame :=
  match strip_loop (labels df) df with
  | Raise e => Raise e
  | Ok df1 =>
      let df2 := replace_empty df1 in
      Ok (convert_loop (labels df2) df2)
  end.

(** The class [[a-zA-Z0-9_]]. *)
Definition is_word (c : char) : bool :=
  (in_range 97 122 c || in_range 65 90 c || in_range 48 57 c || char_eqb c 95)%N%bool.

Definition underscore : char := 95%N.

(** The rewriting of one column name in [clean_for_excel]:
    [re.sub(r'[^a-zA-Z0-9_]', '_', str(col)).strip('_')], and ['Column'] when
    nothing is left. *)
Definition clean_col (col : str) : str :=
  let c1 := sub_class (fun c => negb (is_word c)) underscore col in
  let c2 := strip_chars [underscore] c1 in
  match c2 with
  | [] => lit "Column"
  | _ => c2
  end.

(** [df.columns = new_columns]. *)
Definition rename_columns (df : DataFrame) : DataFrame :=
  mkDF (index_len df) (map (fun c => (clean_col (fst c), snd c)) (columns df)).

(** [astype(str)] on a cell of an object column: NaN prints as ['nan']. *)
Definition astype_str (v : option str) : str :=
  match v with
  | Some s => s
  | None => lit "nan"
  end.

(** [str(True)] and [str(False)]: what [astype(str)] makes of a boolean. *)
Definition bool_text (v : option bool) : option str :=
  option_map (fun b : bool => if b then lit "True" else lit "False") v.

(** The class [[\x01-\x1f\x7f-\x9f]]. *)
Definition is_control (c : char) : bool :=
  (in_range 1 31 c || in_range 127 159 c)%N%bool.

Definition dquote : char := 34%N.
Definition squote : char := 39%N.

(** The literal between the two triple quotes of the source's quote-fixing
    lines: the text of the source from one apostrophe triple to the next. *)
Definition quote_pattern : str :=
  lit ", " ++ [dquote; squote; dquote] ++ lit ", regex=False)" ++ [10%N]
  ++ lit "            df[col] = df[col].str.replace(".

(** The three mis-decoded punctuation sequences, as code points. *)
Definition en_dash_seq : str := [8218; 196; 236]%N.
Definition em_dash_seq : str := [8218; 196; 238]%N.
Definition ellipsis_seq : str := [8218; 196; 182]%N.

(** The chain of string operations applied to each cell of an object
    column, in the order of the source. *)
Definition clean_text (v : option str) : option str :=
  let s := astype_str v in
  let s := replace [0%N] [] s in
  let s := remove_class is_control s in
  let s := replace [dquote] [dquote] s in
  let s := replace [dquote] [dquote] s in
  let s := replace quote_pattern [squote] s in
  let s := replace en_dash_seq (lit "-") s in
  let s := replace em_dash_seq (lit "-") s in
  let s := replace ellipsis_seq (lit "...") s in
  let s := strip s in
  if PyStr.eqb s (lit "nan") then None else Some s.

(** The body of the second loop of [clean_for_excel] on an object
    column: every cell goes through the chain, and the last step,
    [replace('nan', np.nan)], gives the column back as float64 when it
    leaves no value in it (every cell was text before that step, so a
    column without a value is one it replaced in). *)
Definition clean_object (s : Series) : Series :=
  match s with
  | ObjectCol vs => downcast (map clean_text vs)
  | BoolObjectCol vs => downcast (map clean_text (map bool_text vs))
  | NumericCol _ => s
  end.

(** The second loop of [clean_for_excel], mutating the frame in place; it
    stops at the first exception and leaves the frame as it is by then. *)
Fixpoint clean_cells_loop (cols : list str) (df : DataFrame)
  : DataFrame * option exn :=
  match cols with
  | [] => (df, None)
  | col :: rest =>
      match getitem df col with
      | Raise e => (df, Some e)
      | Ok (NumericCol _) => clean_cells_loop rest df
      | Ok s => clean_cells_loop rest (setitem df col (clean_object s))
      end
  end.

(** [clean_for_excel(df)]: the frame as mutated, and the exception when one
    is raised. *)
Definition clean_for_excel (df : DataFrame) : DataFrame * option exn :=
  let df1 := rename_columns df in
  clean_cells_loop (labels df1) df1.

End Cleaner.

(* ================================================================== *)
(** * Spreadsheet Exporter: [export_to_excel] and the save step of
      [convert_dbf_properly] *)

(** What the exporters print, with the values formatted into the text. *)
Inductive message : Type :=
| MsgCleaning
| MsgExporting (path : str)
| MsgExported (path : str)
| MsgShape (rows cols : nat)
| MsgExcelError (e : exn)
| MsgTryingSimpler
| MsgBasicFormat
| MsgSavingCsv (csv_path : str)
| MsgSavedCsv (csv_path : str)
| MsgOpenInExcel
| MsgSavingExcel (path : str).

(** What an exporter does to the outside: a line printed, or a file
    written by a call that returned. *)
Inductive event : Type :=
| Printed (m : message)
| WroteExcel (path : str) (sheet_name : option str)
| WroteCsv (path : str) (encoding : option str).

Definition xlsx : str := lit ".xlsx".
Definition csv : str := lit ".csv".

Section Exporter.

Context {num : Type}.

Local Abbreviation DataFrame := (DataFrame num).

(** [df.to_excel(path, index=False, sheet_name=...)] and
    [df.to_csv(path, index=False, encoding=...)]: each returns or raises. *)
Variable to_excel : DataFrame -> str -> option str -> result unit.
Variable to_csv : DataFrame -> str -> option str -> result unit.

(** The last resort of [export_to_excel]; it stands inside the second
    handler, so an exception of [to_csv] leaves the function. *)
Definition csv_fallback (df : DataFrame) (output_path : str)
  : list event * result unit :=
  let csv_path := replace xlsx csv output_path in
  match to_csv df csv_path (Some (lit "utf-8-sig")) with
  | Raise e => ([Printed (MsgSavingCsv csv_path)], Raise e)
  | Ok _ =>
      ([Printed (MsgSavingCsv csv_path);
        WroteCsv csv_path (Some (lit "utf-8-sig"));
        Printed (MsgSavedCsv csv_path);
        Printed MsgOpenInExcel], Ok tt)
  end.

(** The first handler of [export_to_excel]: the write without a sheet
    name, then the fallback. *)
Definition simpler_export (df : DataFrame) (output_path : str)
  : list event * result unit :=
  match to_excel df output_path None with
  | Ok _ =>
      ([Printed MsgTryingSimpler; WroteExcel output_path None;
        Printed MsgBasicFormat], Ok tt)
  | Raise _ =>
      let (evs, r) := csv_fallback df output_path in
      (Printed MsgTryingSimpler :: evs, r)
  end.

(** [export_to_excel(df, output_path, sheet_name)]: the events in order and
    how the call ends.  [clean_for_excel] mutates the frame it is given, so
    the handlers see the frame as the cleaning left it. *)
Definition export_to_excel (df : DataFrame) (output_path sheet_name : str)
  : list event * result unit :=
  let (df1, raised) := clean_for_excel df in
  match raised with
  | Some e =>
      let (evs, r) := simpler_export df1 output_path in
      (Printed MsgCleaning :: Printed (MsgExcelError e) :: evs, r)
  | None =>
      match to_excel df1 output_path (Some sheet_name) with
      | Ok _ =>
          ([Printed MsgCleaning; Printed (MsgExporting output_path);
            WroteExcel output_path (Some sheet_name);
            Printed (MsgExported output_path);
            Printed (MsgShape (index_len df1) (List.length (columns df1)))],
           Ok tt)
      | Raise e =>
          let (evs, r) := simpler_export df1 output_path in
          (Printed MsgCleaning :: Printed (MsgExporting output_path)
             :: Printed (MsgExcelError e) :: evs, r)
      end
  end.

(** The default sheet name. *)
Definition default_sheet : str := lit "Data".

(** [with pd.ExcelWriter(path, engine='xlsxwriter', options=...) as writer:
    df.to_excel(writer, ...)], the route of frames above 10000 rows. *)
Variable to_excel_writer : DataFrame -> str -> str -> result unit.

(** The row count above which the writer route is taken: 10000. *)
Definition large_frame : nat := 100 * 100.

(** The save step of [convert_dbf_properly]: one spreadsheet write, and on
    its failure a CSV at the replaced path with the default encoding. *)
Definition dbf_save (df : DataFrame) (excel_file : str)
  : list event * result unit :=
  let attempt :=
    if Nat.ltb large_frame (index_len df)
    then to_excel_writer df excel_file default_sheet
    else to_excel df excel_file None in
  match attempt with
  | Ok _ =>
      ([Printed (MsgSavingExcel excel_file);
        WroteExcel excel_file
          (if Nat.ltb large_frame (index_len df) then Some default_sheet else None);
        Printed (MsgExported excel_file)], Ok tt)
  | Raise e =>
      let csv_file := replace xlsx csv excel_file in
      match to_csv df csv_file None with
      | Raise e' => ([Printed (MsgSavingExcel excel_file); Printed (MsgExcelError e)], Raise e')
      | Ok _ =>
          ([Printed (MsgSavingExcel excel_file); Printed (MsgExcelError e);
            WroteCsv csv_file None; Printed (MsgSavedCsv csv_file)], Ok tt)
      end
  end.

End Exporter.

(* ================================================================== *)
(** * The reader class: state, log and exceptions *)

Inductive level : Type := DEBUG | INFO | WARNING | ERROR.

(** The records the class hands to its logger. *)
Inductive log_msg : Type :=
| LogAutoDetecting (path : str)
| LogDetectedEncoding (detected : option str) (confidence : Q)
| LogNoEncoding (e : exn)
| LogDetectedDelimiter (d : char)
| LogNoDelimiter (e : exn)
| LogReadingDelimited (delimiter : str)
| LogDelimitedFailed (e : exn)
| LogReadingFixedWidth
| LogFixedWidthFailed (e : exn)
| LogMethodFailed (method : string) (e : exn).

(** A keyword argument value of [pd.read_csv]. *)
Inductive arg : Type :=
| ArgNone
| ArgStr (s : str)
| ArgInt (n : Z)
| ArgBool (b : bool).

(** A dict with string keys, in insertion order. *)
Definition kwargs := list (string * arg).

(** [d[k] = v]: the entry is overwritten where it stands, or appended. *)
Fixpoint dict_set (k : string) (v : arg) (d : kwargs) : kwargs :=
  match d with
  | [] => [(k, v)]
  | (k', v') :: r =>
      if String.eqb k k' then (k, v) :: r else (k', v') :: dict_set k v r
  end.

(** [d.update(other)]. *)
Definition dict_update (d other : kwargs) : kwargs :=
  fold_left (fun acc kv => dict_set (fst kv) (snd kv) acc) other d.

(** A list of widths; [None] is the open-ended last column. *)
Definition widths := list (option nat).

Section Reader.

Context {num : Type}.

Local Abbreviation DataFrame := (DataFrame num).

(** The attributes of a [SybaseDatReader]. *)
Record SybaseDatReader : Type := mkReader {
  filepath : str;
  encoding : option str;
  data : option DataFrame;
  detected_format : option string
}.

(** The object, and the records the module's logger has handed on. *)
Record state : Type := mkState {
  self : SybaseDatReader;
  log : list (level * log_msg)
}.

(** [SybaseDatReader(filepath, encoding)]. *)
Definition init (path : str) (enc : option str) : state :=
  mkState (mkReader path enc None None) [].

(** ** The collaborators *)

(** [open(path, 'rb')] and [f.read(n)]: the first [n] bytes of the file. *)
Variable read_bytes : str -> nat -> result (list byte).

(** [chardet.detect(raw)]: the label (or [None]) and the confidence. *)
Variable chardet_detect : list byte -> result (option str * Q).

(** [open(path, 'r', encoding=...)] and the iteration over the file: the
    open may raise, and so may each step of the iteration when the bytes
    it reaches do not decode.  A line carries its newline. *)
Variable open_text : str -> option str -> result (list (result str)).

(** [pd.read_csv(path, **params)]. *)
Variable read_csv : str -> kwargs -> result DataFrame.

(** [pd.read_fwf(path, widths=..., names=..., encoding=...)]. *)
Variable read_fwf : str -> option widths -> option (list str) -> option str
                    -> result DataFrame.

(** ** A state and exception monad for the methods *)

Definition M (A : Type) : Type := state -> result A * state.

Definition ret {A} (a : A) : M A := fun st => (Ok a, st).

Definition raise {A} (e : exn) : M A := fun st => (Raise e, st).

Definition bind {A B} (m : M A) (k : A -> M B) : M B :=
  fun st =>
    match m st with
    | (Ok a, st') => k a st'
    | (Raise e, st') => (Raise e, st')
    end.

(** [try: m except Exception as e: h e]; what [m] did to the object and to
    the log before it raised stays done. *)
Definition try_except {A} (m : M A) (h : exn -> M A) : M A :=
  fun st =>
    match m st with
    | (Ok a, st') => (Ok a, st')
    | (Raise e, st') => h e st'
    end.

(** The value of a collaborator's call. *)
Definition call {A} (r : result A) : M A := fun st => (r, st).

Definition get_self : M SybaseDatReader := fun st => (Ok (self st), st).

Definition set_self (r : SybaseDatReader) : M unit :=
  fun st => (Ok tt, mkState r (log st)).

(** [logging.basicConfig(level=logging.INFO)] at the head of the module:
    the logger hands on the records of its level and above, and drops
    those below. *)
Definition levelno (l : level) : nat :=
  match l with
  | DEBUG => 10
  | INFO => 20
  | WARNING => 30
  | ERROR => 40
  end.

Definition configured_level : level := INFO.

Definition isEnabledFor (l : level) : bool :=
  Nat.leb (levelno configured_level) (levelno l).

(** [logger.debug], [logger.info], [logger.warning] and [logger.error]:
    the state keeps the records that were handed on. *)
Definition logger (l : level) (m : log_msg) : M unit :=
  fun st =>
    (Ok tt,
     if isEnabledFor l then mkState (self st) (log st ++ [(l, m)]) else st).

Notation "x <- m ;; k" := (bind m (fun x => k))
  (at level 61, m at next level, right associativity).
Notation "m ;;; k" := (bind m (fun _ => k))
  (at level 61, right associativity).

(** ** [detect_encoding] *)

Definition latin_1 : str := lit "latin-1".

(** The truth value of [detected]: [None] and [''] are false. *)
Definition truthy (detected : option str) : bool :=
  match detected with
  | Some (_ :: _) => true
  | _ => false
  end.

(** [confidence > 0.7].  No double lies between the double nearest 0.7 and
    7/10, so the comparison of doubles agrees with the one of rationals. *)
Definition above_threshold (confidence : Q) : bool :=
  negb (Qle_bool confidence (7 # 10)).

(** The default of [sample_size]: 10000 bytes. *)
Definition default_sample_size : nat := 100 * 100.

Definition detect_encoding (sample_size : nat) : M str :=
  try_except
    (r <- get_self ;;
     raw_data <- call (read_bytes (filepath r) sample_size) ;;
     result <- call (chardet_detect raw_data) ;;
     let detected := fst result in
     let confidence := snd result in
     logger INFO (LogDetectedEncoding detected confidence) ;;;
     match detected with
     | Some d => if truthy detected && above_threshold confidence
                 then ret d else ret latin_1
     | None => ret latin_1
     end)
    (fun e => logger WARNING (LogNoEncoding e) ;;; ret latin_1).

(** ** [detect_delimiter] *)

Definition tab : char := 9%N.
Definition pipe : char := 124%N.
Definition comma : char := 44%N.
Definition semicolon : char := 59%N.
Definition unit_separator : char := 1%N.

Definition delimiters : list char := [tab; pipe; comma; semicolon; unit_separator].

(** [delimiter_counts], a dict from delimiter to count in insertion order. *)
Definition counts := list (char * nat).

Definition counts_get (c : counts) (d : char) : nat :=
  match find (fun kv => char_eqb d (fst kv)) c with
  | Some kv => snd kv
  | None => 0
  end.

(** [delimiter_counts[d] += n]. *)
Definition counts_add (d : char) (n : nat) (c : counts) : counts :=
  map (fun kv => if char_eqb d (fst kv) then (fst kv, snd kv + n) else kv) c.

(** [for delimiter in delimiters: delimiter_counts[delimiter] += line.count(delimiter)]. *)
Definition count_line (line : str) (c : counts) : counts :=
  fold_left (fun acc d => counts_add d (PyStr.count d line) acc) delimiters c.

(** [for i, line in enumerate(f)]: the next line is fetched (which may
    raise), then the bound on [i] is tested. *)
Fixpoint count_lines (sample_lines i : nat) (f : list (result str)) (c : counts)
  : result counts :=
  match f with
  | [] => Ok c
  | Raise e :: _ => Raise e
  | Ok line :: rest =>
      if Nat.leb sample_lines i then Ok c
      else count_lines sample_lines (S i) rest (count_line line c)
  end.

(** [max(keys, key=f)] on a non-empty sequence: the first of the largest. *)
Fixpoint max_from {A} (key : A -> nat) (best : A) (rest : list A) : A :=
  match rest with
  | [] => best
  | x :: r => if Nat.ltb (key best) (key x) then max_from key x r
              else max_from key best r
  end.

Definition py_max {A} (key : A -> nat) (default : A) (l : list A) : A :=
  match l with
  | [] => default
  | x :: r => max_from key x r
  end.

Definition detect_delimiter (sample_lines : nat) : M (option char) :=
  try_except
    (let delimiter_counts : counts := map (fun d => (d, 0)) delimiters in
     r <- get_self ;;
     f <- call (open_text (filepath r) (encoding r)) ;;
     delimiter_counts <- call (count_lines sample_lines 0 f delimiter_counts) ;;
     let best_delimiter :=
       py_max (counts_get delimiter_counts) tab (map fst delimiter_counts) in
     if Nat.ltb 0 (counts_get delimiter_counts best_delimiter)
     then logger INFO (LogDetectedDelimiter best_delimiter) ;;;
          ret (Some best_delimiter)
     else ret None)
    (fun e => logger WARNING (LogNoDelimiter e) ;;; ret None).

(** ** [_detect_fixed_widths] *)

Definition space : char := 32%N.
Definition newline : char := 10%N.

(** The reading loop: up to [sample_lines] lines, each without its
    trailing newlines. *)
Fixpoint sample_loop (sample_lines i : nat) (f : list (result str)) (lines : list str)
  : result (list str) :=
  match f with
  | [] => Ok lines
  | Raise e :: _ => Raise e
  | Ok line :: rest =>
      if Nat.leb sample_lines i then Ok lines
      else sample_loop sample_lines (S i) rest (lines ++ [rstrip_chars [newline] line])
  end.

(** [pos < len(line) and line[pos] == ' ']. *)
Definition space_at (pos : nat) (line : str) : bool :=
  Nat.ltb pos (List.length line) && char_eqb (nth pos line 0%N) space.

(** The positions at which every sampled line has a space. *)
Definition space_positions (lines : list str) : list nat :=
  let longest := py_max (@List.length char) [] lines in
  filter (fun pos => forallb (space_at pos) lines) (seq 0 (List.length longest)).

(** The loop over the shared space positions: a position becomes a boundary
    when it lies more than one character after the previous one. *)
Fixpoint widths_loop (positions : list nat) (prev : nat) (ws : list nat) : list nat :=
  match positions with
  | [] => ws
  | pos :: rest =>
      if Nat.ltb 1 (pos - prev)
      then widths_loop rest pos (ws ++ [pos - prev])
      else widths_loop rest prev ws
  end.

(** The part of [_detect_fixed_widths] after the file is read. *)
Definition widths_of_lines (lines : list str) : option widths :=
  match lines with
  | [] => None
  | _ =>
      match space_positions lines with
      | [] => None
      | positions => Some (map Some (widths_loop positions 0 []) ++ [None])
      end
  end.

Definition _detect_fixed_widths (sample_lines : nat) : M (option widths) :=
  try_except
    (r <- get_self ;;
     f <- call (open_text (filepath r) (encoding r)) ;;
     lines <- call (sample_loop sample_lines 0 f []) ;;
     ret (widths_of_lines lines))
    (fun _ => ret None).

(** ** [read_delimited], [read_fixed_width] and [auto_read] *)

Definition enc_arg (e : option str) : arg :=
  match e with
  | Some s => ArgStr s
  | None => ArgNone
  end.

(** The dict [default_params] of [read_delimited]. *)
Definition default_params (delimiter : str) (enc : option str) : kwargs :=
  [("delimiter"%string, ArgStr delimiter);
   ("encoding"%string, enc_arg enc);
   ("quoting"%string, ArgInt 3);
   ("on_bad_lines"%string, ArgStr (lit "skip"));
   ("low_memory"%string, ArgBool false)].

Definition read_delimited (delimiter : option str) (kw : kwargs) : M DataFrame :=
  try_except
    (delimiter <-
       match delimiter with
       | Some d => ret d
       | None =>
           d <- detect_delimiter 10 ;;
           match d with
           | Some c => ret [c]
           | None => ret [tab]
           end
       end ;;
     r <- get_self ;;
     let params := dict_update (default_params delimiter (encoding r)) kw in
     logger INFO (LogReadingDelimited delimiter) ;;;
     df <- call (read_csv (filepath r) params) ;;
     set_self (mkReader (filepath r) (encoding r) (Some df) (Some "delimited"%string)) ;;;
     ret df)
    (fun e => logger ERROR (LogDelimitedFailed e) ;;; raise e).

Definition read_fixed_width (ws : option widths) (names : option (list str))
  : M DataFrame :=
  try_except
    (logger INFO LogReadingFixedWidth ;;;
     ws <- match ws with
           | Some w => ret (Some w)
           | None => _detect_fixed_widths 100
           end ;;
     r <- get_self ;;
     df <- call (read_fwf (filepath r) ws names (encoding r)) ;;
     set_self (mkReader (filepath r) (encoding r) (Some df) (Some "fixed_width"%string)) ;;;
     ret df)
    (fun e => logger ERROR (LogFixedWidthFailed e) ;;; raise e).

(** The message of the exception [auto_read] raises when no method reads
    the file. *)
Definition no_known_format : exn :=
  ValueError "Could not read file with any known format".

(** The loop of [auto_read] over its list of methods. *)
Fixpoint try_methods (methods : list (string * M DataFrame)) : M DataFrame :=
  match methods with
  | [] => raise no_known_format
  | (name, method) :: rest =>
      try_except method
        (fun e => logger DEBUG (LogMethodFailed name e) ;;; try_methods rest)
  end.

Definition auto_read : M DataFrame :=
  r <- get_self ;;
  logger INFO (LogAutoDetecting (filepath r)) ;;;
  match encoding r with
  | None =>
      e <- detect_encoding default_sample_size ;;
      r <- get_self ;;
      set_self (mkReader (filepath r) (Some e) (data r) (detected_format r))
  | Some _ => ret tt
  end ;;;
  try_methods [("read_delimited"%string, read_delimited None []);
               ("read_fixed_width"%string, read_fixed_width None None)].

End Reader.

(* ================================================================== *)
(** * Indexed binary tables: [convert_dbf_properly] and
      [convert_with_field_mapping] *)

Section Dbf.

(** A value as the table library hands it out, and a record of the table. *)
Context {value : Type}.
Context {record : Type}.

(** [record.get(field)]: the value (Python's [None] is [None]), or an
    exception. *)
Variable get : record -> str -> result (option value).

(** An entry of the [errors] list of [convert_dbf_properly]. *)
Inductive error_entry : Type :=
| FieldError (field : str) (i : nat) (e : exn)
| RecordError (i : nat) (e : exn).

(** The number of errors kept. *)
Definition max_errors : nat := 5.

(** [if len(errors) < 5: errors.append(entry)]. *)
Definition keep_error (errors : list error_entry) (entry : error_entry)
  : list error_entry :=
  if Nat.ltb (List.length errors) max_errors then errors ++ [entry] else errors.

(** A dict keyed by field name, in insertion order; [d[k] = v]. *)
Fixpoint item_set {V} (k : str) (v : V) (d : list (str * V)) : list (str * V) :=
  match d with
  | [] => [(k, v)]
  | (k', v') :: r =>
      if PyStr.eqb k k' then (k, v) :: r else (k', v') :: item_set k v r
  end.

Fixpoint item_get {V} (k : str) (d : list (str * V)) : option V :=
  match d with
  | [] => None
  | (k', v') :: r => if PyStr.eqb k k' then Some v' else item_get k r
  end.

(** The inner loop of [convert_dbf_properly] over the field names of record
    [i]: the value as it is, or [None] and a kept error when the access
    raises. *)
Fixpoint fields_loop (i : nat) (rec : record) (field_names : list str)
    (record_dict : list (str * option value)) (errors : list error_entry)
  : list (str * option value) * list error_entry :=
  match field_names with
  | [] => (record_dict, errors)
  | field :: rest =>
      match get rec field with
      | Ok v => fields_loop i rec rest (item_set field v record_dict) errors
      | Raise e =>
          fields_loop i rec rest (item_set field None record_dict)
                      (keep_error errors (FieldError field i e))
      end
  end.

(** The loop of [convert_dbf_properly] over the records.  The table is
    what iterating over it gives: the records in order, and an exception
    where the library fails on one (it reads and converts the fields of a
    record while it iterates).  That exception is raised by the [for]
    statement itself, outside the two handlers of the body, and leaves
    the loop.  Every statement of the body that can raise stands inside
    the inner handler, so the record-level handler has nothing to catch. *)
Fixpoint records_loop (i : nat) (table : list (result record)) (field_names : list str)
    (records : list (list (str * option value))) (errors : list error_entry)
  : result (list (list (str * option value)) * list error_entry) :=
  match table with
  | [] => Ok (records, errors)
  | Raise e :: _ => Raise e
  | Ok rec :: rest =>
      let (record_dict, errors') := fields_loop i rec field_names [] errors in
      records_loop (S i) rest field_names (records ++ [record_dict]) errors'
  end.

(** The reading part of [convert_dbf_properly]: the records and the kept
    errors, [len(errors)] being the total it reports; or the exception of
    the iteration, which the handler at the end of the function prints
    before it returns [None]. *)
Definition read_records (table : list (result record)) (field_names : list str)
  : result (list (list (str * option value)) * list error_entry) :=
  records_loop 0 table field_names [] [].

(** ** [convert_with_field_mapping] *)

Context {num : Type}.

(** The built-ins applied to a value: its truth value, [str(value)] and
    [float(value)], which raises on what is not a number. *)
Variable is_true : value -> bool.
Variable py_str : value -> str.
Variable py_float : value -> result num.
Variable zero : num.

(** An entry of [fields_info]. *)
Record field_info : Type := mkField {
  name : str;
  type : str;
  field_length : nat;
  decimal_count : nat
}.

(** A converted value. *)
Inductive cell : Type :=
| CNone
| CStr (s : str)
| CFloat (x : num)
| CBool (b : bool)
| CValue (v : value).

(** The type-specific handling of one field, inside its [try]. *)
Definition convert_value (field_type : str) (v : option value) : result cell :=
  match v with
  | None => Ok CNone
  | Some x =>
      if PyStr.eqb field_type (lit "C") then
        Ok (CStr (if is_true x then strip (py_str x) else []))
      else if PyStr.eqb field_type (lit "N") || PyStr.eqb field_type (lit "F") then
        if is_true x then
          match py_float x with
          | Ok f => Ok (CFloat f)
          | Raise e => Raise e
          end
        else Ok (CFloat zero)
      else if PyStr.eqb field_type (lit "L") then
        Ok (CBool (if is_true x then true else false))
      else if PyStr.eqb field_type (lit "D") then Ok (CValue x)
      else Ok (CValue x)
  end.

(** One field of one record: the access and the conversion, and [None] on
    any exception. *)
Definition convert_field (rec : record) (fi : field_info) : cell :=
  match get rec (name fi) with
  | Raise _ => CNone
  | Ok v =>
      match convert_value (type fi) v with
      | Ok c => c
      | Raise _ => CNone
      end
  end.

Definition convert_record (rec : record) (fields_info : list field_info)
  : list (str * cell) :=
  fold_left (fun converted_record fi =>
               item_set (name fi) (convert_field rec fi) converted_record)
            fields_info [].

(** The reading loop of [convert_with_field_mapping]; an exception of the
    iteration leaves it for the handler at the end of the function, which
    prints it and returns [None]. *)
Fixpoint convert_loop_records (table : list (result record))
    (fields_info : list field_info) (records : list (list (str * cell)))
  : result (list (list (str * cell))) :=
  match table with
  | [] => Ok records
  | Raise e :: _ => Raise e
  | Ok rec :: rest =>
      convert_loop_records rest fields_info
        (records ++ [convert_record rec fields_info])
  end.

Definition convert_records (table : list (result record))
    (fields_info : list field_info) : result (list (list (str * cell))) :=
  convert_loop_records table fields_info [].

End Dbf.

(* ================================================================== *)
(** * Further parts of the sources: output names, keyword arguments and
      the diagnostic tool *)

(** [s.endswith(p)]. *)
Definition endswith (p s : str) : bool := startswith (rev p) (rev s).

Definition dat : str := lit ".dat".
Definition dbf : str := lit ".dbf".

(** The default [excel_file] of [convert_dbf_properly], the one of
    [convert_with_field_mapping], and the [extracted_csv] of the DBF
    script's [main]. *)
Definition default_excel_file (dbf_file : str) : str :=
  replace dbf xlsx (replace dat xlsx dbf_file).

Definition mapped_excel_file (dbf_file : str) : str :=
  replace dat (lit "_mapped.xlsx") dbf_file.

Definition extracted_csv (input_file : str) : str :=
  replace dat (lit "_extracted.csv") input_file.

(** [if not change.endswith('.xlsx'): change += '.xlsx'] of
    [interactive_mode]. *)
Definition ensure_xlsx (change : str) : str :=
  if endswith xlsx change then change else change ++ xlsx.

Section OutputName.

(** [os.path.splitext(p)[0]], [os.path.dirname] and [os.path.join], the
    path functions of the platform. *)
Variable splitext_root : str -> str.
Variable os_dirname : str -> str.
Variable os_join : str -> str -> str.

(** The [output_file] of [interactive_mode] for an input file and the
    stripped answer to its prompt for another name. *)
Definition output_file (input_file change : str) : str :=
  match change with
  | [] => splitext_root input_file ++ xlsx
  | _ => os_join (os_dirname input_file) (ensure_xlsx change)
  end.

End OutputName.

(** [d.get(k)] on a dict with string keys. *)
Fixpoint dict_get (k : string) (d : kwargs) : option arg :=
  match d with
  | [] => None
  | (k', v) :: r => if String.eqb k k' then Some v else dict_get k r
  end.

(** [s.split(c)] for a one-character separator. *)
Fixpoint split_on (c : char) (s : str) : list str :=
  match s with
  | [] => [[]]
  | x :: r =>
      if char_eqb x c then [] :: split_on c r
      else match split_on c r with
           | h :: t => (x :: h) :: t
           | [] => [[x]]
           end
  end.

(** The encodings the tool tries, in its order. *)
Definition diag_encodings : list str :=
  [lit "utf-8"; lit "latin-1"; lit "cp1252"; lit "iso-8859-1"; lit "utf-16";
   lit "ascii"].

(** The dict [delimiters] of the tool: display name and character. *)
Definition diag_delimiters : list (string * char) :=
  [("Tab (\t)"%string, 9%N); ("Pipe (|)"%string, 124%N);
   ("Comma (,)"%string, 44%N); ("Semicolon (;)"%string, 59%N);
   ("Unit Sep (\x01)"%string, 1%N); ("Field Sep (\x1f)"%string, 31%N)].

(** The dict [delim_map] of the recommendations: display name and the
    text printed for it. *)
Definition delim_map : list (string * str) :=
  [("Tab (\t)"%string, lit "\t"); ("Pipe (|)"%string, lit "|");
   ("Comma (,)"%string, lit ","); ("Semicolon (;)"%string, lit ";")].

(** The lines the tool prints in its sections 4 and 6 and in its
    recommendations.  Two of them speak of a binary format:
    [DiagNullBytes], the line of section 6 on NULL bytes, and
    [DiagMaybeBinary], the warning that stands for the recommendations
    when no encoding decodes the sample. *)
Inductive diag_msg : Type :=
| DiagCount (name : string) (count : nat)
| DiagMostLikely (name : string)
| DiagUseEncoding (enc : str)
| DiagUseDelimiter (text : str)
| DiagMaybeBinary
| DiagNullBytes
| DiagLineEndings (kind : string)
| DiagBom (kind : string).

Section Diagnose.

(** [raw_sample.decode(enc)]. *)
Variable decode : str -> list byte -> result str.

(** The loop over the encodings: the pairs of the encodings that decode
    the sample and of what they give. *)
Definition successful_decodings (raw_sample : list byte) : list (str * str) :=
  flat_map (fun enc =>
              match decode enc raw_sample with
              | Ok decoded => [(enc, decoded)]
              | Raise _ => []
              end) diag_encodings.

(** [delimiter_counts] for a decoded sample: the occurrences in the first
    five lines, by display name, in the order of [delimiters]. *)
Definition diag_counts (decoded : str) : list (string * nat) :=
  let lines := firstn 5 (split_on newline decoded) in
  map (fun nd => (fst nd, list_sum (map (PyStr.count (snd nd)) lines)))
      diag_delimiters.

Definition diag_count_of (counts : list (string * nat)) (name : string) : nat :=
  match find (fun kv => String.eqb name (fst kv)) counts with
  | Some kv => snd kv
  | None => 0
  end.

(** [max(delimiter_counts, key=delimiter_counts.get)]. *)
Definition diag_best (counts : list (string * nat)) : string :=
  py_max (diag_count_of counts) ""%string (map fst counts).

Definition delim_map_get (name : string) : option str :=
  match find (fun kv => String.eqb name (fst kv)) delim_map with
  | Some kv => Some (snd kv)
  | None => None
  end.

(** Section 4 of the report. *)
Definition delimiter_section (raw_sample : list byte) : list diag_msg :=
  match successful_decodings raw_sample with
  | [] => []
  | (_, decoded) :: _ =>
      let counts := diag_counts decoded in
      flat_map (fun kv => if Nat.ltb 0 (snd kv)
                          then [DiagCount (fst kv) (snd kv)] else []) counts
      ++ match counts with
         | [] => []
         | _ => [DiagMostLikely (diag_best counts)]
         end
  end.

(** The recommendations at the end of the report. *)
Definition recommendations (raw_sample : list byte) : list diag_msg :=
  match successful_decodings raw_sample with
  | [] => [DiagMaybeBinary]
  | (enc, decoded) :: _ =>
      let counts := diag_counts decoded in
      DiagUseEncoding enc
      :: match counts with
         | [] => []
         | _ =>
             if Nat.ltb 0 (py_max (fun v => v) 0 (map snd counts))
             then match delim_map_get (diag_best counts) with
                  | Some text => [DiagUseDelimiter text]
                  | None => []
                  end
             else []
         end
  end.

End Diagnose.

(* ================================================================== *)
(** * Vocabulary of the statements *)

(** The regular expression [^[A-Za-z0-9_]+$] on a name: one character of
    the class at least, and no other. *)
Definition matches_name (s : str) : bool :=
  match s with
  | [] => false
  | _ => forallb is_word s
  end.

Section FrameVocabulary.

Context {num : Type}.

Local Abbreviation Series := (Series num).
Local Abbreviation DataFrame := (DataFrame num).

(** A column-wise function applied to the columns of one label, and to all
    columns. *)
Definition apply_at (col : str) (g : Series -> Series) (df : DataFrame) : DataFrame :=
  mkDF (index_len df)
       (map (fun c => if PyStr.eqb col (fst c) then (fst c, g (snd c)) else c)
            (columns df)).

Definition map_series (g : Series -> Series) (df : DataFrame) : DataFrame :=
  mkDF (index_len df) (map (fun c => (fst c, g (snd c))) (columns df)).

(** Every label of the frame stands for one column. *)
Definition unique_labels (df : DataFrame) : Prop :=
  forall col, In col (labels df) -> occurrences col (labels df) = 1.

End FrameVocabulary.

Section CleanerVocabulary.

Context {num : Type}.
Variable to_numeric_str : str -> option num.
Variable one_block : bool.

Local Abbreviation Series := (Series num).
Local Abbreviation DataFrame := (DataFrame num).

(** An object column of booleans: one boolean at least. *)
Definition holds_bool (s : Series) : bool :=
  match s with
  | BoolObjectCol vs => negb (forallb isna vs)
  | _ => false
  end.

(** No column of the frame is an object column of booleans. *)
Definition without_bools (df : DataFrame) : Prop :=
  Forall (fun c => holds_bool (snd c) = false) (columns df).

(** What the three passes of [clean_data] do to one column that holds no
    boolean. *)
Definition strip_series (s : Series) : Series :=
  match s with
  | ObjectCol vs => ObjectCol (map strip_cell vs)
  | BoolObjectCol vs => ObjectCol (map (fun _ => None) vs)
  | NumericCol _ => s
  end.

Definition convert_series (len : nat) (s : Series) : Series :=
  match s with
  | ObjectCol vs =>
      if above_half (notna_sum (map (to_numeric_cell to_numeric_str) vs)) len
      then NumericCol (map (to_numeric_cell to_numeric_str) vs)
      else s
  | _ => s
  end.

Definition clean_series (len : nat) (block : bool) (s : Series) : Series :=
  convert_series len (replace_empty_series block (strip_series s)).

(** Whether the second pass replaces an empty string in some column of
    the frame, and whether pandas then looks again at the columns it
    replaced nothing in. *)
Definition replaces_some (df : DataFrame) : bool :=
  existsb (fun c => has_empty (strip_series (snd c))) (columns df).

Definition whole_block (df : DataFrame) : bool := one_block && replaces_some df.

(** The cell after the first two passes. *)
Definition clean_cell (v : option str) : option str := nan_if_empty (strip_cell v).

(** [clean_data(clean_data(df))]. *)
Definition clean_twice (df : DataFrame) : result DataFrame :=
  match clean_data to_numeric_str one_block df with
  | Ok d => clean_data to_numeric_str one_block d
  | Raise e => Raise e
  end.

(** The decision as the specification words it: more than half of the
    non-null values of the cleaned column parse. *)
Definition majority_of_non_null (cleaned : list (option str)) : bool :=
  Nat.ltb (notna_sum cleaned)
          (2 * notna_sum (map (to_numeric_cell to_numeric_str) cleaned)).

End CleanerVocabulary.

(** The occurrences of a delimiter in the first [n] lines. *)
Definition total (n : nat) (lines : list str) (d : char) : nat :=
  list_sum (map (PyStr.count d) (firstn n lines)).

(** The dict whose entry for each candidate is given by a function. *)
Definition tabulate (a : char -> nat) : counts := map (fun d => (d, a d)) delimiters.

(** The choice of [detect_delimiter] among totals. *)
Definition pick (a : char -> nat) : option char :=
  let best := py_max (counts_get (tabulate a)) tab (map fst (tabulate a)) in
  if Nat.ltb 0 (counts_get (tabulate a) best) then Some best else None.

(** The positions reached by laying widths end to end from [start]. *)
Fixpoint boundaries (start : nat) (ws : list nat) : list nat :=
  match ws with
  | [] => []
  | w :: r => (start + w) :: boundaries (start + w) r
  end.

(** The latin-1 codec: a byte is the code point of the same value. *)
Definition latin_1_decode (bs : list byte) : str := map Byte.to_N bs.

Definition latin_1_encode (s : str) : option (list byte) :=
  fold_right (fun c acc =>
                match Byte.of_N c, acc with
                | Some b, Some l => Some (b :: l)
                | _, _ => None
                end) (Some []) s.

(** A necessary condition for bytes to decode as UTF-8: every lead byte is
    followed by its continuation bytes ([pending] counts those still due). *)
Fixpoint utf_8_scan (pending : nat) (bs : list byte) : bool :=
  match bs with
  | [] => Nat.eqb pending 0
  | b :: r =>
      let n := Byte.to_N b in
      match pending with
      | S k => in_range 128 191 n && utf_8_scan k r
      | O =>
          if N.ltb n 128 then utf_8_scan 0 r
          else if in_range 194 223 n then utf_8_scan 1 r
          else if in_range 224 239 n then utf_8_scan 2 r
          else if in_range 240 244 n then utf_8_scan 3 r
          else false
      end
  end%N.

(** The byte-order mark of UTF-8. *)
Definition bom_utf_8 : list byte := [xef; xbb; xbf].

Fixpoint bytes_startswith (p bs : list byte) : bool :=
  match p, bs with
  | [], _ => true
  | _ :: _, [] => false
  | x :: p', y :: bs' => Byte.eqb x y && bytes_startswith p' bs'
  end.

(** Bytes that the utf-8-sig codec can decode pass this test: the codec
    drops a leading mark and decodes the rest as UTF-8. *)
Definition utf_8_sig_decodable (bs : list byte) : bool :=
  if bytes_startswith bom_utf_8 bs then utf_8_scan 0 (skipn 3 bs)
  else utf_8_scan 0 bs.

(** [pattern in raw_sample], on bytes. *)
Fixpoint bytes_contains (p bs : list byte) : bool :=
  match bs with
  | [] => bytes_startswith p []
  | _ :: r => bytes_startswith p bs || bytes_contains p r
  end.

(** Section 6 of the report of [diagnose_dat_file]: NULL bytes, line
    endings and byte-order marks. *)
Definition structure_section (raw_sample : list byte) : list diag_msg :=
  (if bytes_contains [x00] raw_sample then [DiagNullBytes] else [])
  ++ (if bytes_contains [x0d; x0a] raw_sample then [DiagLineEndings "Windows"]
      else if bytes_contains [x0a] raw_sample then [DiagLineEndings "Unix"]
      else if bytes_contains [x0d] raw_sample then [DiagLineEndings "Mac"]
      else [])
  ++ (if bytes_startswith [xff; xfe] raw_sample then [DiagBom "UTF-16 LE"]
      else if bytes_startswith [xfe; xff] raw_sample then [DiagBom "UTF-16 BE"]
      else if bytes_startswith [xef; xbb; xbf] raw_sample then [DiagBom "UTF-8"]
      else []).

(** The lines of the sections 4 and 6 and of the recommendations, in the
    order of the report. *)
Definition report_lines (decode : str -> list byte -> result str)
    (raw_sample : list byte) : list diag_msg :=
  delimiter_section decode raw_sample
  ++ structure_section raw_sample
  ++ recommendations decode raw_sample.

(** The methods whose start the log records, in the order of the log. *)
Definition tried (l : list (level * log_msg)) : list string :=
  flat_map (fun entry =>
              match snd entry with
              | LogReadingDelimited _ => ["read_delimited"%string]
              | LogReadingFixedWidth => ["read_fixed_width"%string]
              | _ => []
              end) l.

(** The delimiter [read_delimited] reads with after detection. *)
Definition delimiter_or_tab (d : option char) : str :=
  match d with
  | Some c => [c]
  | None => [tab]
  end.

Section ReaderVocabulary.

Context {num : Type}.

(** The reader once its encoding is known. *)
Definition with_encoding (r : @SybaseDatReader num) (e : str) : @SybaseDatReader num :=
  mkReader (filepath r) (Some e) (data r) (detected_format r).

End ReaderVocabulary.

Definition utf_8_sig : str := lit "utf-8-sig".

(** An event that writes no file. *)
Definition only_printed (ev : event) : Prop := exists m, ev = Printed m.

Section ExporterVocabulary.

Context {num : Type}.
Variable to_excel : DataFrame num -> str -> option str -> result unit.
Variable to_excel_writer : DataFrame num -> str -> str -> result unit.

(** The first attempt of [export_to_excel]: the cleaning, then the write
    with the sheet name. *)
Definition first_attempt (df : DataFrame num) (output_path sheet_name : str)
  : result unit :=
  match snd (clean_for_excel df) with
  | Some e => Raise e
  | None => to_excel (fst (clean_for_excel df)) output_path (Some sheet_name)
  end.

(** The only attempt of the save step of [convert_dbf_properly]. *)
Definition dbf_attempt (df : DataFrame num) (excel_file : str) : result unit :=
  if Nat.ltb large_frame (index_len df)
  then to_excel_writer df excel_file default_sheet
  else to_excel df excel_file None.

End ExporterVocabulary.

Section DbfVocabulary.

Context {value : Type}.
Context {record : Type}.
Variable get : record -> str -> result (option value).

(** The value [convert_dbf_properly] stores for a field. *)
Definition stored (rec : record) (field : str) : option value :=
  match get rec field with
  | Ok v => v
  | Raise _ => None
  end.

(** The failures of one record, in the order of its fields, and of a
    table, in the order of its records. *)
Definition failures (i : nat) (rec : record) (field_names : list str)
  : list error_entry :=
  flat_map (fun field =>
              match get rec field with
              | Ok _ => []
              | Raise e => [FieldError field i e]
              end) field_names.

Fixpoint all_failures (i : nat) (table : list record) (field_names : list str)
  : list error_entry :=
  match table with
  | [] => []
  | rec :: rest => failures i rec field_names ++ all_failures (S i) rest field_names
  end.

(** The record dict of a record. *)
Definition record_dict_of (field_names : list str) (rec : record)
  : list (str * option value) :=
  fold_left (fun d f => item_set f (stored rec f) d) field_names [].

End DbfVocabulary.

(** A character that the cleaning of cells lets through: neither NUL nor
    in the class [[\x01-\x1f\x7f-\x9f]]. *)
Definition printable (c : char) : Prop := c <> 0%N /\ is_control c = false.

Section CleanForExcelVocabulary.

Context {num : Type}.

Local Abbreviation Series := (Series num).

(** What the second loop of [clean_for_excel] does to one column: the
    cells of an object column are cleaned one by one, and the column
    comes back as float64, every cell NaN, when none of its cells has a
    value left. *)
Definition clean_text_series (s : Series) : Series :=
  match s with
  | ObjectCol vs =>
      let cleaned := map clean_text vs in
      if negb (Nat.eqb (List.length vs) 0) && forallb isna cleaned
      then NumericCol (map (fun _ => None) vs)
      else ObjectCol cleaned
  | BoolObjectCol vs =>
      if negb (Nat.eqb (List.length vs) 0) && forallb isna vs
      then NumericCol (map (fun _ => None) vs)
      else ObjectCol (map bool_text vs)
  | NumericCol _ => s
  end.

End CleanForExcelVocabulary.

(** An event that writes a file. *)
Definition is_write (ev : event) : bool :=
  match ev with
  | Printed _ => false
  | _ => true
  end.

(** [posixpath.join] of two components. *)
Definition posix_join (a b : str) : str :=
  if startswith (lit "/") b then b
  else match a with
       | [] => b
       | _ => if endswith (lit "/") a then a ++ b else a ++ lit "/" ++ b
       end.

(* ================================================================== *)
(** * Concrete inputs on which the model is run *)

(** The value of a decimal digit. *)
Definition digit_value (c : char) : option Z :=
  if in_range 48%N 57%N c then Some (Z.of_N c - 48)%Z else None.

Fixpoint digits_from (acc : Z) (s : str) : option Z :=
  match s with
  | [] => Some acc
  | c :: r =>
      match digit_value c with
      | Some d => digits_from (10 * acc + d)%Z r
      | None => None
      end
  end.

(** A small numeric parser, the fragment of [pd.to_numeric] on unsigned
    decimal integers: it is what the examples below run with. *)
Definition parse_digits (s : str) : option Z :=
  match s with
  | [] => None
  | _ => digits_from 0%Z s
  end.

(** A frame whose text column has six rows: two numbers, one word and
    three nulls. *)
Definition mostly_null : DataFrame Z :=
  mkDF 6 [(lit "A", ObjectCol [Some (lit "1"); Some (lit "2"); Some (lit "x");
                               None; None; None])].

(** A frame whose text column holds an empty string and a blank, and a
    frame with an object column of booleans, as [pd.read_csv] returns
    for a column of true and false with a missing value. *)
Definition blanks : DataFrame Z :=
  mkDF 2 [(lit "NOTE", ObjectCol [Some []; Some (lit " ")])].

Definition flags : DataFrame Z :=
  mkDF 2 [(lit "ACTIVE", BoolObjectCol [Some true; None])].

(** A frame of two rows whose column of digits becomes numeric. *)
Definition two_ids : DataFrame Z :=
  mkDF 2 [(lit "ID", ObjectCol [Some (lit "1"); Some (lit " 2 ")]);
          (lit "NAME", ObjectCol [Some (lit "Alice"); Some (lit "Bob")])].

(** The answer of the classifier on a sample that begins with the
    byte-order mark of UTF-8: the mark decides, whatever follows it. *)
Definition chardet_on_bom (raw : list byte) : result (option str * Q) :=
  if bytes_startswith bom_utf_8 raw then Ok (Some (lit "UTF-8-SIG"), 1%Q)
  else Ok (None, 0%Q).

(** A file of four bytes: the mark, then a byte that no UTF-8 text holds. *)
Definition marked_file (path : str) (n : nat) : result (list byte) :=
  Ok (firstn n [xef; xbb; xbf; xff]).

(** A tab-delimited file of three lines. *)
Definition tsv_lines : list str :=
  [lit "ID" ++ [tab] ++ lit "NAME" ++ [newline];
   lit "1" ++ [tab] ++ lit "Alice" ++ [newline];
   lit "2" ++ [tab] ++ lit "Bob" ++ [newline]].

Definition tsv_open (path : str) (enc : option str) : result (list (result str)) :=
  Ok (map Ok tsv_lines).

(** The fixed-width file of the two lines ['AA   1'] and ['BB   2']. *)
Definition aa_bb_lines : list str :=
  [lit "AA   1" ++ [newline]; lit "BB   2" ++ [newline]].

Definition aa_bb_open (path : str) (enc : option str) : result (list (result str)) :=
  Ok (map Ok aa_bb_lines).

(** A spreadsheet writer without its engine: every write raises. *)
Definition no_engine (df : DataFrame Z) (path : str) (sheet_name : option str)
  : result unit :=
  Raise (OtherError "No module named 'openpyxl'").

(** [os.path.dirname] on a path with forward slashes: what stands before
    the last slash. *)
Fixpoint after_slash (s : str) : str :=
  match s with
  | [] => []
  | c :: r => if char_eqb c 47%N then r else after_slash r
  end.

Definition dirname (path : str) : str := rev (after_slash (rev path)).

(** A CSV writer over a file system in which the listed directories exist
    and can be written to: the write raises when the directory of the path
    is not one of them. *)
Definition to_csv_in (dirs : list str) (df : DataFrame Z) (path : str)
    (enc : option str) : result unit :=
  if existsb (PyStr.eqb (dirname path)) dirs then Ok tt
  else Raise (OtherError "Cannot save file into a non-existent directory").

(** [two_ids] after [clean_data]. *)
Definition two_ids_cleaned : DataFrame Z :=
  mkDF 2 [(lit "ID", NumericCol [Some 1%Z; Some 2%Z]);
          (lit "NAME", ObjectCol [Some (lit "Alice"); Some (lit "Bob")])].

(** The text [Test] between the curly quotes U+201C and U+201D. *)
Definition curly_quoted : str := [8220%N] ++ lit "Test" ++ [8221%N].

(** A frame with the columns ['Item #'] and ['Qty']. *)
Definition item_qty : DataFrame Z :=
  mkDF 1 [(lit "Item #", ObjectCol [Some (lit " bolt ")]);
          (lit "Qty", NumericCol [Some 4%Z])].

(** A frame whose text column holds a NaN and the text ['nan']. *)
Definition nan_texts : DataFrame Z :=
  mkDF 2 [(lit "NOTE", ObjectCol [None; Some (lit "nan")])].

(** A frame whose two column names are rewritten to the same name. *)
Definition colliding : DataFrame Z :=
  mkDF 1 [(lit "a b", ObjectCol [Some (lit "x")]);
          (lit "a_b", ObjectCol [Some (lit "y")])].

(** What stands before the last dot of a path: the root that
    [os.path.splitext] gives for a file name with an extension. *)
Fixpoint after_dot (s : str) : str :=
  match s with
  | [] => []
  | c :: r => if char_eqb c 46%N then r else after_dot r
  end.

Definition before_last_dot (path : str) : str := rev (after_dot (rev path)).

(** A record of a table as a dict, with [dict.get]. *)
Definition dict_record_get (rec : list (str * str)) (field : str)
  : result (option str) :=
  Ok (item_get field rec).

(** The truth value of a text, and [float] on the texts that
    [parse_digits] reads. *)
Definition text_is_true (s : str) : bool :=
  match s with
  | [] => false
  | _ => true
  end.

Definition text_float (s : str) : result Z :=
  match parse_digits s with
  | Some z => Ok z
  | None => Raise (ValueError "could not convert string to float")
  end.

(** A table of three records on whose second one the library raises: a
    numeric field of it holds bytes that are no number. *)
Definition broken_table : list (result (list (str * str))) :=
  [Ok [(lit "ID", lit "1"); (lit "QTY", lit "4")];
   Raise (ValueError "could not convert string to float");
   Ok [(lit "ID", lit "3"); (lit "QTY", lit "9")]].

(** A reader of fixed-width files that adds the widths up, as
    [pd.read_fwf] does, and raises on a width that is [None]. *)
Definition fwf_adding (path : str) (ws : option widths) (names : option (list str))
    (enc : option str) : result (DataFrame Z) :=
  match ws with
  | Some w =>
      if existsb isna w then Raise (OtherError "TypeError") else Ok two_ids
  | None => Ok two_ids
  end.

(** The file system and the two readers on a path where no file is. *)
Definition no_file_bytes (path : str) (n : nat) : result (list byte) :=
  Raise (OtherError "FileNotFoundError").

Definition no_file_open (path : str) (enc : option str) : result (list (result str)) :=
  Raise (OtherError "FileNotFoundError").

Definition csv_missing (path : str) (params : kwargs) : result (DataFrame Z) :=
  Raise (OtherError "FileNotFoundError").

Definition fwf_raises (path : str) (ws : option widths) (names : option (list str))
    (enc : option str) : result (DataFrame Z) :=
  Raise (OtherError "FileNotFoundError").

(** A file whose third line does not decode. *)
Definition two_lines_then_error (path : str) (enc : option str)
  : result (list (result str)) :=
  Ok [Ok (lit "a" ++ [tab] ++ lit "b" ++ [newline]);
      Ok (lit "1" ++ [tab] ++ lit "2" ++ [newline]);
      Raise (OtherError "UnicodeDecodeError")].

(** A codec registry in which latin-1 alone decodes. *)
Definition decode_latin_1_only (enc : str) (raw : list byte) : result str :=
  if PyStr.eqb enc (lit "latin-1") then Ok (latin_1_decode raw)
  else Raise (OtherError "UnicodeDecodeError").

(** The bytes of the two lines [a|b|c] and [1|2|3]. *)
Definition piped_sample : list byte :=
  [x61; x7c; x62; x7c; x63; x0a; x31; x7c; x32; x7c; x33; x0a].

(* ================================================================== *)
(** * Properties of the string operations *)

Section StringFacts.

Lemma char_eqb_eq (a b : char) : char_eqb a b = true <-> a = b.
Proof. apply N.eqb_eq. Qed.

Lemma char_eqb_refl (a : char) : char_eqb a a = true.
Proof. apply N.eqb_refl. Qed.

Lemma str_eqb_eq (a b : str) : PyStr.eqb a b = true <-> a = b.
Proof.
  revert b; induction a as [|x a IH]; intros [|y b]; simpl; split;
    try congruence; try reflexivity.
  - intros H. apply andb_true_iff in H as [H1 H2].
    apply char_eqb_eq in H1. apply IH in H2. congruence.
  - intros H. injection H as -> ->.
    rewrite char_eqb_refl. simpl. apply IH. reflexivity.
Qed.

Lemma str_eqb_refl (a : str) : PyStr.eqb a a = true.
Proof. apply str_eqb_eq. reflexivity. Qed.

Lemma str_eqb_neq (a b : str) : PyStr.eqb a b = false <-> a <> b.
Proof.
  split.
  - intros H E. apply str_eqb_eq in E. congruence.
  - intros H. destruct (PyStr.eqb a b) eqn:E; [|reflexivity].
    apply str_eqb_eq in E. contradiction.
Qed.

Variable p : char -> bool.

Lemma lstrip_by_idem (s : str) : lstrip_by p (lstrip_by p s) = lstrip_by p s.
Proof.
  induction s as [|c r IH]; simpl; [reflexivity|].
  destruct (p c) eqn:E; [exact IH|]. simpl. rewrite E. reflexivity.
Qed.

(** What is left of a stripped string starts with a kept character. *)
Lemma lstrip_by_head (s : str) :
  match lstrip_by p s with
  | [] => True
  | c :: _ => p c = false
  end.
Proof.
  induction s as [|c r IH]; simpl; [exact I|].
  destruct (p c) eqn:E; [exact IH|exact E].
Qed.

Lemma lstrip_by_app_keep (s t : str) (c : char) :
  p c = false -> lstrip_by p (s ++ c :: t) = lstrip_by p s ++ c :: t.
Proof.
  intros Hc. induction s as [|x r IH]; simpl.
  - rewrite Hc. reflexivity.
  - destruct (p x); [exact IH|reflexivity].
Qed.

Lemma rstrip_by_idem (s : str) : rstrip_by p (rstrip_by p s) = rstrip_by p s.
Proof.
  unfold rstrip_by. rewrite rev_involutive, lstrip_by_idem. reflexivity.
Qed.

(** Stripping on the right keeps a kept first character in place. *)
Lemma rstrip_by_cons_keep (c : char) (r : str) :
  p c = false -> rstrip_by p (c :: r) = c :: rstrip_by p r.
Proof.
  intros Hc. unfold rstrip_by. simpl.
  rewrite (lstrip_by_app_keep (rev r) [] c Hc).
  rewrite rev_app_distr. reflexivity.
Qed.

Lemma strip_by_idem (s : str) : strip_by p (strip_by p s) = strip_by p s.
Proof.
  unfold strip_by.
  pose proof (lstrip_by_head s) as H.
  destruct (lstrip_by p s) as [|c r] eqn:E.
  - reflexivity.
  - rewrite (rstrip_by_cons_keep c r H). simpl. rewrite H.
    rewrite <- (rstrip_by_cons_keep c r H). apply rstrip_by_idem.
Qed.

(** A stripped string does not begin with a stripped character. *)
Lemma strip_by_head (s : str) :
  match strip_by p s with
  | [] => True
  | c :: _ => p c = false
  end.
Proof.
  unfold strip_by.
  pose proof (lstrip_by_head s) as H.
  destruct (lstrip_by p s) as [|c r] eqn:E; [exact I|].
  rewrite (rstrip_by_cons_keep c r H). exact H.
Qed.

Lemma lstrip_by_incl (s : str) (c : char) : In c (lstrip_by p s) -> In c s.
Proof.
  induction s as [|x r IH]; simpl; [tauto|].
  destruct (p x); simpl; auto.
Qed.

Lemma strip_by_incl (s : str) (c : char) : In c (strip_by p s) -> In c s.
Proof.
  unfold strip_by, rstrip_by. intros H.
  apply in_rev in H. apply lstrip_by_incl in H. apply in_rev in H.
  apply lstrip_by_incl in H. exact H.
Qed.

End StringFacts.

Section ReplaceFacts.

Variables old new : str.

Lemma replace_from_skip (k : nat) (s : str) :
  replace_from old new k s = replace_from old new 0 (skipn k s).
Proof.
  revert k; induction s as [|c r IH]; intros k.
  - destruct k; reflexivity.
  - destruct k as [|k]; [reflexivity|]. simpl. apply IH.
Qed.

(** A string without an occurrence of [old] is returned as it is. *)
Lemma replace_absent (s : str) :
  contains old s = false -> replace old new s = s.
Proof.
  unfold replace. induction s as [|c r IH]; intros H; [reflexivity|].
  simpl in H. apply orb_false_iff in H as [H1 H2].
  cbn [replace_from]. rewrite H1. f_equal. apply IH, H2.
Qed.

(** At an occurrence, [new] is written and the scan resumes after it. *)
Lemma replace_at_occurrence (s : str) :
  old <> [] -> startswith old s = true ->
  replace old new s = new ++ replace old new (skipn (List.length old) s).
Proof.
  intros Hold H. unfold replace. destruct s as [|c r].
  - destruct old; [contradiction|discriminate].
  - cbn [replace_from]. rewrite H. f_equal.
    rewrite replace_from_skip. destruct old as [|o old']; [contradiction|].
    simpl. rewrite Nat.sub_0_r. reflexivity.
Qed.

(** Before the first occurrence the characters are copied. *)
Lemma replace_before_occurrence (c : char) (r : str) :
  startswith old (c :: r) = false ->
  replace old new (c :: r) = c :: replace old new r.
Proof.
  intros H. unfold replace. cbn [replace_from]. rewrite H. reflexivity.
Qed.

End ReplaceFacts.

Section ExtensionFacts.

(** No occurrence of [".xlsx"] can begin before an occurrence and run into
    it: the dot stands only at its head. *)
Lemma xlsx_no_straddle (a b : str) :
  a <> [] -> startswith xlsx a = false -> startswith xlsx (a ++ xlsx ++ b) = false.
Proof.
  intros Ha H.
  destruct a as [|c1 a]; [contradiction|].
  destruct a as [|c2 a];
    [cbn -[char_eqb] in *; destruct (char_eqb 46%N c1); reflexivity|].
  destruct a as [|c3 a];
    [cbn -[char_eqb] in *;
     destruct (char_eqb 46%N c1), (char_eqb 120%N c2); reflexivity|].
  destruct a as [|c4 a];
    [cbn -[char_eqb] in *;
     destruct (char_eqb 46%N c1), (char_eqb 120%N c2), (char_eqb 108%N c3);
     reflexivity|].
  destruct a as [|c5 a];
    [cbn -[char_eqb] in *;
     destruct (char_eqb 46%N c1), (char_eqb 120%N c2), (char_eqb 108%N c3),
       (char_eqb 115%N c4); reflexivity|].
  cbn -[char_eqb] in *. exact H.
Qed.

(** The first occurrence of [".xlsx"] after a prefix that has none. *)
Lemma replace_xlsx_first (a b : str) :
  contains xlsx a = false ->
  replace xlsx csv (a ++ xlsx ++ b) = a ++ csv ++ replace xlsx csv b.
Proof.
  induction a as [|c r IH]; intros H.
  - simpl app at 1. rewrite replace_at_occurrence.
    + reflexivity.
    + discriminate.
    + reflexivity.
  - simpl in H. apply orb_false_iff in H as [H1 H2].
    change ((c :: r) ++ xlsx ++ b) with (c :: (r ++ xlsx ++ b)).
    rewrite replace_before_occurrence.
    + simpl. f_equal. apply IH, H2.
    + change (c :: r ++ xlsx ++ b) with ((c :: r) ++ xlsx ++ b).
      apply xlsx_no_straddle; [discriminate|exact H1].
Qed.

End ExtensionFacts.

(* ================================================================== *)
(** * Column-name sanitization *)

Section NameFacts.

Lemma is_word_underscore : is_word underscore = true.
Proof. reflexivity. Qed.

Lemma sub_class_words (s : str) :
  Forall (fun c => is_word c = true)
         (sub_class (fun c => negb (is_word c)) underscore s).
Proof.
  induction s as [|c r IH]; simpl; constructor; [|exact IH].
  destruct (is_word c) eqn:E; simpl; [exact E|exact is_word_underscore].
Qed.

Lemma sub_class_fixed (s : str) :
  Forall (fun c => is_word c = true) s ->
  sub_class (fun c => negb (is_word c)) underscore s = s.
Proof.
  induction 1 as [|c r Hc _ IH]; simpl; [reflexivity|].
  rewrite Hc. simpl. f_equal. exact IH.
Qed.

Lemma strip_chars_words (chars s : str) :
  Forall (fun c => is_word c = true) s ->
  Forall (fun c => is_word c = true) (strip_chars chars s).
Proof.
  intros H. apply Forall_forall. intros c Hc.
  apply strip_by_incl in Hc. rewrite Forall_forall in H. auto.
Qed.

Lemma clean_col_words (col : str) :
  Forall (fun c => is_word c = true) (clean_col col).
Proof.
  unfold clean_col.
  pose proof (strip_chars_words [underscore] _ (sub_class_words col)) as H.
  destruct (strip_chars [underscore] _); [|exact H].
  apply Forall_forall. intros c Hc. revert c Hc. apply Forall_forall.
  repeat constructor.
Qed.

Lemma clean_col_nonempty (col : str) : clean_col col <> [].
Proof.
  unfold clean_col.
  destruct (strip_chars [underscore] _); discriminate.
Qed.

Lemma clean_col_unfold (col : str) :
  clean_col col =
  match strip_chars [underscore]
          (sub_class (fun c => negb (is_word c)) underscore col) with
  | [] => lit "Column"
  | c :: r => c :: r
  end.
Proof.
  unfold clean_col. destruct (strip_chars [underscore] _); reflexivity.
Qed.

Lemma clean_col_idem (col : str) : clean_col (clean_col col) = clean_col col.
Proof.
  pose proof (strip_chars_words [underscore] _ (sub_class_words col)) as Hw.
  pose proof (strip_by_idem (among [underscore])
                (sub_class (fun c => negb (is_word c)) underscore col)) as Hs.
  rewrite (clean_col_unfold col).
  unfold strip_chars in *.
  destruct (strip_by (among [underscore])
              (sub_class (fun c => negb (is_word c)) underscore col))
    as [|c r] eqn:E.
  - reflexivity.
  - rewrite clean_col_unfold. rewrite (sub_class_fixed _ Hw).
    unfold strip_chars. rewrite Hs. reflexivity.
Qed.

End NameFacts.

(* ================================================================== *)
(** * Loops over the columns of a frame *)

Section FrameFacts.

Context {num : Type}.

Local Abbreviation Series := (Series num).
Local Abbreviation DataFrame := (DataFrame num).

Lemma occurrences_zero (col : str) (names : list str) :
  occurrences col names = 0 -> forall n, In n names -> PyStr.eqb col n = false.
Proof.
  unfold occurrences. induction names as [|x r IH]; simpl; [tauto|].
  destruct (PyStr.eqb col x) eqn:E; simpl; [discriminate|].
  intros H n [<-|Hn]; auto.
Qed.

Lemma occurrences_in (col : str) (names : list str) :
  In col names -> 1 <= occurrences col names.
Proof.
  unfold occurrences. induction names as [|x r IH]; simpl; [tauto|].
  intros [->|H].
  - rewrite str_eqb_refl. simpl. lia.
  - destruct (PyStr.eqb col x); simpl; auto with arith.
Qed.

Lemma occurrences_NoDup (col : str) (names : list str) :
  NoDup names -> In col names -> occurrences col names = 1.
Proof.
  unfold occurrences. induction 1 as [|x r Hx Hr IH]; simpl; [tauto|].
  intros [->|H].
  - rewrite str_eqb_refl. simpl. f_equal.
    destruct (filter (PyStr.eqb col) r) as [|y l] eqn:E; [reflexivity|].
    exfalso. assert (Hy : In y (filter (PyStr.eqb col) r)) by (rewrite E; left; reflexivity).
    apply filter_In in Hy as [Hy1 Hy2]. apply str_eqb_eq in Hy2. subst. contradiction.
  - destruct (PyStr.eqb col x) eqn:E.
    + apply str_eqb_eq in E. subst. contradiction.
    + auto.
Qed.

Lemma lookup_in (col : str) (cs : list (str * Series)) :
  In col (map fst cs) -> exists s, lookup col cs = Some s.
Proof.
  induction cs as [|[n s] r IH]; simpl; [tauto|].
  intros [->|H].
  - rewrite str_eqb_refl. eauto.
  - destruct (PyStr.eqb col n); eauto.
Qed.

Lemma lookup_some_in (col : str) (cs : list (str * Series)) (s : Series) :
  lookup col cs = Some s -> In col (map fst cs).
Proof.
  induction cs as [|[n s'] r IH]; simpl; [discriminate|].
  destruct (PyStr.eqb col n) eqn:E.
  - apply str_eqb_eq in E. auto.
  - auto.
Qed.

Lemma getitem_ok (df : DataFrame) (col : str) (s : Series) :
  getitem df col = Ok s ->
  lookup col (columns df) = Some s /\ occurrences col (labels df) = 1.
Proof.
  unfold getitem. destruct (lookup col (columns df)); [|discriminate].
  destruct (Nat.eqb _ 1) eqn:E; [|discriminate].
  intros [= ->]. apply Nat.eqb_eq in E. auto.
Qed.

Lemma getitem_unique (df : DataFrame) (col : str) :
  In col (labels df) -> occurrences col (labels df) = 1 ->
  exists s, getitem df col = Ok s /\ lookup col (columns df) = Some s.
Proof.
  intros Hin H. destruct (lookup_in col (columns df) Hin) as [s Hs].
  exists s. unfold getitem. rewrite Hs, H. auto.
Qed.

Lemma getitem_raise (df : DataFrame) (col : str) (e : exn) :
  getitem df col = Raise e -> In col (labels df) ->
  occurrences col (labels df) <> 1.
Proof.
  intros H Hin Hocc. destruct (getitem_unique df col Hin Hocc) as [s [Hs _]].
  congruence.
Qed.

(** With one column of the label, assigning the image of that column is
    applying the function at the label. *)
Lemma setitem_apply_at (g : Series -> Series) (df : DataFrame) (col : str) (s : Series) :
  lookup col (columns df) = Some s -> occurrences col (labels df) = 1 ->
  setitem df col (g s) = apply_at col g df.
Proof.
  unfold setitem, apply_at, labels. intros Hl Ho. f_equal.
  induction (columns df) as [|[n s'] r IH]; [reflexivity|].
  simpl in *. unfold occurrences in *. simpl in Ho.
  destruct (PyStr.eqb col n) eqn:E.
  - injection Hl as ->. f_equal. apply map_ext_in. intros c Hc.
    simpl in Ho. injection Ho as Ho.
    rewrite (occurrences_zero col (map fst r) Ho (fst c)); [reflexivity|].
    apply in_map, Hc.
  - f_equal. apply IH; assumption.
Qed.

Lemma apply_at_id (df : DataFrame) (col : str) : apply_at col (fun s => s) df = df.
Proof.
  unfold apply_at. destruct df as [n cs]. simpl. f_equal.
  rewrite <- (map_id cs) at 2. apply map_ext. intros [a b]. simpl.
  destruct (PyStr.eqb col a); reflexivity.
Qed.

Lemma labels_apply_at (g : Series -> Series) (df : DataFrame) (col : str) :
  labels (apply_at col g df) = labels df.
Proof.
  unfold labels, apply_at. simpl. rewrite map_map. apply map_ext.
  intros c. destruct (PyStr.eqb col (fst c)); reflexivity.
Qed.

Lemma labels_map_series (g : Series -> Series) (df : DataFrame) :
  labels (map_series g df) = labels df.
Proof.
  unfold labels, map_series. simpl. rewrite map_map. reflexivity.
Qed.

(** A pass over labels with an idempotent column function touches each
    named column once. *)
Lemma fold_apply_at (g : Series -> Series) (cols : list str) (df : DataFrame) :
  (forall s, g (g s) = g s) ->
  fold_left (fun d c => apply_at c g d) cols df =
  mkDF (index_len df)
       (map (fun c => if existsb (fun col => PyStr.eqb col (fst c)) cols
                      then (fst c, g (snd c)) else c) (columns df)).
Proof.
  intros Hg. revert df. induction cols as [|col rest IH]; intros df.
  - simpl. destruct df as [n cs]. simpl. f_equal.
    rewrite map_id. reflexivity.
  - simpl. rewrite IH. unfold apply_at. simpl. f_equal.
    rewrite map_map. apply map_ext. intros [n s]. simpl.
    destruct (PyStr.eqb col n) eqn:E; simpl.
    + destruct (existsb _ rest); [rewrite Hg|]; reflexivity.
    + reflexivity.
Qed.

Lemma fold_apply_at_labels (g : Series -> Series) (df : DataFrame) :
  (forall s, g (g s) = g s) ->
  fold_left (fun d c => apply_at c g d) (labels df) df = map_series g df.
Proof.
  intros Hg. rewrite (fold_apply_at g _ _ Hg). unfold map_series. f_equal.
  apply map_ext_in. intros [n s] Hin. simpl.
  assert (H : existsb (fun col => PyStr.eqb col n) (labels df) = true).
  { apply existsb_exists. exists n. split; [|apply str_eqb_refl].
    unfold labels. change n with (fst (n, s)). apply in_map, Hin. }
  rewrite H. reflexivity.
Qed.

End FrameFacts.

(* ================================================================== *)
(** * [clean_data] column by column *)

Section CleanDataFacts.

Context {num : Type}.
Variable to_numeric_str : str -> option num.
Variable one_block : bool.

Local Abbreviation Series := (Series num).
Local Abbreviation DataFrame := (DataFrame num).
Local Abbreviation convert_series := (convert_series to_numeric_str).
Local Abbreviation clean_series := (clean_series to_numeric_str).
Local Abbreviation clean_data := (clean_data to_numeric_str one_block).
Local Abbreviation whole_block := (whole_block one_block).

Lemma strip_cell_idem (v : option str) : strip_cell (strip_cell v) = strip_cell v.
Proof.
  destruct v as [s|]; [|reflexivity]. simpl. f_equal. apply strip_by_idem.
Qed.

Lemma clean_cell_idem (v : option str) : clean_cell (clean_cell v) = clean_cell v.
Proof.
  unfold clean_cell. destruct v as [s|]; [|reflexivity]. simpl.
  destruct (strip s) as [|c r] eqn:E; [reflexivity|].
  simpl. rewrite <- E. unfold strip. rewrite strip_by_idem.
  fold (strip s). rewrite E. reflexivity.
Qed.

(** A cleaned cell is never the empty string. *)
Lemma clean_cell_not_empty (v : option str) : clean_cell v <> Some [].
Proof.
  unfold clean_cell. destruct v as [s|]; [|discriminate]. simpl.
  destruct (strip s); discriminate.
Qed.

Lemma strip_series_idem (s : Series) : strip_series (strip_series s) = strip_series s.
Proof.
  destruct s as [vs|vs|vs]; [| |reflexivity]; simpl; f_equal.
  - rewrite map_map. apply map_ext, strip_cell_idem.
  - rewrite map_map. reflexivity.
Qed.

Lemma holds_bool_strip_series (s : Series) : holds_bool (strip_series s) = false.
Proof. destruct s; reflexivity. Qed.

(** The accessor on a column without a boolean, and on one with. *)
Lemma str_strip_ok (s : Series) :
  holds_bool s = false -> str_strip s = Ok (strip_series s).
Proof.
  destruct s as [vs|vs|vs]; simpl; intros H; try reflexivity.
  apply negb_false_iff in H. rewrite H. reflexivity.
Qed.

Lemma str_strip_raise (s : Series) :
  holds_bool s = true ->
  str_strip s = Raise (AttributeError "Can only use .str accessor with string values!").
Proof.
  destruct s as [vs|vs|vs]; simpl; intros H; try discriminate.
  apply negb_true_iff in H. rewrite H. reflexivity.
Qed.

Lemma downcast_cases (vs : list (option str)) :
  downcast (num := num) vs
  = if negb (Nat.eqb (List.length vs) 0) && forallb isna vs
    then NumericCol (map (fun _ => None) vs)
    else ObjectCol vs.
Proof. destruct vs; reflexivity. Qed.

Lemma convert_series_idem (len : nat) (s : Series) :
  convert_series len (convert_series len s) = convert_series len s.
Proof.
  destruct s as [vs|vs|vs]; try reflexivity. simpl.
  destruct (above_half _ len) eqn:E; [reflexivity|]. simpl. rewrite E. reflexivity.
Qed.

(** A column without a value has no value that parses. *)
Lemma notna_sum_nan {A B : Type} (f : option A -> option B) (vs : list (option A)) :
  f None = None -> forallb isna vs = true -> notna_sum (map f vs) = 0.
Proof.
  intros Hf. unfold notna_sum. induction vs as [|v r IH]; [reflexivity|].
  simpl. destruct v; [discriminate|]. rewrite Hf. exact IH.
Qed.

Lemma has_empty_strip (vs : list (option str)) :
  has_empty (num := num) (ObjectCol (map strip_cell vs)) = false ->
  map clean_cell vs = map strip_cell vs.
Proof.
  simpl. induction vs as [|v r IH]; [reflexivity|]. simpl.
  intros H. apply orb_false_iff in H as [H1 H2]. rewrite (IH H2). f_equal.
  unfold clean_cell. destruct (strip_cell v) as [[|c t]|]; try reflexivity.
  discriminate.
Qed.

(** The three passes on a column of text: it comes back as an all-NaN
    float64 column when nothing is left in it and pandas looks at it
    again, as its numeric parse when that clears the threshold, and as
    text otherwise. *)
Lemma clean_series_object (len : nat) (block : bool) (vs : list (option str)) :
  clean_series len block (ObjectCol vs) =
  let cleaned := map clean_cell vs in
  let parsed := map (to_numeric_cell to_numeric_str) cleaned in
  if (has_empty (num := num) (ObjectCol (map strip_cell vs)) || block)
     && (negb (Nat.eqb (List.length vs) 0) && forallb isna cleaned)
  then NumericCol (map (fun _ => None) vs)
  else if above_half (notna_sum parsed) len
       then NumericCol parsed
       else ObjectCol cleaned.
Proof.
  unfold clean_series. cbn [strip_series replace_empty_series]. cbv zeta.
  assert (H : map nan_if_empty (map strip_cell vs) = map clean_cell vs)
    by (rewrite map_map; reflexivity).
  rewrite H.
  destruct (has_empty (ObjectCol (map strip_cell vs)) || block)%bool; cbn [andb].
  - rewrite downcast_cases, length_map.
    destruct (negb (Nat.eqb (List.length vs) 0) && forallb isna (map clean_cell vs))%bool
      eqn:E.
    + cbn [convert_series]. f_equal. rewrite map_map. reflexivity.
    + reflexivity.
  - reflexivity.
Qed.

(** An object column that holds NaN alone is cleaned alike, whatever
    its cells were to be. *)
Lemma clean_series_bool (len : nat) (block : bool) (vs : list (option bool)) :
  clean_series len block (BoolObjectCol vs)
  = clean_series len block (ObjectCol (map (fun _ => None) vs)).
Proof.
  unfold clean_series. cbn [strip_series]. rewrite map_map. reflexivity.
Qed.

(** What [clean_data] makes of a column holds no boolean and no empty
    string, and a second cleaning leaves it as it is. *)
Lemma clean_series_no_bool (len : nat) (block : bool) (s : Series) :
  holds_bool (clean_series len block s) = false.
Proof.
  destruct s as [vs|vs|vs]; [| |reflexivity].
  - rewrite clean_series_object. cbv zeta.
    destruct (_ && _)%bool; [reflexivity|]. destruct (above_half _ _); reflexivity.
  - rewrite clean_series_bool, clean_series_object. cbv zeta.
    destruct (_ && _)%bool; [reflexivity|]. destruct (above_half _ _); reflexivity.
Qed.

Lemma has_empty_cleaned (vs : list (option str)) :
  has_empty (num := num) (ObjectCol (map strip_cell (map clean_cell vs))) = false.
Proof.
  simpl. induction vs as [|v r IH]; [reflexivity|]. simpl. rewrite IH, orb_false_r.
  pose proof (clean_cell_not_empty v) as Hne. pose proof (clean_cell_idem v) as Hi.
  unfold clean_cell at 1 in Hi.
  destruct (strip_cell (clean_cell v)) as [[|c t]|] eqn:E; try reflexivity.
  simpl in Hi. exfalso. destruct (clean_cell v) as [u|]; [|discriminate E].
  simpl in E. injection E as E. discriminate Hi.
Qed.

Lemma clean_series_settled (len : nat) (block : bool) (s : Series) :
  has_empty (strip_series (clean_series len block s)) = false
  /\ clean_series len false (clean_series len block s) = clean_series len block s.
Proof.
  assert (Hobj : forall vs : list (option str),
             has_empty (strip_series (clean_series len block (ObjectCol vs))) = false
             /\ clean_series len false (clean_series len block (ObjectCol vs))
                = clean_series len block (ObjectCol vs)).
  { intros vs. rewrite clean_series_object. cbv zeta.
    destruct (_ && _)%bool; [split; reflexivity|].
    destruct (above_half _ len) eqn:E; [split; reflexivity|].
    assert (Hc : map clean_cell (map clean_cell vs) = map clean_cell vs).
    { rewrite map_map. apply map_ext, clean_cell_idem. }
    split; [apply has_empty_cleaned|].
    rewrite clean_series_object. cbv zeta.
    rewrite has_empty_cleaned, Hc, E. reflexivity. }
  destruct s as [vs|vs|vs]; [apply Hobj| |split; reflexivity].
  rewrite clean_series_bool. apply Hobj.
Qed.

(** The first loop. *)
Lemma strip_loop_step (df : DataFrame) (col : str) (rest : list str) (s : Series) :
  getitem df col = Ok s -> holds_bool s = false ->
  strip_loop (col :: rest) df = strip_loop rest (apply_at col strip_series df).
Proof.
  intros H Hb. simpl. rewrite H. apply getitem_ok in H as [Hl Ho].
  pose proof (setitem_apply_at strip_series df col s Hl Ho) as Hs.
  destruct s as [vs|vs|vs].
  - rewrite <- Hs. reflexivity.
  - rewrite (str_strip_ok _ Hb), <- Hs. reflexivity.
  - rewrite <- Hs. simpl.
    rewrite (setitem_apply_at (fun s => s) df col (NumericCol vs) Hl Ho).
    rewrite apply_at_id. reflexivity.
Qed.

Lemma strip_loop_bool (df : DataFrame) (col : str) (rest : list str) (s : Series) :
  getitem df col = Ok s -> holds_bool s = true ->
  strip_loop (col :: rest) df
  = Raise (AttributeError "Can only use .str accessor with string values!").
Proof.
  intros H Hb. simpl. rewrite H.
  destruct s as [vs|vs|vs]; try discriminate.
  rewrite (str_strip_raise _ Hb). reflexivity.
Qed.

Lemma lookup_apply_at (g : Series -> Series) (df : DataFrame) (c col : str) :
  lookup col (columns (apply_at c g df))
  = option_map (fun s => if PyStr.eqb c col then g s else s) (lookup col (columns df)).
Proof.
  unfold apply_at. simpl. induction (columns df) as [|[n s] r IH]; [reflexivity|].
  simpl. destruct (PyStr.eqb c n) eqn:Ec; simpl;
    destruct (PyStr.eqb col n) eqn:E; simpl; try exact IH.
  - apply str_eqb_eq in Ec, E. subst. rewrite str_eqb_refl. reflexivity.
  - apply str_eqb_eq in E. subst. rewrite Ec. reflexivity.
Qed.

Lemma without_bools_lookup (df : DataFrame) (col : str) (s : Series) :
  without_bools df -> lookup col (columns df) = Some s -> holds_bool s = false.
Proof.
  unfold without_bools. induction (columns df) as [|[n s'] r IH];
    intros Hw Hl; [discriminate|].
  inversion Hw as [|? ? H1 H2]; subst. simpl in Hl.
  destruct (PyStr.eqb col n); [injection Hl as <-; exact H1|auto].
Qed.

Lemma without_bools_apply_at (g : Series -> Series) (df : DataFrame) (c : str) :
  (forall s, holds_bool s = false -> holds_bool (g s) = false) ->
  without_bools df -> without_bools (apply_at c g df).
Proof.
  unfold without_bools, apply_at. simpl. intros Hg Hw.
  apply Forall_map. eapply Forall_impl; [|exact Hw].
  intros [n s] H. simpl in *. destruct (PyStr.eqb c n); simpl; auto.
Qed.

Lemma strip_loop_unique (cols : list str) (df : DataFrame) :
  incl cols (labels df) -> unique_labels df -> without_bools df ->
  strip_loop cols df = Ok (fold_left (fun d c => apply_at c strip_series d) cols df).
Proof.
  revert df. induction cols as [|col rest IH]; intros df Hin Hu Hw; [reflexivity|].
  assert (Hc : In col (labels df)) by (apply Hin; left; reflexivity).
  destruct (getitem_unique df col Hc (Hu col Hc)) as [s [Hs Hl]].
  rewrite (strip_loop_step df col rest s Hs (without_bools_lookup _ _ _ Hw Hl)).
  simpl. apply IH.
  - rewrite labels_apply_at. intros x Hx. apply Hin. right. exact Hx.
  - unfold unique_labels. rewrite labels_apply_at. exact Hu.
  - apply without_bools_apply_at; [|exact Hw].
    intros s' _. apply holds_bool_strip_series.
Qed.

Lemma strip_loop_ok (cols : list str) (df d : DataFrame) :
  incl cols (labels df) -> strip_loop cols df = Ok d ->
  forall col, In col cols ->
    occurrences col (labels df) = 1
    /\ forall s, lookup col (columns df) = Some s -> holds_bool s = false.
Proof.
  revert df. induction cols as [|c rest IH]; intros df Hin H col Hcol;
    [destruct Hcol|].
  assert (Hc : In c (labels df)) by (apply Hin; left; reflexivity).
  destruct (getitem df c) as [s|e] eqn:E; [|simpl in H; rewrite E in H; discriminate].
  destruct (holds_bool s) eqn:Hb;
    [rewrite (strip_loop_bool df c rest s E Hb) in H; discriminate|].
  rewrite (strip_loop_step df c rest s E Hb) in H.
  pose proof (getitem_ok _ _ _ E) as [Hl Ho].
  assert (Hin' : incl rest (labels (apply_at c strip_series df)))
    by (rewrite labels_apply_at; intros x Hx; apply Hin; right; exact Hx).
  destruct (str_eqb_eq c col) as [_ Heq].
  destruct (PyStr.eqb c col) eqn:Ec.
  - apply str_eqb_eq in Ec. subst col. split; [exact Ho|].
    intros s' Hs'. rewrite Hl in Hs'. injection Hs' as <-. exact Hb.
  - destruct Hcol as [->|Hcol]; [rewrite str_eqb_refl in Ec; discriminate|].
    destruct (IH _ Hin' H col Hcol) as [Hocc Hbool].
    rewrite labels_apply_at in Hocc. split; [exact Hocc|].
    intros s' Hs'. apply Hbool. rewrite lookup_apply_at, Hs', Ec. reflexivity.
Qed.

(** The second loop. *)
Lemma convert_column_unique (df : DataFrame) (col : str) :
  In col (labels df) -> occurrences col (labels df) = 1 ->
  convert_column to_numeric_str df col =
  apply_at col (convert_series (index_len df)) df.
Proof.
  intros Hin Ho. destruct (getitem_unique df col Hin Ho) as [s [Hs Hl]].
  unfold convert_column. rewrite Hs.
  pose proof (setitem_apply_at (convert_series (index_len df)) df col s Hl Ho) as Hset.
  pose proof (setitem_apply_at (fun s => s) df col s Hl Ho) as Hid.
  rewrite apply_at_id in Hid.
  destruct s as [vs|vs|vs]; rewrite <- Hset; simpl.
  - destruct (above_half _ _); [reflexivity|]. symmetry. exact Hid.
  - symmetry. exact Hid.
  - symmetry. exact Hid.
Qed.

Lemma convert_loop_unique (len : nat) (cols : list str) (df : DataFrame) :
  index_len df = len -> incl cols (labels df) -> unique_labels df ->
  convert_loop to_numeric_str cols df =
  fold_left (fun d c => apply_at c (convert_series len) d) cols df.
Proof.
  unfold convert_loop. revert df.
  induction cols as [|col rest IH]; intros df Hlen Hin Hu; [reflexivity|].
  assert (Hc : In col (labels df)) by (apply Hin; left; reflexivity).
  simpl. rewrite (convert_column_unique df col Hc (Hu col Hc)), Hlen.
  apply IH.
  - exact Hlen.
  - rewrite labels_apply_at. intros x Hx. apply Hin. right. exact Hx.
  - unfold unique_labels. rewrite labels_apply_at. exact Hu.
Qed.

Lemma replace_empty_map (df : DataFrame) :
  replace_empty one_block df
  = map_series (replace_empty_series
                  (one_block && existsb (fun c => has_empty (snd c)) (columns df)))
               df.
Proof. reflexivity. Qed.

Lemma map_series_compose (g h : Series -> Series) (df : DataFrame) :
  map_series g (map_series h df) = map_series (fun s => g (h s)) df.
Proof.
  unfold map_series. simpl. rewrite map_map. reflexivity.
Qed.

Lemma replaces_some_map (df : DataFrame) :
  existsb (fun c => has_empty (snd c)) (columns (map_series strip_series df))
  = replaces_some df.
Proof.
  unfold replaces_some, map_series. simpl.
  induction (columns df) as [|c r IH]; [reflexivity|]. simpl. rewrite IH. reflexivity.
Qed.

(** With one column per label and no object column of booleans,
    [clean_data] cleans every column on its own, the length of the index
    and the look of pandas at a whole block apart. *)
Lemma clean_data_unique (df : DataFrame) :
  unique_labels df -> without_bools df ->
  clean_data df = Ok (map_series (clean_series (index_len df) (whole_block df)) df).
Proof.
  intros Hu Hw. unfold clean_data.
  rewrite (strip_loop_unique (labels df) df (incl_refl _) Hu Hw).
  rewrite (fold_apply_at_labels strip_series df strip_series_idem).
  rewrite replace_empty_map, replaces_some_map, map_series_compose.
  set (df2 := map_series _ df).
  assert (Hl : labels df2 = labels df) by apply labels_map_series.
  rewrite (convert_loop_unique (index_len df) (labels df2) df2).
  - rewrite (fold_apply_at_labels _ df2 (convert_series_idem (index_len df))).
    unfold df2. rewrite map_series_compose. reflexivity.
  - reflexivity.
  - apply incl_refl.
  - unfold unique_labels. rewrite Hl. exact Hu.
Qed.

Lemma lookup_some_pair (df : DataFrame) (c : str * Series) :
  In c (columns df) -> occurrences (fst c) (labels df) = 1 ->
  lookup (fst c) (columns df) = Some (snd c).
Proof.
  unfold labels, occurrences. induction (columns df) as [|[n s] r IH];
    intros Hin Ho; [destruct Hin|].
  simpl in *. destruct (PyStr.eqb (fst c) n) eqn:E.
  - destruct Hin as [<-|Hin]; [reflexivity|]. exfalso.
    simpl in Ho. injection Ho as Ho.
    pose proof (occurrences_in (fst c) (map fst r) (in_map fst _ _ Hin)) as Hge.
    unfold occurrences in Hge. lia.
  - destruct Hin as [<-|Hin]; [simpl in E; rewrite str_eqb_refl in E; discriminate|].
    apply IH; assumption.
Qed.

(** [clean_data] returns only on frames with one column per label and
    without an object column of booleans. *)
Lemma clean_data_ok_unique (df d : DataFrame) :
  clean_data df = Ok d -> unique_labels df /\ without_bools df.
Proof.
  unfold clean_data. destruct (strip_loop (labels df) df) as [df1|e] eqn:E;
    [|discriminate].
  intros _.
  pose proof (strip_loop_ok _ df df1 (incl_refl _) E) as H.
  split; [intros col Hcol; apply H, Hcol|].
  apply Forall_forall. intros c Hc.
  assert (Hin : In (fst c) (labels df)) by (apply in_map, Hc).
  destruct (H _ Hin) as [Ho Hb]. apply Hb. apply lookup_some_pair; assumption.
Qed.

Lemma lookup_map_series (g : Series -> Series) (df : DataFrame) (col : str) :
  lookup col (columns (map_series g df)) = option_map g (lookup col (columns df)).
Proof.
  unfold map_series. simpl. induction (columns df) as [|[n s] r IH]; [reflexivity|].
  simpl. destruct (PyStr.eqb col n); [reflexivity|exact IH].
Qed.

End CleanDataFacts.

(* ================================================================== *)
(** * The Data Cleaner's properties *)

Section CleanerClaims.

Context {num : Type}.
Variable to_numeric_str : str -> option num.
Variable one_block : bool.

Local Abbreviation Series := (Series num).
Local Abbreviation DataFrame := (DataFrame num).
Local Abbreviation clean_twice := (clean_twice to_numeric_str one_block).

Lemma well_formed_lookup (df : DataFrame) (col : str) (s : Series) :
  well_formed df -> lookup col (columns df) = Some s -> series_len s = index_len df.
Proof.
  unfold well_formed. intros Hw. induction (columns df) as [|[n s'] r IH];
    [discriminate|].
  simpl. inversion Hw as [|? ? H1 H2]; subst.
  destruct (PyStr.eqb col n); [intros [= <-]; exact H1|auto].
Qed.

Lemma forallb_isna_all {A : Type} (vs : list (option A)) :
  forallb isna vs = true <-> forall v, In v vs -> v = None.
Proof.
  rewrite forallb_forall. split; intros H v Hv.
  - specialize (H v Hv). destruct v; [discriminate|reflexivity].
  - rewrite (H v Hv). reflexivity.
Qed.

Lemma has_empty_in (vs : list (option str)) :
  has_empty (num := num) (ObjectCol vs) = true <-> In (Some []) vs.
Proof.
  simpl. rewrite existsb_exists. split.
  - intros ([[|c r]|] & Hin & H); try discriminate. exact Hin.
  - intros H. exists (Some []). auto.
Qed.

(** C1 (as amended).  Where [clean_data] returns, a text column is
    replaced as a whole by its numeric parse (the values that do not
    parse becoming NaN) exactly when the values that parse are more than
    half of the rows of the frame, the null ones counted among the rows.
    Otherwise no value of it is parsed: a column in which a value is left
    stays text, stripped and with its empty strings turned to NaN; a
    column in which none is left holds NaN alone, as a float64 column
    when one of its cells was an empty string (or when pandas looks again
    at the whole block of object columns), and as text when not. *)
Theorem clean_data_majority_of_rows (df d : DataFrame) (col : str)
    (vs : list (option str)) :
  clean_data to_numeric_str one_block df = Ok d ->
  well_formed df ->
  lookup col (columns df) = Some (ObjectCol vs) ->
  let cleaned := map clean_cell vs in
  let parsed := map (to_numeric_cell to_numeric_str) cleaned in
  (List.length vs < 2 * notna_sum parsed ->
   lookup col (columns d) = Some (NumericCol parsed))
  /\ (2 * notna_sum parsed <= List.length vs ->
      (exists s, In (Some s) cleaned) ->
      lookup col (columns d) = Some (ObjectCol cleaned))
  /\ ((forall v, In v cleaned -> v = None) ->
      (In (Some []) (map strip_cell vs) ->
       lookup col (columns d) = Some (NumericCol (map (fun _ => None) vs)))
      /\ (vs <> [] -> whole_block one_block df = true ->
          lookup col (columns d) = Some (NumericCol (map (fun _ => None) vs)))
      /\ (~ In (Some []) (map strip_cell vs) -> whole_block one_block df = false ->
          lookup col (columns d) = Some (ObjectCol cleaned))).
Proof.
  intros H Hwf Hl cleaned parsed.
  pose proof (clean_data_ok_unique _ _ _ _ H) as [Hu Hw].
  rewrite (clean_data_unique _ _ df Hu Hw) in H. injection H as <-.
  rewrite lookup_map_series, Hl. cbn [option_map].
  rewrite clean_series_object. cbv zeta.
  pose proof (well_formed_lookup df col _ Hwf Hl) as Hlen. simpl in Hlen.
  rewrite <- Hlen. fold cleaned. fold parsed. unfold above_half.
  assert (Hnan : forallb isna cleaned = true -> notna_sum parsed = 0).
  { intros Ha. apply notna_sum_nan; [reflexivity|exact Ha]. }
  assert (Hnil : vs <> [] -> negb (Nat.eqb (List.length vs) 0) = true).
  { intros Hne. destruct vs; [contradiction|reflexivity]. }
  split; [|split].
  - intros Hgt. destruct (forallb isna cleaned) eqn:Ea;
      [rewrite (Hnan eq_refl) in Hgt; lia|].
    rewrite !andb_false_r. apply Nat.ltb_lt in Hgt. rewrite Hgt. reflexivity.
  - intros Hle [s Hs]. destruct (forallb isna cleaned) eqn:Ea.
    + pose proof (proj1 (forallb_isna_all cleaned) Ea) as Ea'.
      discriminate (Ea' _ Hs).
    + rewrite !andb_false_r.
      destruct (Nat.ltb_spec (List.length vs) (2 * notna_sum parsed)); [lia|].
      reflexivity.
  - intros Hall. apply (proj2 (forallb_isna_all cleaned)) in Hall.
    rewrite Hall, andb_true_r.
    rewrite (Hnan Hall).
    replace (List.length vs <? 2 * 0) with false
      by (symmetry; apply Nat.ltb_ge; lia).
    split; [|split].
    + intros Hin. apply has_empty_in in Hin. rewrite Hin.
      rewrite Hnil; [reflexivity|].
      intros ->. simpl in Hin. discriminate.
    + intros Hne Hb. rewrite Hb, orb_true_r, (Hnil Hne). reflexivity.
    + intros Hin Hb. rewrite Hb, orb_false_r.
      destruct (has_empty _) eqn:E; [apply has_empty_in in E; contradiction|].
      reflexivity.
Qed.

(** C7.  [clean_data] is idempotent: applied to its own result it returns
    that result, and where the first application raises so does the
    second. *)
Theorem clean_data_idempotent (df : DataFrame) :
  clean_twice df = clean_data to_numeric_str one_block df.
Proof.
  unfold clean_twice.
  destruct (clean_data to_numeric_str one_block df) as [d|e] eqn:E; [|reflexivity].
  pose proof (clean_data_ok_unique _ _ _ _ E) as [Hu Hw].
  rewrite (clean_data_unique _ _ df Hu Hw) in E. injection E as <-.
  set (d := map_series _ df).
  assert (Hd : replaces_some d = false).
  { destruct (replaces_some d) eqn:Er; [|reflexivity]. exfalso.
    unfold replaces_some in Er. apply existsb_exists in Er as (c & Hc & Hr).
    unfold d, map_series in Hc. simpl in Hc.
    apply in_map_iff in Hc as (c0 & <- & _). simpl in Hr.
    rewrite (proj1 (clean_series_settled _ _ _ _)) in Hr. discriminate. }
  rewrite clean_data_unique.
  - unfold whole_block. rewrite Hd, andb_false_r. unfold d.
    rewrite map_series_compose. simpl index_len. f_equal.
    unfold map_series. simpl. f_equal. apply map_ext. intros [n s]. simpl.
    f_equal. apply clean_series_settled.
  - unfold unique_labels, d. rewrite labels_map_series. exact Hu.
  - unfold without_bools, d, map_series. simpl. apply Forall_map.
    apply Forall_forall. intros c _. apply clean_series_no_bool.
Qed.

End CleanerClaims.

(** C6.  The rewriting of a column name is total and idempotent: the result
    is never empty and holds only letters, digits and underscores (so it
    matches [^[A-Za-z0-9_]+$], as ['Column'] itself does), rewriting a
    rewritten name changes nothing, and ['Item #'] becomes ['Item']. *)
Theorem clean_col_total_idempotent :
  (forall col, matches_name (clean_col col) = true)
  /\ (forall col, clean_col (clean_col col) = clean_col col)
  /\ clean_col (lit "Item #") = lit "Item"
  /\ clean_col (lit "#") = lit "Column".
Proof.
  split; [|split; [|split]].
  - intros col. pose proof (clean_col_nonempty col) as Hn.
    pose proof (clean_col_words col) as Hw.
    unfold matches_name. destruct (clean_col col) as [|c r]; [contradiction|].
    apply forallb_forall. rewrite Forall_forall in Hw. exact Hw.
  - exact clean_col_idem.
  - reflexivity.
  - reflexivity.
Qed.

(** More than half of the non-null values of the column parse, and
    [clean_data] leaves the column as text; a column of an empty string
    and a blank comes back as a float64 column of NaN, not as text; and
    on an object column of booleans [clean_data] raises. *)
Lemma clean_data_non_null_majority_fails :
  majority_of_non_null parse_digits
    (map clean_cell [Some (lit "1"); Some (lit "2"); Some (lit "x"); None; None; None])
  = true
  /\ clean_data parse_digits true mostly_null = Ok mostly_null
  /\ clean_data parse_digits false mostly_null = Ok mostly_null
  /\ clean_data parse_digits false blanks
     = Ok (mkDF 2 [(lit "NOTE", NumericCol [None; None])])
  /\ clean_data parse_digits false flags
     = Raise (AttributeError "Can only use .str accessor with string values!").
Proof. repeat split. Qed.

Lemma clean_data_majority_of_rows_witness :
  lookup (lit "ID") (columns two_ids_cleaned) = Some (NumericCol [Some 1%Z; Some 2%Z]).
Proof.
  refine (proj1 (clean_data_majority_of_rows parse_digits false two_ids
                   two_ids_cleaned (lit "ID") [Some (lit "1"); Some (lit " 2 ")]
                   eq_refl _ eq_refl) _).
  - unfold well_formed, two_ids. simpl. repeat constructor.
  - simpl. lia.
Defined.

(* ================================================================== *)
(** * Delimiter sniffing *)

Section MaxFacts.

Context {A : Type}.
Variable key : A -> nat.

(** [max] returns the first of the largest: what stands before it is
    strictly smaller, what stands after it is not larger. *)
Lemma max_from_first (rest : list A) (best : A) :
  exists l1 l2,
    best :: rest = l1 ++ max_from key best rest :: l2
    /\ Forall (fun x => key x < key (max_from key best rest)) l1
    /\ Forall (fun x => key x <= key (max_from key best rest)) l2
    /\ key best <= key (max_from key best rest).
Proof.
  revert best. induction rest as [|x r IH]; intros best.
  - exists [], []. simpl. repeat split; auto.
  - simpl. destruct (Nat.ltb_spec (key best) (key x)) as [Hlt|Hge].
    + destruct (IH x) as (l1 & l2 & E & H1 & H2 & H3).
      exists (best :: l1), l2. simpl. rewrite <- E.
      repeat split; auto; try lia. constructor; [lia|exact H1].
    + destruct (IH best) as (l1 & l2 & E & H1 & H2 & H3).
      remember (max_from key best r) as m eqn:Em. clear Em IH.
      destruct l1 as [|b l1']; simpl in E; injection E as E1 E2.
      * subst m r. exists [], (x :: l2). simpl.
        repeat split; auto.
      * subst b r. exists (best :: x :: l1'), l2. simpl.
        repeat split; auto.
        inversion H1 as [|? ? Hb Hl]; subst.
        constructor; [exact Hb|]. constructor; [lia|exact Hl].
Qed.

End MaxFacts.

Section DelimiterFacts.

Lemma count_line_tabulate (line : str) (a : char -> nat) :
  count_line line (tabulate a) = tabulate (fun d => a d + PyStr.count d line).
Proof. reflexivity. Qed.

Lemma counts_get_tabulate (a : char -> nat) (d : char) :
  In d delimiters -> counts_get (tabulate a) d = a d.
Proof.
  unfold delimiters. simpl.
  intros [<-|[<-|[<-|[<-|[<-|[]]]]]]; reflexivity.
Qed.

Lemma tabulate_ext (a b : char -> nat) :
  (forall d, a d = b d) -> tabulate a = tabulate b.
Proof. intros H. unfold tabulate. apply map_ext. intros d. rewrite H. reflexivity. Qed.

(** The counting loop on a file whose lines decode, as far as the loop
    reads them: it sums over the first [sample_lines] lines. *)
Lemma count_lines_total (sample_lines : nat) (lines : list str)
    (rest : list (result str)) (i : nat) (a : char -> nat) :
  rest = [] \/ sample_lines - i < List.length lines ->
  count_lines sample_lines i (map Ok lines ++ rest) (tabulate a)
  = Ok (tabulate (fun d => a d + total (sample_lines - i) lines d)).
Proof.
  revert i a. induction lines as [|line lines' IH]; intros i a H.
  - destruct H as [->|H]; [|simpl in H; lia]. simpl. f_equal.
    apply tabulate_ext. intros d. unfold total.
    rewrite firstn_nil. simpl. lia.
  - simpl. destruct (Nat.leb_spec sample_lines i) as [Hle|Hlt].
    + f_equal. apply tabulate_ext. intros d.
      replace (sample_lines - i) with 0 by lia. unfold total. simpl. lia.
    + rewrite count_line_tabulate, IH.
      * f_equal. apply tabulate_ext. intros d.
        replace (sample_lines - i) with (S (sample_lines - S i)) by lia.
        unfold total. simpl. lia.
      * destruct H as [H|H]; [left; exact H|right; simpl in H; lia].
Qed.

End DelimiterFacts.

Section DelimiterClaim.

Context {num : Type}.
Variable open_text : str -> option str -> result (list (result str)).

Lemma pick_first (a : char -> nat) :
  match pick a with
  | Some d =>
      0 < a d
      /\ exists l1 l2,
           delimiters = l1 ++ d :: l2
           /\ Forall (fun x => a x < a d) l1
           /\ Forall (fun x => a x <= a d) l2
  | None => forall d, In d delimiters -> a d = 0
  end.
Proof.
  unfold pick.
  change (map fst (tabulate a)) with delimiters.
  unfold delimiters at 1. unfold py_max.
  destruct (max_from_first (counts_get (tabulate a)) [pipe; comma; semicolon; unit_separator] tab)
    as (l1 & l2 & E & H1 & H2 & _).
  set (best := max_from _ _ _) in *.
  fold delimiters in E.
  assert (Hin : forall x, In x (l1 ++ best :: l2) -> In x delimiters)
    by (intros x Hx; rewrite E; exact Hx).
  assert (Hb : counts_get (tabulate a) best = a best).
  { apply counts_get_tabulate, Hin, in_or_app. right. left. reflexivity. }
  assert (G1 : Forall (fun x => a x < a best) l1).
  { apply Forall_forall. intros x Hx. rewrite Forall_forall in H1.
    specialize (H1 x Hx). rewrite Hb in H1.
    rewrite counts_get_tabulate in H1; [exact H1|].
    apply Hin, in_or_app. left. exact Hx. }
  assert (G2 : Forall (fun x => a x <= a best) l2).
  { apply Forall_forall. intros x Hx. rewrite Forall_forall in H2.
    specialize (H2 x Hx). rewrite Hb in H2.
    rewrite counts_get_tabulate in H2; [exact H2|].
    apply Hin, in_or_app. right. right. exact Hx. }
  rewrite Hb. destruct (Nat.ltb_spec 0 (a best)) as [Hpos|Hzero].
  - split; [exact Hpos|]. exists l1, l2. auto.
  - intros d Hd. rewrite E in Hd. apply in_app_or in Hd as [Hd|[<-|Hd]].
    + rewrite Forall_forall in G1. specialize (G1 d Hd). lia.
    + lia.
    + rewrite Forall_forall in G2. specialize (G2 d Hd). lia.
Qed.

(** The run of [detect_delimiter] on a file that opens and whose lines
    decode as far as the loop fetches them. *)
Lemma detect_delimiter_run (st : @state num) (sample_lines : nat)
    (lines : list str) (rest : list (result str)) :
  open_text (filepath (self st)) (encoding (self st)) = Ok (map Ok lines ++ rest) ->
  rest = [] \/ sample_lines < List.length lines ->
  detect_delimiter open_text sample_lines st
  = (Ok (pick (total sample_lines lines)),
     mkState (self st)
             (log st ++ match pick (total sample_lines lines) with
                        | Some d => [(INFO, LogDetectedDelimiter d)]
                        | None => []
                        end)).
Proof.
  intros Hopen Hrest.
  unfold detect_delimiter, try_except, bind, get_self, call. rewrite Hopen.
  change (map (fun d : char => (d, 0)) delimiters) with (tabulate (fun _ => 0)).
  rewrite (count_lines_total sample_lines lines rest 0 (fun _ => 0))
    by (rewrite Nat.sub_0_r; exact Hrest).
  rewrite (tabulate_ext (fun d => 0 + total (sample_lines - 0) lines d)
             (total sample_lines lines))
    by (intros d; rewrite Nat.sub_0_r; reflexivity).
  fold (pick (total sample_lines lines)). unfold pick.
  destruct (Nat.ltb 0 _); simpl.
  - reflexivity.
  - destruct st as [r l]. simpl. rewrite app_nil_r. reflexivity.
Qed.

(** [detect_delimiter] never raises. *)
Lemma detect_delimiter_returns (st : @state num) (sample_lines : nat) :
  exists d, fst (detect_delimiter open_text sample_lines st) = Ok d.
Proof.
  unfold detect_delimiter, try_except, bind, get_self, call.
  destruct (open_text _ _) as [f|e]; simpl; [|eauto].
  destruct (count_lines _ _ _ _) as [c|e]; simpl; [|eauto].
  destruct (Nat.ltb 0 _); simpl; eauto.
Qed.

(** C3 (as amended).  On a file that opens and whose lines decode as far as the loop
    fetches them, [detect_delimiter] weighs each of the five candidates by
    its occurrences in the first [sample_lines] lines: a candidate whose
    total is positive and above every other total is returned; with all
    totals zero the answer is [None]; and the answer is always the first
    candidate, in the order tab, pipe, comma, semicolon, unit separator,
    among those of the largest total. *)
Theorem detect_delimiter_picks_first_max (st : @state num) (sample_lines : nat)
    (lines : list str) (rest : list (result str)) :
  open_text (filepath (self st)) (encoding (self st)) = Ok (map Ok lines ++ rest) ->
  rest = [] \/ sample_lines < List.length lines ->
  let count d := total sample_lines lines d in
  let answer := fst (detect_delimiter open_text sample_lines st) in
  delimiters = [tab; pipe; comma; semicolon; unit_separator]
  /\ (forall d, In d delimiters -> 0 < count d ->
                (forall d', In d' delimiters -> d' <> d -> count d' < count d) ->
                answer = Ok (Some d))
  /\ ((forall d, In d delimiters -> count d = 0) -> answer = Ok None)
  /\ (forall d, answer = Ok (Some d) ->
                0 < count d
                /\ exists before after,
                     delimiters = before ++ d :: after
                     /\ Forall (fun x => count x < count d) before
                     /\ Forall (fun x => count x <= count d) after)
  /\ (answer = Ok None -> forall d, In d delimiters -> count d = 0).
Proof.
  intros Hopen Hrest count answer.
  assert (Ha : answer = Ok (pick count)).
  { unfold answer. rewrite (detect_delimiter_run st sample_lines lines rest Hopen Hrest).
    reflexivity. }
  pose proof (pick_first count) as Hp.
  split; [reflexivity|]. split; [|split; [|split]].
  - intros d Hd Hpos Hmax. rewrite Ha. destruct (pick count) as [r|].
    + destruct Hp as (Hr & l1 & l2 & E & H1 & H2).
      destruct (N.eq_dec r d) as [->|Hne]; [reflexivity|]. exfalso.
      assert (Hrin : In r delimiters)
        by (rewrite E; apply in_or_app; right; left; reflexivity).
      specialize (Hmax r Hrin Hne).
      rewrite E in Hd. apply in_app_or in Hd as [Hd|[Hd|Hd]].
      * rewrite Forall_forall in H1. specialize (H1 d Hd). lia.
      * congruence.
      * rewrite Forall_forall in H2. specialize (H2 d Hd). lia.
    + specialize (Hp d Hd). lia.
  - intros Hz. rewrite Ha. destruct (pick count) as [r|]; [|reflexivity].
    destruct Hp as (Hr & l1 & l2 & E & _).
    assert (Hrin : In r delimiters)
      by (rewrite E; apply in_or_app; right; left; reflexivity).
    specialize (Hz r Hrin). lia.
  - intros d Hd. rewrite Ha in Hd. injection Hd as Hd. rewrite Hd in Hp. exact Hp.
  - intros Hn. rewrite Ha in Hn. injection Hn as Hn. rewrite Hn in Hp. exact Hp.
Qed.

End DelimiterClaim.

(* ================================================================== *)
(** * Fixed-width sniffing *)

Section WidthFacts.

Lemma boundaries_app (start : nat) (ws : list nat) (w : nat) :
  boundaries start (ws ++ [w]) = boundaries start ws ++ [start + list_sum ws + w].
Proof.
  revert start. induction ws as [|x r IH]; intros start; simpl.
  - f_equal. lia.
  - rewrite IH.
    replace (start + x + list_sum r + w) with (start + (x + list_sum r) + w) by lia.
    reflexivity.
Qed.

(** Every width the loop keeps exceeds one character. *)
Lemma widths_loop_gaps (positions : list nat) (prev : nat) (ws : list nat) :
  Forall (fun w => 1 < w) ws ->
  Forall (fun w => 1 < w) (widths_loop positions prev ws).
Proof.
  revert prev ws. induction positions as [|pos rest IH]; intros prev ws H;
    [exact H|].
  simpl. destruct (Nat.ltb_spec 1 (pos - prev)) as [Hgap|Hgap].
  - apply IH. apply Forall_app. split; [exact H|]. repeat constructor. exact Hgap.
  - apply IH, H.
Qed.

(** Every boundary the loop keeps is one of the positions it was given. *)
Lemma widths_loop_boundaries (all positions : list nat) (prev : nat) (ws : list nat) :
  incl positions all -> list_sum ws = prev ->
  Forall (fun b => In b all) (boundaries 0 ws) ->
  Forall (fun b => In b all) (boundaries 0 (widths_loop positions prev ws)).
Proof.
  revert prev ws. induction positions as [|pos rest IH]; intros prev ws Hin Hsum H;
    [exact H|].
  assert (Hrest : incl rest all) by (intros x Hx; apply Hin; right; exact Hx).
  simpl. destruct (Nat.ltb_spec 1 (pos - prev)) as [Hgap|Hgap].
  - apply IH; [exact Hrest| |].
    + rewrite list_sum_app. simpl. lia.
    + rewrite boundaries_app. apply Forall_app. split; [exact H|].
      repeat constructor. replace (0 + list_sum ws + (pos - prev)) with pos by lia.
      apply Hin. left. reflexivity.
  - apply IH; assumption.
Qed.

(** A position is kept when every line has a space there. *)
Lemma space_positions_in (lines : list str) (pos : nat) :
  In pos (space_positions lines) -> Forall (fun line => space_at pos line = true) lines.
Proof.
  unfold space_positions. intros H. apply filter_In in H as [_ H].
  apply Forall_forall. apply forallb_forall. exact H.
Qed.

(** The reading loop on a file whose lines decode, as far as the loop
    fetches them. *)
Lemma sample_loop_lines (sample_lines : nat) (lines : list str)
    (rest : list (result str)) (i : nat) (acc : list str) :
  rest = [] \/ sample_lines - i < List.length lines ->
  sample_loop sample_lines i (map Ok lines ++ rest) acc
  = Ok (acc ++ map (rstrip_chars [newline]) (firstn (sample_lines - i) lines)).
Proof.
  revert i acc. induction lines as [|line lines' IH]; intros i acc H.
  - destruct H as [->|H]; [|simpl in H; lia]. simpl.
    rewrite firstn_nil. simpl. rewrite app_nil_r. reflexivity.
  - simpl. destruct (Nat.leb_spec sample_lines i) as [Hle|Hlt].
    + replace (sample_lines - i) with 0 by lia. simpl.
      rewrite app_nil_r. reflexivity.
    + rewrite IH.
      * replace (sample_lines - i) with (S (sample_lines - S i)) by lia.
        simpl. rewrite <- app_assoc. reflexivity.
      * destruct H as [H|H]; [left; exact H|right; simpl in H; lia].
Qed.

End WidthFacts.

Section WidthClaim.

Context {num : Type}.
Variable open_text : str -> option str -> result (list (result str)).

(** [_detect_fixed_widths] never raises. *)
Lemma detect_fixed_widths_returns (st : @state num) (sample_lines : nat) :
  exists w, _detect_fixed_widths open_text sample_lines st = (Ok w, st).
Proof.
  unfold _detect_fixed_widths, try_except, bind, get_self, call, ret.
  destruct (open_text _ _) as [f|e]; [|eauto].
  destruct (sample_loop _ _ _ _) as [l|e]; eauto.
Qed.

(** C2 (as amended).  On a file that opens and whose lines decode as far
    as they are fetched, [_detect_fixed_widths] answers from the first
    [sample_lines] lines without their newlines.  Its widths, when it
    gives any, are widths above one character laid between positions at
    which every sampled line has a space, followed by one open-ended
    width.  On the two lines ['AA   1'] and ['BB   2'] the shared spaces
    stand at 2, 3 and 4, the boundaries kept are 2 and 4, and the answer
    is the widths 2, 2 and the open-ended one. *)
Theorem detect_fixed_widths_gaps (st : @state num) (sample_lines : nat)
    (lines : list str) (rest : list (result str)) :
  open_text (filepath (self st)) (encoding (self st)) = Ok (map Ok lines ++ rest) ->
  rest = [] \/ sample_lines < List.length lines ->
  let sampled := map (rstrip_chars [newline]) (firstn sample_lines lines) in
  let answer := fst (_detect_fixed_widths open_text sample_lines st) in
  answer = Ok (widths_of_lines sampled)
  /\ (forall w, answer = Ok (Some w) ->
        exists ws,
          w = map Some ws ++ [None]
          /\ Forall (fun x => 1 < x) ws
          /\ Forall (fun b => Forall (fun line => space_at b line = true) sampled)
                    (boundaries 0 ws))
  /\ (sampled = [lit "AA   1"; lit "BB   2"] ->
      answer = Ok (Some [Some 2; Some 2; None])).
Proof.
  intros Hopen Hrest sampled answer.
  assert (Ha : answer = Ok (widths_of_lines sampled)).
  { unfold answer, _detect_fixed_widths, try_except, bind, get_self, call, ret.
    rewrite Hopen.
    rewrite (sample_loop_lines sample_lines lines rest 0 [])
      by (rewrite Nat.sub_0_r; exact Hrest).
    rewrite Nat.sub_0_r. reflexivity. }
  split; [exact Ha|]. split.
  - intros w Hw. rewrite Ha in Hw. injection Hw as Hw.
    unfold widths_of_lines in Hw.
    destruct sampled as [|l0 ls] eqn:Es; [discriminate|]. rewrite <- Es in *.
    destruct (space_positions sampled) as [|p ps] eqn:Ep; [discriminate|].
    injection Hw as <-. exists (widths_loop (p :: ps) 0 []).
    split; [reflexivity|]. split.
    + apply widths_loop_gaps. constructor.
    + pose proof (widths_loop_boundaries (p :: ps) (p :: ps) 0 []
                    (incl_refl _) eq_refl (Forall_nil _)) as Hb.
      rewrite Forall_forall in Hb. apply Forall_forall. intros b Hin.
      apply space_positions_in. rewrite Ep. apply Hb, Hin.
  - intros E. rewrite Ha, E. reflexivity.
Qed.

End WidthClaim.

(* ================================================================== *)
(** * Encoding sniffing *)

Section EncodingClaim.

Context {num : Type}.
Variable read_bytes : str -> nat -> result (list byte).
Variable chardet_detect : list byte -> result (option str * Q).

Lemma above_threshold_lt (c : Q) : above_threshold c = true <-> (7 # 10 < c)%Q.
Proof.
  unfold above_threshold. rewrite negb_true_iff. split.
  - intros H. apply Qnot_le_lt. intros Hle. apply Qle_bool_iff in Hle. congruence.
  - intros H. destruct (Qle_bool c (7 # 10)) eqn:E; [|reflexivity].
    apply Qle_bool_iff in E. exfalso. exact (Qlt_not_le _ _ H E).
Qed.

Lemma above_threshold_le (c : Q) : above_threshold c = false <-> (c <= 7 # 10)%Q.
Proof.
  unfold above_threshold. rewrite negb_false_iff. apply Qle_bool_iff.
Qed.

Lemma latin_1_roundtrip (bs : list byte) : latin_1_encode (latin_1_decode bs) = Some bs.
Proof.
  unfold latin_1_encode, latin_1_decode.
  induction bs as [|b r IH]; [reflexivity|].
  cbn [map fold_right]. rewrite IH, Byte.of_to_N. reflexivity.
Qed.

(** C8 (as amended).  [detect_encoding] never raises and leaves the reader
    as it was.  It returns the classifier's label exactly when the sample
    was read, the classifier answered, the label is a non-empty string and
    the confidence is above 0.7; it does not try the label on the sample.
    In every other case (a confidence of 0.7 or less, no label, an
    exception of the read or of the classifier) it returns latin-1, which
    decodes every byte sequence, byte for byte. *)
Theorem detect_encoding_threshold (st : @state num) (sample_size : nat) :
  (exists label,
     fst (detect_encoding read_bytes chardet_detect sample_size st) = Ok label
     /\ self (snd (detect_encoding read_bytes chardet_detect sample_size st)) = self st
     /\ match read_bytes (filepath (self st)) sample_size with
        | Raise _ => label = latin_1
        | Ok raw_data =>
            match chardet_detect raw_data with
            | Raise _ => label = latin_1
            | Ok (detected, confidence) =>
                (forall d, detected = Some d -> d <> [] ->
                           (7 # 10 < confidence)%Q -> label = d)
                /\ ((confidence <= 7 # 10)%Q -> label = latin_1)
                /\ (detected = None \/ detected = Some [] -> label = latin_1)
            end
        end)
  /\ (forall bs, latin_1_encode (latin_1_decode bs) = Some bs)
  /\ (forall bs, List.length (latin_1_decode bs) = List.length bs).
Proof.
  split; [|split; [exact latin_1_roundtrip|intros bs; apply length_map]].
  unfold detect_encoding, try_except, bind, get_self, call, logger, ret.
  destruct (read_bytes _ _) as [raw|e]; simpl; [|eauto].
  destruct (chardet_detect raw) as [[detected confidence]|e]; simpl; [|eauto].
  destruct detected as [[|c d]|]; simpl.
  - exists latin_1. repeat split; auto. intros d [= <-] Hd. contradiction.
  - destruct (above_threshold confidence) eqn:E; simpl.
    + exists (c :: d). repeat split.
      * intros d' [= <-]. reflexivity.
      * intros Hle. apply above_threshold_le in Hle. congruence.
      * intros [H|H]; discriminate.
    + exists latin_1. repeat split; auto.
      intros d' _ _ Hlt. apply above_threshold_lt in Hlt. congruence.
  - exists latin_1. repeat split; auto. intros d [=].
Qed.

End EncodingClaim.

(** The classifier's label is returned with a confidence of 1 on a sample
    that the label cannot decode. *)
Lemma detect_encoding_label_not_tried :
  fst (detect_encoding (num := Z) marked_file chardet_on_bom default_sample_size
         (init (lit "legacy.dat") None))
  = Ok (lit "UTF-8-SIG")
  /\ marked_file (lit "legacy.dat") default_sample_size = Ok [xef; xbb; xbf; xff]
  /\ utf_8_sig_decodable [xef; xbb; xbf; xff] = false.
Proof. vm_compute. repeat split. Qed.

(* ================================================================== *)
(** * The order of the readers in [auto_read] *)

Section AutoReadClaim.

Context {num : Type}.
Variable read_bytes : str -> nat -> result (list byte).
Variable chardet_detect : list byte -> result (option str * Q).
Variable open_text : str -> option str -> result (list (result str)).
Variable read_csv : str -> kwargs -> result (DataFrame num).
Variable read_fwf : str -> option widths -> option (list str) -> option str
                    -> result (DataFrame num).

Lemma tried_app (a b : list (level * log_msg)) : tried (a ++ b) = tried a ++ tried b.
Proof. apply flat_map_app. Qed.

Lemma detect_encoding_state (r : @SybaseDatReader num) (n : nat) :
  exists e extra,
    tried extra = []
    /\ forall lg, detect_encoding read_bytes chardet_detect n (mkState r lg)
                  = (Ok e, mkState r (lg ++ extra)).
Proof.
  unfold detect_encoding, try_except, bind, get_self, call, logger, ret. simpl.
  destruct (read_bytes _ _) as [raw|e]; simpl;
    [|eexists _, [_]; split; [|intros lg; reflexivity]; reflexivity].
  destruct (chardet_detect raw) as [[detected confidence]|e]; simpl;
    [|eexists _, [_]; split; [|intros lg; reflexivity]; reflexivity].
  destruct detected as [[|c d]|]; simpl;
    try (eexists _, [_]; split; [|intros lg; reflexivity]; reflexivity).
  destruct (above_threshold confidence); simpl;
    eexists _, [_]; (split; [|intros lg; reflexivity]); reflexivity.
Qed.

Lemma detect_delimiter_state (r : @SybaseDatReader num) (n : nat) :
  exists d extra,
    tried extra = []
    /\ forall lg, detect_delimiter open_text n (mkState r lg)
                  = (Ok d, mkState r (lg ++ extra)).
Proof.
  unfold detect_delimiter, try_except, bind, get_self, call, logger, ret. simpl.
  destruct (open_text _ _) as [f|e]; simpl.
  - destruct (count_lines _ _ _ _) as [c|e]; simpl.
    + destruct (Nat.ltb 0 _); simpl.
      * eexists _, [_]. split; [|intros lg; reflexivity]. reflexivity.
      * exists None, []. split; [reflexivity|]. intros lg.
        rewrite app_nil_r. reflexivity.
    + eexists _, [_]. split; [|intros lg; reflexivity]. reflexivity.
  - eexists _, [_]. split; [|intros lg; reflexivity]. reflexivity.
Qed.

Lemma detect_fixed_widths_state (r : @SybaseDatReader num) (n : nat) :
  exists w, forall lg, _detect_fixed_widths open_text n (mkState r lg)
                       = (Ok w, mkState r lg).
Proof.
  unfold _detect_fixed_widths, try_except, bind, get_self, call, ret. simpl.
  destruct (open_text _ _) as [f|e]; [|eauto].
  destruct (sample_loop _ _ _ _) as [l|e]; eauto.
Qed.

Lemma read_delimited_state (r : @SybaseDatReader num) :
  exists d extra,
    fst (detect_delimiter open_text 10 (mkState r [])) = Ok d
    /\ tried extra = ["read_delimited"%string]
    /\ forall lg,
         read_delimited open_text read_csv None [] (mkState r lg)
         = match read_csv (filepath r) (default_params (delimiter_or_tab d) (encoding r)) with
           | Ok df =>
               (Ok df, mkState (mkReader (filepath r) (encoding r) (Some df)
                                         (Some "delimited"%string))
                               (lg ++ extra))
           | Raise e =>
               (Raise e, mkState r (lg ++ extra ++ [(ERROR, LogDelimitedFailed e)]))
           end.
Proof.
  destruct (detect_delimiter_state r 10) as (d & extra & Ht & Hrun).
  exists d, (extra ++ [(INFO, LogReadingDelimited (delimiter_or_tab d))]).
  split; [rewrite Hrun; reflexivity|].
  split; [rewrite tried_app, Ht; destruct d; reflexivity|].
  intros lg.
  unfold read_delimited, try_except, bind, get_self, set_self, call, logger, ret, raise.
  rewrite Hrun. simpl.
  destruct d as [c|]; simpl;
    destruct (read_csv _ _) as [df|e]; simpl; rewrite <- ?app_assoc; reflexivity.
Qed.

Lemma read_fixed_width_state (r : @SybaseDatReader num) :
  exists ws extra,
    fst (_detect_fixed_widths open_text 100 (mkState r [])) = Ok ws
    /\ tried extra = ["read_fixed_width"%string]
    /\ forall lg,
         read_fixed_width open_text read_fwf None None (mkState r lg)
         = match read_fwf (filepath r) ws None (encoding r) with
           | Ok df =>
               (Ok df, mkState (mkReader (filepath r) (encoding r) (Some df)
                                         (Some "fixed_width"%string))
                               (lg ++ extra))
           | Raise e =>
               (Raise e, mkState r (lg ++ extra ++ [(ERROR, LogFixedWidthFailed e)]))
           end.
Proof.
  destruct (detect_fixed_widths_state r 100) as (ws & Hrun).
  exists ws, [(INFO, LogReadingFixedWidth)].
  split; [rewrite Hrun; reflexivity|].
  split; [reflexivity|].
  intros lg.
  unfold read_fixed_width, try_except, bind, get_self, set_self, call, logger, ret, raise.
  simpl. rewrite Hrun. simpl.
  destruct (read_fwf _ _ _ _) as [df|e]; simpl; rewrite <- ?app_assoc; reflexivity.
Qed.

(** C5.  [auto_read] detects the encoding only when the reader has none
    (and then keeps what [detect_encoding] returns), reads with
    [read_delimited] first, turns to [read_fixed_width] on any exception of
    the first, and raises its own [ValueError] exactly when both raise.
    The two readers fail only through [pd.read_csv] and [pd.read_fwf], so
    the outcome is decided by those two calls, made with the detected
    delimiter (tab by default) and the detected widths. *)
Theorem auto_read_delimited_then_fixed_width (st : @state num) :
  exists enc delimiter ws,
    match encoding (self st) with
    | Some e => enc = e
    | None =>
        fst (detect_encoding read_bytes chardet_detect default_sample_size st) = Ok enc
    end
    /\ fst (detect_delimiter open_text 10 (mkState (with_encoding (self st) enc) []))
       = Ok delimiter
    /\ fst (_detect_fixed_widths open_text 100 (mkState (with_encoding (self st) enc) []))
       = Ok ws
    /\ let out := auto_read read_bytes chardet_detect open_text read_csv read_fwf st in
       encoding (self (snd out)) = Some enc
       /\ match read_csv (filepath (self st))
                         (default_params (delimiter_or_tab delimiter) (Some enc)) with
          | Ok df =>
              fst out = Ok df
              /\ data (self (snd out)) = Some df
              /\ detected_format (self (snd out)) = Some "delimited"%string
              /\ tried (log (snd out)) = tried (log st) ++ ["read_delimited"%string]
          | Raise _ =>
              match read_fwf (filepath (self st)) ws None (Some enc) with
              | Ok df =>
                  fst out = Ok df
                  /\ data (self (snd out)) = Some df
                  /\ detected_format (self (snd out)) = Some "fixed_width"%string
                  /\ tried (log (snd out))
                     = tried (log st) ++ ["read_delimited"%string; "read_fixed_width"%string]
              | Raise _ =>
                  fst out = Raise no_known_format
                  /\ data (self (snd out)) = data (self st)
                  /\ detected_format (self (snd out)) = detected_format (self st)
                  /\ tried (log (snd out))
                     = tried (log st) ++ ["read_delimited"%string; "read_fixed_width"%string]
              end
          end.
Proof.
  destruct st as [r lg].
  assert (Hpre : exists enc extra,
             match encoding r with
             | Some e => enc = e
             | None => fst (detect_encoding read_bytes chardet_detect
                              default_sample_size (mkState r lg)) = Ok enc
             end
             /\ tried extra = []
             /\ auto_read read_bytes chardet_detect open_text read_csv read_fwf
                  (mkState r lg)
                = try_methods
                    [("read_delimited"%string, read_delimited open_text read_csv None []);
                     ("read_fixed_width"%string, read_fixed_width open_text read_fwf None None)]
                    (mkState (with_encoding r enc) (lg ++ extra))).
  { unfold auto_read, bind, get_self, set_self, logger, ret. simpl.
    destruct r as [path [e|] dat fmt]; simpl.
    - exists e, [(INFO, LogAutoDetecting path)]. repeat split.
    - destruct (detect_encoding_state (mkReader path None dat fmt) default_sample_size)
        as (e & extra & Ht & Hrun).
      exists e, ((INFO, LogAutoDetecting path) :: extra).
      split; [rewrite Hrun; reflexivity|]. split; [exact Ht|].
      rewrite Hrun. simpl. rewrite <- app_assoc. reflexivity. }
  destruct Hpre as (enc & extra0 & Henc & Ht0 & Hrun0).
  destruct (read_delimited_state (with_encoding r enc)) as (d & extra1 & Hd & Ht1 & Hrun1).
  destruct (read_fixed_width_state (with_encoding r enc)) as (ws & extra2 & Hw & Ht2 & Hrun2).
  exists enc, d, ws.
  split; [exact Henc|]. split; [exact Hd|]. split; [exact Hw|].
  cbv zeta. rewrite Hrun0.
  unfold try_methods, try_except, bind, logger, raise. rewrite Hrun1.
  simpl filepath. simpl encoding.
  destruct (read_csv _ _) as [df|e1].
  - simpl. repeat split.
    rewrite !tried_app, Ht0, Ht1, app_nil_r. reflexivity.
  - simpl. rewrite Hrun2. simpl filepath. simpl encoding.
    destruct (read_fwf _ _ _ _) as [df|e2]; simpl; repeat split;
      rewrite !tried_app, Ht0, Ht1, ?Ht2; simpl;
      rewrite ?app_nil_r, <- ?app_assoc; reflexivity.
Qed.

End AutoReadClaim.

(* ================================================================== *)
(** * The exporters' fallback *)

Section ExporterClaim.

Context {num : Type}.
Variable to_excel : DataFrame num -> str -> option str -> result unit.
Variable to_csv : DataFrame num -> str -> option str -> result unit.
Variable to_excel_writer : DataFrame num -> str -> str -> result unit.

Local Abbreviation first_attempt := (first_attempt to_excel).
Local Abbreviation dbf_attempt := (dbf_attempt to_excel to_excel_writer).

(** C4 (as amended).  [export_to_excel] goes down three steps: the write
    with the sheet name; when that (or the cleaning before it) raises, the
    write without a sheet name; when that raises too, a CSV in UTF-8 with
    a byte-order mark at the path obtained from the output path by
    replacing [".xlsx"] with [".csv"], whose path it prints.  It returns
    whenever one of the three writes returns, having written that file,
    and it raises exactly when the CSV write raises after both spreadsheet
    writes failed, having written no file.  For an output path that ends
    in [".xlsx"] and holds no other [".xlsx"], the CSV path is the same
    base with [".csv"]. *)
Theorem export_to_excel_three_steps (df : DataFrame num) (output_path sheet_name : str) :
  let cleaned := fst (clean_for_excel df) in
  let csv_path := replace xlsx csv output_path in
  let out := export_to_excel to_excel to_csv df output_path sheet_name in
  match first_attempt df output_path sheet_name with
  | Ok _ => snd out = Ok tt /\ In (WroteExcel output_path (Some sheet_name)) (fst out)
  | Raise _ =>
      match to_excel cleaned output_path None with
      | Ok _ => snd out = Ok tt /\ In (WroteExcel output_path None) (fst out)
      | Raise _ =>
          match to_csv cleaned csv_path (Some utf_8_sig) with
          | Ok _ =>
              snd out = Ok tt
              /\ In (WroteCsv csv_path (Some utf_8_sig)) (fst out)
              /\ In (Printed (MsgSavedCsv csv_path)) (fst out)
          | Raise e => snd out = Raise e /\ Forall only_printed (fst out)
          end
      end
  end
  /\ (forall base, output_path = base ++ xlsx -> contains xlsx base = false ->
                   csv_path = base ++ csv).
Proof.
  intros cleaned csv_path out. split.
  - unfold out, first_attempt, export_to_excel, simpler_export, csv_fallback.
    fold cleaned. fold csv_path.
    destruct (clean_for_excel df) as [df1 [e|]]; simpl in *; subst cleaned.
    + destruct (to_excel df1 output_path None); simpl; [auto 10|].
      fold utf_8_sig.
      destruct (to_csv df1 csv_path (Some utf_8_sig)); simpl.
      * repeat split; auto 10.
      * split; [reflexivity|]. repeat constructor; eexists; reflexivity.
    + destruct (to_excel df1 output_path (Some sheet_name)); simpl; [auto 10|].
      destruct (to_excel df1 output_path None); simpl; [auto 10|].
      fold utf_8_sig.
      destruct (to_csv df1 csv_path (Some utf_8_sig)); simpl.
      * repeat split; auto 10.
      * split; [reflexivity|]. repeat constructor; eexists; reflexivity.
  - intros base -> Hbase. unfold csv_path.
    rewrite <- (app_nil_r xlsx) at 2. rewrite (replace_xlsx_first base [] Hbase).
    reflexivity.
Qed.

(** C10.  The CSV fallback of both exporters writes at the path obtained
    from the output path by replacing each [".xlsx"], from the left, with
    [".csv"]: what stands before the first occurrence is kept, the
    occurrence becomes [".csv"], and the rest is treated alike.  An output
    path without [".xlsx"] is left as it is, so the CSV is written under
    the output path itself. *)
Theorem csv_fallback_path (df : DataFrame num) (output_path sheet_name : str) :
  let cleaned := fst (clean_for_excel df) in
  let csv_path := replace xlsx csv output_path in
  match first_attempt df output_path sheet_name, to_excel cleaned output_path None with
  | Raise _, Raise _ =>
      snd (export_to_excel to_excel to_csv df output_path sheet_name)
      = to_csv cleaned csv_path (Some utf_8_sig)
      /\ In (Printed (MsgSavingCsv csv_path))
            (fst (export_to_excel to_excel to_csv df output_path sheet_name))
      /\ (to_csv cleaned csv_path (Some utf_8_sig) = Ok tt ->
          In (WroteCsv csv_path (Some utf_8_sig))
             (fst (export_to_excel to_excel to_csv df output_path sheet_name)))
  | _, _ => True
  end
  /\ match dbf_attempt df output_path with
     | Raise _ =>
         snd (dbf_save to_excel to_csv to_excel_writer df output_path)
         = to_csv df csv_path None
         /\ (to_csv df csv_path None = Ok tt ->
             In (WroteCsv csv_path None)
                (fst (dbf_save to_excel to_csv to_excel_writer df output_path)))
     | Ok _ => True
     end
  /\ (contains xlsx output_path = false -> csv_path = output_path)
  /\ (forall a b, output_path = a ++ xlsx ++ b -> contains xlsx a = false ->
                  csv_path = a ++ csv ++ replace xlsx csv b).
Proof.
  intros cleaned csv_path. split; [|split; [|split]].
  - unfold first_attempt, export_to_excel, simpler_export, csv_fallback.
    fold cleaned. fold csv_path.
    destruct (clean_for_excel df) as [df1 [e|]]; simpl in *; subst cleaned.
    + destruct (to_excel df1 output_path None); simpl; [exact I|].
      fold utf_8_sig.
      destruct (to_csv df1 csv_path (Some utf_8_sig)) as [[]|e']; simpl;
        repeat split; auto 10. discriminate.
    + destruct (to_excel df1 output_path (Some sheet_name)); simpl; [exact I|].
      destruct (to_excel df1 output_path None); simpl; [exact I|].
      fold utf_8_sig.
      destruct (to_csv df1 csv_path (Some utf_8_sig)) as [[]|e']; simpl;
        repeat split; auto 10. discriminate.
  - unfold dbf_attempt, dbf_save. fold csv_path.
    destruct (Nat.ltb large_frame (index_len df)).
    + destruct (to_excel_writer df output_path default_sheet); [exact I|].
      destruct (to_csv df csv_path None) as [[]|e']; simpl;
        repeat split; auto 10. discriminate.
    + destruct (to_excel df output_path None); [exact I|].
      destruct (to_csv df csv_path None) as [[]|e']; simpl;
        repeat split; auto 10. discriminate.
  - apply replace_absent.
  - intros a b -> Ha. apply replace_xlsx_first, Ha.
Qed.

End ExporterClaim.

(* ================================================================== *)
(** * Per-field errors of the binary table readers *)

Section DictFacts.

Context {V : Type}.

Lemma item_get_set_same (k : str) (v : V) (d : list (str * V)) :
  item_get k (item_set k v d) = Some v.
Proof.
  induction d as [|[k' v'] r IH]; simpl.
  - rewrite str_eqb_refl. reflexivity.
  - destruct (PyStr.eqb k k') eqn:E; simpl; rewrite ?str_eqb_refl, ?E; auto.
Qed.

Lemma item_get_set_other (k k' : str) (v : V) (d : list (str * V)) :
  k <> k' -> item_get k (item_set k' v d) = item_get k d.
Proof.
  intros Hne. induction d as [|[k2 v2] r IH]; simpl.
  - apply str_eqb_neq in Hne. rewrite Hne. reflexivity.
  - destruct (PyStr.eqb k' k2) eqn:E; simpl.
    + apply str_eqb_eq in E. subst k2. apply str_eqb_neq in Hne. rewrite Hne.
      reflexivity.
    + destruct (PyStr.eqb k k2); auto.
Qed.

(** After a run of assignments, a key holds the value assigned to it, as
    long as every assignment to that key gives the same value. *)
Lemma item_get_fold {A : Type} (key : A -> str) (val : A -> V)
    (l : list A) (d : list (str * V)) (k : str) (v : V) :
  (forall b, In b l -> key b = k -> val b = v) ->
  (exists a, In a l /\ key a = k) \/ item_get k d = Some v ->
  item_get k (fold_left (fun d x => item_set (key x) (val x) d) l d) = Some v.
Proof.
  revert d. induction l as [|x r IH]; intros d Hsame H.
  - destruct H as [(a & [] & _)|H]. exact H.
  - simpl. apply IH.
    + intros b Hb. apply Hsame. right. exact Hb.
    + destruct (PyStr.eqb (key x) k) eqn:E.
      * right. apply str_eqb_eq in E. rewrite <- E.
        rewrite item_get_set_same. f_equal. apply Hsame; [left; reflexivity|exact E].
      * apply str_eqb_neq in E. destruct H as [(a & [->|Ha] & Hk)|H].
        -- contradiction.
        -- left. exists a. auto.
        -- right. rewrite item_get_set_other; [exact H|congruence].
Qed.

End DictFacts.

Section DbfFacts.

Context {value : Type}.
Context {record : Type}.
Variable get : record -> str -> result (option value).

Local Abbreviation stored := (stored get).
Local Abbreviation failures := (failures get).
Local Abbreviation all_failures := (all_failures get).
Local Abbreviation record_dict_of := (record_dict_of get).

Lemma append_below (n : nat) (errors : list error_entry) (entry : error_entry) :
  List.length errors <= n ->
  (if Nat.ltb (List.length errors) n then errors ++ [entry] else errors)
  = firstn n (errors ++ [entry]).
Proof.
  intros H.
  destruct (Nat.ltb_spec (List.length errors) n) as [Hlt|Hge].
  - rewrite firstn_all2; [reflexivity|]. rewrite length_app. simpl. lia.
  - rewrite firstn_app. replace (n - List.length errors) with 0 by lia.
    rewrite firstn_O, app_nil_r. rewrite firstn_all2; [reflexivity|lia].
Qed.

Lemma keep_error_firstn (errors : list error_entry) (entry : error_entry) :
  List.length errors <= max_errors ->
  keep_error errors entry = firstn max_errors (errors ++ [entry]).
Proof. apply append_below. Qed.

Lemma firstn_firstn_app {A : Type} (n : nat) (a r : list A) :
  firstn n (firstn n a ++ r) = firstn n (a ++ r).
Proof.
  revert a. induction n as [|n IH]; intros a; [reflexivity|].
  destruct a as [|x a']; simpl; [reflexivity|]. f_equal. apply IH.
Qed.

Lemma fold_keep_error (l errors : list error_entry) :
  List.length errors <= max_errors ->
  fold_left keep_error l errors = firstn max_errors (errors ++ l).
Proof.
  revert errors. induction l as [|x r IH]; intros errors H; cbn [fold_left].
  - rewrite app_nil_r, firstn_all2; [reflexivity|exact H].
  - rewrite IH.
    + rewrite (keep_error_firstn errors x H), firstn_firstn_app.
      rewrite <- app_assoc. reflexivity.
    + rewrite (keep_error_firstn errors x H), length_firstn. lia.
Qed.

Lemma fields_loop_fold (i : nat) (rec : record) (field_names : list str)
    (record_dict : list (str * option value)) (errors : list error_entry) :
  fields_loop get i rec field_names record_dict errors
  = (fold_left (fun d f => item_set f (stored rec f) d) field_names record_dict,
     fold_left keep_error (failures i rec field_names) errors).
Proof.
  revert record_dict errors. induction field_names as [|f r IH];
    intros record_dict errors; [reflexivity|].
  assert (Hs : forall v, get rec f = Ok v -> stored rec f = v)
    by (intros v E; unfold stored; rewrite E; reflexivity).
  assert (Hn : forall e, get rec f = Raise e -> stored rec f = None)
    by (intros e E; unfold stored; rewrite E; reflexivity).
  unfold failures. cbn [fields_loop fold_left flat_map].
  destruct (get rec f) as [v|e] eqn:E; rewrite IH.
  - rewrite (Hs v eq_refl). reflexivity.
  - rewrite (Hn e eq_refl). reflexivity.
Qed.

Lemma records_loop_fold (i : nat) (table : list record) (field_names : list str)
    (records : list (list (str * option value))) (errors : list error_entry) :
  records_loop get i (map Ok table) field_names records errors
  = Ok (records ++ map (record_dict_of field_names) table,
        fold_left keep_error (all_failures i table field_names) errors).
Proof.
  revert i records errors. induction table as [|rec rest IH]; intros i records errors.
  - simpl. rewrite app_nil_r. reflexivity.
  - simpl. rewrite fields_loop_fold. rewrite IH.
    rewrite <- app_assoc, fold_left_app. reflexivity.
Qed.

(** An exception of the iteration ends the loop, whatever was read. *)
Lemma records_loop_raise (i : nat) (table : list record) (e : exn)
    (more : list (result record)) (field_names : list str)
    (records : list (list (str * option value))) (errors : list error_entry) :
  records_loop get i (map Ok table ++ Raise e :: more) field_names records errors
  = Raise e.
Proof.
  revert i records errors. induction table as [|rec rest IH]; intros i records errors.
  - reflexivity.
  - simpl. destruct (fields_loop get i rec field_names [] errors). apply IH.
Qed.

End DbfFacts.

Section DbfClaim.

Context {value : Type}.
Context {record : Type}.
Context {num : Type}.
Variable get : record -> str -> result (option value).
Variable is_true : value -> bool.
Variable py_str : value -> str.
Variable py_float : value -> result num.
Variable zero : num.

(** The loop of [convert_with_field_mapping] on records that the
    iteration yields, and at an exception of the iteration. *)
Lemma convert_loop_records_ok (table : list record) (fields_info : list field_info)
    (records : list (list (str * cell))) :
  convert_loop_records get is_true py_str py_float zero (map Ok table) fields_info records
  = Ok (records
        ++ map (fun rec => convert_record get is_true py_str py_float zero rec fields_info)
               table).
Proof.
  revert records. induction table as [|rec rest IH]; intros records; simpl.
  - rewrite app_nil_r. reflexivity.
  - rewrite IH, <- app_assoc. reflexivity.
Qed.

Lemma convert_loop_records_raise (table : list record) (e : exn)
    (more : list (result record)) (fields_info : list field_info)
    (records : list (list (str * cell))) :
  convert_loop_records get is_true py_str py_float zero
    (map Ok table ++ Raise e :: more) fields_info records
  = Raise e.
Proof.
  revert records. induction table as [|rec rest IH]; intros records; simpl;
    [reflexivity|apply IH].
Qed.


End DbfClaim.

(* ================================================================== *)
(** * The sniffers and the exporter on concrete files *)

Lemma detect_delimiter_picks_first_max_witness :
  fst (detect_delimiter (num := Z) tsv_open 10 (init (lit "data.dat") (Some latin_1)))
  = Ok (Some tab).
Proof.
  destruct (detect_delimiter_picks_first_max (num := Z) tsv_open
              (init (lit "data.dat") (Some latin_1)) 10 tsv_lines []
              eq_refl (or_introl eq_refl))
    as (_ & Hmax & _).
  apply Hmax.
  - left. reflexivity.
  - vm_compute. lia.
  - intros d' [<-|[<-|[<-|[<-|[<-|[]]]]]] Hne;
      try (exfalso; apply Hne; reflexivity); vm_compute; lia.
Defined.

(** A file of two lines with one tab each, whose third line does not
    decode, sampled over two lines: the tab has the only positive total
    of the sampled lines, and the answer is [None], as the loop fetches
    the third line before it tests the bound. *)
Lemma detect_delimiter_discards_counts :
  two_lines_then_error (lit "data.dat") (Some latin_1)
  = Ok (map Ok [lit "a" ++ [tab] ++ lit "b" ++ [newline];
                lit "1" ++ [tab] ++ lit "2" ++ [newline]]
        ++ [Raise (OtherError "UnicodeDecodeError")])
  /\ map (total 2 [lit "a" ++ [tab] ++ lit "b" ++ [newline];
                   lit "1" ++ [tab] ++ lit "2" ++ [newline]])
         [tab; pipe; comma; semicolon; unit_separator]
     = [2; 0; 0; 0; 0]
  /\ fst (detect_delimiter (num := Z) two_lines_then_error 2
            (init (lit "data.dat") (Some latin_1)))
     = Ok None.
Proof. repeat split. Qed.


Lemma detect_fixed_widths_gaps_witness :
  fst (_detect_fixed_widths (num := Z) aa_bb_open 100 (init (lit "stock.dat") (Some latin_1)))
  = Ok (Some [Some 2; Some 2; None]).
Proof.
  destruct (detect_fixed_widths_gaps (num := Z) aa_bb_open
              (init (lit "stock.dat") (Some latin_1)) 100 aa_bb_lines []
              eq_refl (or_introl eq_refl))
    as (_ & _ & H).
  apply H. reflexivity.
Defined.

(** On the two lines the shared spaces stand at 2, 3 and 4 and the answer
    has three widths, a second boundary at position 4 among them: not
    the two of a single boundary at position 2 followed by the
    open-ended column. *)
Lemma detect_fixed_widths_three_columns :
  space_positions [lit "AA   1"; lit "BB   2"] = [2; 3; 4]
  /\ fst (_detect_fixed_widths (num := Z) aa_bb_open 100
            (init (lit "stock.dat") (Some latin_1)))
     = Ok (Some [Some 2; Some 2; None])
  /\ (Some [Some 2; Some 2; None] = Some [Some 2; None] -> False)
  /\ boundaries 0 [2; 2] = [2; 4].
Proof.
  split; [reflexivity|]. split; [reflexivity|]. split; [discriminate|reflexivity].
Qed.

(** Two runs of [export_to_excel] with both spreadsheet writes failing.
    With the output path ['report.xls'] in a writable directory the CSV is
    written at ['report.xls'] itself, not at a path with a text extension.
    With the output path ['out.xlsx/data.xlsx'], whose directory exists
    and is writable, the CSV path is ['out.csv/data.csv'], and the call
    raises. *)
Lemma export_to_excel_substitute_path :
  export_to_excel no_engine (to_csv_in [[]]) two_ids (lit "report.xls") default_sheet
  = ([Printed MsgCleaning; Printed (MsgExporting (lit "report.xls"));
      Printed (MsgExcelError (OtherError "No module named 'openpyxl'"));
      Printed MsgTryingSimpler; Printed (MsgSavingCsv (lit "report.xls"));
      WroteCsv (lit "report.xls") (Some utf_8_sig);
      Printed (MsgSavedCsv (lit "report.xls")); Printed MsgOpenInExcel],
     Ok tt)
  /\ dirname (lit "out.xlsx/data.xlsx") = lit "out.xlsx"
  /\ replace xlsx csv (lit "out.xlsx/data.xlsx") = lit "out.csv/data.csv"
  /\ snd (export_to_excel no_engine (to_csv_in [lit "out.xlsx"]) two_ids
            (lit "out.xlsx/data.xlsx") default_sheet)
     = Raise (OtherError "Cannot save file into a non-existent directory").
Proof. repeat split. Qed.

(* ================================================================== *)
(** * Further properties of [clean_data] *)

Section CleanDataShape.

Context {num : Type}.
Variable to_numeric_str : str -> option num.
Variable one_block : bool.

Local Abbreviation Series := (Series num).
Local Abbreviation DataFrame := (DataFrame num).
Local Abbreviation clean_series := (clean_series to_numeric_str).
Local Abbreviation clean_data := (clean_data to_numeric_str one_block).

Lemma unique_labels_NoDup (names : list str) :
  (forall col, In col names -> occurrences col names = 1) -> NoDup names.
Proof.
  induction names as [|x r IH]; intros H; constructor.
  - intros Hx. pose proof (H x (or_introl eq_refl)) as Hocc.
    unfold occurrences in Hocc. simpl in Hocc. rewrite str_eqb_refl in Hocc.
    simpl in Hocc. pose proof (occurrences_in x r Hx) as Hge.
    unfold occurrences in Hge. lia.
  - apply IH. intros col Hcol.
    pose proof (H col (or_intror Hcol)) as Hocc.
    pose proof (occurrences_in col r Hcol) as Hge.
    unfold occurrences in *. simpl in Hocc.
    destruct (PyStr.eqb col x); simpl in Hocc; lia.
Qed.

Lemma series_len_clean (len : nat) (block : bool) (s : Series) :
  series_len (clean_series len block s) = series_len s.
Proof.
  assert (Hobj : forall vs : list (option str),
             series_len (clean_series len block (ObjectCol vs)) = List.length vs).
  { intros vs. rewrite clean_series_object. cbv zeta.
    destruct (_ && _)%bool; [simpl; apply length_map|].
    destruct (above_half _ len); simpl; rewrite ?length_map; reflexivity. }
  destruct s as [vs|vs|vs]; [apply Hobj| |reflexivity].
  rewrite clean_series_bool, Hobj. apply length_map.
Qed.

Lemma strip_loop_raises_attribute (cols : list str) (df : DataFrame) (e : exn) :
  incl cols (labels df) -> strip_loop cols df = Raise e ->
  exists msg, e = AttributeError msg.
Proof.
  revert df. induction cols as [|c rest IH]; intros df Hin H; [discriminate|].
  assert (Hc : In c (labels df)) by (apply Hin; left; reflexivity).
  destruct (getitem df c) as [s|e'] eqn:E.
  - destruct (holds_bool s) eqn:Hb.
    + rewrite (strip_loop_bool df c rest s E Hb) in H. injection H as <-. eauto.
    + rewrite (strip_loop_step df c rest s E Hb) in H.
      apply (IH (apply_at c strip_series df)); [|exact H].
      rewrite labels_apply_at. intros x Hx. apply Hin. right. exact Hx.
  - simpl in H. rewrite E in H. injection H as <-.
    unfold getitem in E. destruct (lookup_in c (columns df) Hc) as [s Hs].
    rewrite Hs in E. destruct (Nat.eqb _ 1); [discriminate|].
    injection E as <-. eauto.
Qed.

(** With one column per label the first loop raises on a boolean only. *)
Lemma strip_loop_raise_bool (cols : list str) (df : DataFrame) (e : exn) :
  incl cols (labels df) -> unique_labels df -> strip_loop cols df = Raise e ->
  e = AttributeError "Can only use .str accessor with string values!".
Proof.
  revert df. induction cols as [|c rest IH]; intros df Hin Hu H; [discriminate|].
  assert (Hc : In c (labels df)) by (apply Hin; left; reflexivity).
  destruct (getitem_unique df c Hc (Hu c Hc)) as [s [Hs _]].
  destruct (holds_bool s) eqn:Hb.
  - rewrite (strip_loop_bool df c rest s Hs Hb) in H. injection H as <-. reflexivity.
  - rewrite (strip_loop_step df c rest s Hs Hb) in H.
    apply (IH (apply_at c strip_series df)); [| |exact H].
    + rewrite labels_apply_at. intros x Hx. apply Hin. right. exact Hx.
    + unfold unique_labels. rewrite labels_apply_at. exact Hu.
Qed.

(** X1.  [clean_data] never adds, drops, renames or reorders a column and
    never changes the number of rows: the labels and the length of the
    index are those of the input, a frame whose columns are as long as
    its index stays so, and a numeric column comes out as it went in. *)
Theorem clean_data_keeps_shape (df d : DataFrame) :
  clean_data df = Ok d ->
  labels d = labels df
  /\ index_len d = index_len df
  /\ (well_formed df -> well_formed d)
  /\ (forall col vs, lookup col (columns df) = Some (NumericCol vs) ->
                     lookup col (columns d) = Some (NumericCol vs)).
Proof.
  intros H. pose proof (clean_data_ok_unique _ _ _ _ H) as [Hu Hw].
  rewrite (clean_data_unique _ _ df Hu Hw) in H. injection H as <-.
  split; [apply labels_map_series|]. split; [reflexivity|]. split.
  - unfold well_formed, map_series. simpl. intros Hwf.
    apply Forall_map. eapply Forall_impl; [|exact Hwf].
    intros [n s] Hs. simpl in *. rewrite series_len_clean. exact Hs.
  - intros col vs Hl. rewrite lookup_map_series, Hl. reflexivity.
Qed.


(** X3.  In the result of [clean_data] no text cell is the empty string
    and no text cell begins or ends with whitespace. *)
Theorem clean_data_text_cells_trimmed (df d : DataFrame) (col : str)
    (vs : list (option str)) (s : str) :
  clean_data df = Ok d ->
  lookup col (columns d) = Some (ObjectCol vs) ->
  In (Some s) vs ->
  s <> [] /\ strip s = s.
Proof.
  intros H Hl Hin. pose proof (clean_data_ok_unique _ _ _ _ H) as [Hu Hw].
  rewrite (clean_data_unique _ _ df Hu Hw) in H. injection H as <-.
  rewrite lookup_map_series in Hl.
  assert (Hobj : forall vs0 : list (option str),
             clean_series (index_len df) (whole_block one_block df) (ObjectCol vs0)
             = ObjectCol vs -> vs = map clean_cell vs0).
  { intros vs0 E. rewrite clean_series_object in E. cbv zeta in E.
    destruct (_ && _)%bool; [discriminate|].
    destruct (above_half _ _); [discriminate|]. injection E as <-. reflexivity. }
  assert (Hvs : exists vs0 : list (option str), vs = map clean_cell vs0).
  { destruct (lookup col (columns df)) as [[vs0|vs0|vs0]|]; simpl in Hl;
      try discriminate; injection Hl as Hl.
    - exists vs0. apply Hobj, Hl.
    - rewrite clean_series_bool in Hl. eexists. apply Hobj, Hl. }
  destruct Hvs as [vs0 ->].
  apply in_map_iff in Hin as ([t|] & Ht & _); [|discriminate].
  unfold clean_cell in Ht. simpl in Ht.
  destruct (strip t) as [|c r] eqn:E; [discriminate|].
  injection Ht as <-. split; [discriminate|].
  rewrite <- E. unfold strip. apply strip_by_idem.
Qed.

End CleanDataShape.

(* ================================================================== *)
(** * Further properties of [clean_for_excel] *)

Section ReplaceContents.

Variables old new : str.

(** A replaced string holds characters of the string and of [new] only. *)
Lemma replace_from_incl (P : char -> Prop) (k : nat) (s : str) :
  Forall P s -> Forall P new -> Forall P (replace_from old new k s).
Proof.
  intros Hs Hnew. revert k. induction Hs as [|c r Hc Hr IH]; intros k;
    [constructor|].
  cbn [replace_from]. destruct k as [|k]; [|apply IH].
  destruct (startswith old (c :: r)).
  - apply Forall_app. split; [exact Hnew|apply IH].
  - constructor; [exact Hc|apply IH].
Qed.

Lemma replace_incl (P : char -> Prop) (s : str) :
  Forall P s -> Forall P new -> Forall P (replace old new s).
Proof. apply replace_from_incl. Qed.

Lemma startswith_incl (p s : str) : startswith p s = true -> incl p s.
Proof.
  revert s. induction p as [|x p' IH]; intros s H; [intros c []|].
  destruct s as [|y s']; [discriminate|]. simpl in H.
  apply andb_true_iff in H as [H1 H2]. apply char_eqb_eq in H1. subst y.
  intros c [<-|Hc]; [left; reflexivity|right; apply (IH s' H2), Hc].
Qed.

(** A pattern with a character that the string lacks does not occur. *)
Lemma contains_absent_char (c : char) (s : str) :
  In c old -> ~ In c s -> contains old s = false.
Proof.
  intros Hold. induction s as [|x r IH]; intros Hs.
  - destruct old; [destruct Hold|reflexivity].
  - simpl. apply orb_false_iff. split.
    + destruct (startswith old (x :: r)) eqn:E; [|reflexivity].
      exfalso. apply Hs. exact (startswith_incl _ _ E c Hold).
    + apply IH. intros Hc. apply Hs. right. exact Hc.
Qed.

End ReplaceContents.

Section CleanTextFacts.

(** Deleting a character leaves none of it. *)
Lemma replace_delete (c : char) (s : str) : ~ In c (replace [c] [] s).
Proof.
  unfold replace. induction s as [|x r IH]; [intros []|].
  cbn [replace_from startswith]. rewrite andb_true_r.
  destruct (char_eqb c x) eqn:E.
  - exact IH.
  - intros [Hx|Hin]; [|exact (IH Hin)].
    subst x. rewrite char_eqb_refl in E. discriminate.
Qed.

(** Replacing a character by itself changes nothing. *)
Lemma replace_self (c : char) (s : str) : replace [c] [c] s = s.
Proof.
  unfold replace. induction s as [|x r IH]; [reflexivity|].
  cbn [replace_from startswith]. rewrite andb_true_r.
  destruct (char_eqb c x) eqn:E.
  - apply char_eqb_eq in E. subst x. simpl. f_equal. exact IH.
  - f_equal. exact IH.
Qed.

Lemma remove_class_clean (p : char -> bool) (s : str) :
  Forall (fun c => p c = false) (remove_class p s).
Proof.
  unfold remove_class. apply Forall_forall. intros c Hc.
  apply filter_In in Hc as [_ Hc]. apply negb_true_iff. exact Hc.
Qed.

Lemma remove_class_incl (P : char -> Prop) (p : char -> bool) (s : str) :
  Forall P s -> Forall P (remove_class p s).
Proof.
  intros H. apply Forall_forall. intros c Hc.
  apply filter_In in Hc as [Hc _]. rewrite Forall_forall in H. auto.
Qed.

Lemma remove_class_fixed (p : char -> bool) (s : str) :
  Forall (fun c => p c = false) s -> remove_class p s = s.
Proof.
  unfold remove_class. induction 1 as [|c r Hc _ IH]; [reflexivity|].
  simpl. rewrite Hc. simpl. f_equal. exact IH.
Qed.

Lemma strip_incl (P : char -> Prop) (s : str) : Forall P s -> Forall P (strip s).
Proof.
  intros H. apply Forall_forall. intros c Hc.
  apply strip_by_incl in Hc. rewrite Forall_forall in H. auto.
Qed.

(** X4.  What [clean_for_excel] puts in a text cell holds no NUL and no
    control character of the class [[\x01-\x1f\x7f-\x9f]], does not begin
    or end with whitespace and is never the text ['nan']: a NaN cell
    stays NaN, and a cell whose text is ['nan'] becomes NaN. *)
Theorem clean_text_output :
  (forall v s, clean_text v = Some s ->
               Forall printable s /\ strip s = s /\ s <> lit "nan")
  /\ clean_text None = None
  /\ clean_text (Some (lit "nan")) = None.
Proof.
  split; [|split; reflexivity].
  intros v s H. unfold clean_text in H.
  set (s1 := replace [0%N] [] (astype_str v)) in H.
  set (s2 := remove_class is_control s1) in H.
  assert (H2 : Forall printable s2).
  { apply Forall_forall. intros c Hc. split.
    - intros ->. unfold s2, remove_class in Hc. apply filter_In in Hc as [Hc _].
      exact (replace_delete _ _ Hc).
    - pose proof (remove_class_clean is_control s1) as Hr.
      rewrite Forall_forall in Hr. exact (Hr c Hc). }
  match type of H with
  | (if PyStr.eqb (strip ?t) _ then _ else _) = _ =>
      assert (Ht : Forall printable t)
  end.
  { do 6 (apply replace_incl;
          [|repeat (apply Forall_cons; [split; [discriminate|reflexivity]|]);
            apply Forall_nil]).
    exact H2. }
  match type of H with
  | (if PyStr.eqb ?u _ then _ else _) = _ => destruct (PyStr.eqb u (lit "nan")) eqn:E
  end; [discriminate|].
  injection H as <-. split; [apply strip_incl, Ht|]. split.
  - unfold strip. apply strip_by_idem.
  - apply str_eqb_neq, E.
Qed.

(** X5.  A text without NUL, without control characters and without the
    character U+201A, that does not begin or end with whitespace and is
    not ['nan'], goes through the cleaning of cells unchanged; so do the
    curly quotes U+201C and U+201D in it. *)
Theorem clean_text_fixed_point (s : str) :
  Forall (fun c => printable c /\ c <> 8218%N) s ->
  strip s = s ->
  s <> lit "nan" ->
  clean_text (Some s) = Some s.
Proof.
  intros Hs Hstrip Hnan. unfold clean_text, astype_str.
  assert (H0 : ~ In 0%N s).
  { intros H. rewrite Forall_forall in Hs. destruct (Hs _ H) as [[Hz _] _].
    apply Hz. reflexivity. }
  assert (Hnl : ~ In newline s).
  { intros H. rewrite Forall_forall in Hs. destruct (Hs _ H) as [[_ Hc] _].
    discriminate. }
  assert (Hq : ~ In 8218%N s).
  { intros H. rewrite Forall_forall in Hs. destruct (Hs _ H) as [_ Hc].
    apply Hc. reflexivity. }
  rewrite (replace_absent [0%N] [] s)
    by (apply (contains_absent_char _ 0%N); [left; reflexivity|exact H0]).
  rewrite remove_class_fixed
    by (eapply Forall_impl; [|exact Hs]; intros c [[_ Hc] _]; exact Hc).
  rewrite !replace_self.
  rewrite (replace_absent quote_pattern)
    by (apply (contains_absent_char _ newline); [cbn; auto 30|exact Hnl]).
  rewrite (replace_absent en_dash_seq)
    by (apply (contains_absent_char _ 8218%N); [left; reflexivity|exact Hq]).
  rewrite (replace_absent em_dash_seq)
    by (apply (contains_absent_char _ 8218%N); [left; reflexivity|exact Hq]).
  rewrite (replace_absent ellipsis_seq)
    by (apply (contains_absent_char _ 8218%N); [left; reflexivity|exact Hq]).
  rewrite Hstrip.
  apply str_eqb_neq in Hnan. rewrite Hnan. reflexivity.
Qed.

End CleanTextFacts.

Section CleanForExcelFacts.

Context {num : Type}.

Local Abbreviation Series := (Series num).
Local Abbreviation DataFrame := (DataFrame num).

(** A pass over distinct labels touches each named column once. *)
Lemma fold_apply_at_NoDup (g : Series -> Series) (cols : list str) (df : DataFrame) :
  NoDup cols ->
  fold_left (fun d c => apply_at c g d) cols df =
  mkDF (index_len df)
       (map (fun c => if existsb (fun col => PyStr.eqb col (fst c)) cols
                      then (fst c, g (snd c)) else c) (columns df)).
Proof.
  intros Hnd. revert df. induction Hnd as [|col rest Hnot _ IH]; intros df.
  - simpl. destruct df as [n cs]. simpl. f_equal. rewrite map_id. reflexivity.
  - simpl. rewrite IH. unfold apply_at. simpl. f_equal.
    rewrite map_map. apply map_ext. intros [n s]. simpl.
    destruct (PyStr.eqb col n) eqn:E; simpl; [|reflexivity].
    apply str_eqb_eq in E. subst n.
    destruct (existsb (fun c => PyStr.eqb c col) rest) eqn:Ex; [|reflexivity].
    exfalso. apply existsb_exists in Ex as (c & Hc & Hcc).
    apply str_eqb_eq in Hcc. subst c. contradiction.
Qed.

(** The text of a boolean goes through the chain unchanged. *)
Lemma clean_text_bool (v : option bool) : clean_text (bool_text v) = bool_text v.
Proof. destruct v as [[|]|]; reflexivity. Qed.

Lemma isna_bool_text (vs : list (option bool)) :
  forallb isna (map bool_text vs) = forallb isna vs.
Proof.
  induction vs as [|v r IH]; [reflexivity|]. simpl. rewrite IH.
  destruct v; reflexivity.
Qed.

(** The body of the loop does to a column what [clean_text_series] says. *)
Lemma clean_object_series (s : Series) : clean_object s = clean_text_series s.
Proof.
  destruct s as [vs|vs|vs]; [| |reflexivity]; simpl.
  - rewrite downcast_cases, length_map, map_map. reflexivity.
  - assert (H : map clean_text (map bool_text vs) = map bool_text vs).
    { rewrite map_map. apply map_ext, clean_text_bool. }
    rewrite H, downcast_cases, length_map, isna_bool_text, map_map. reflexivity.
Qed.

Lemma clean_cells_loop_step (df : DataFrame) (col : str) (rest : list str) (s : Series) :
  getitem df col = Ok s ->
  clean_cells_loop (col :: rest) df
  = clean_cells_loop rest (apply_at col clean_text_series df).
Proof.
  intros H. simpl. rewrite H. apply getitem_ok in H as [Hl Ho].
  rewrite <- (setitem_apply_at clean_text_series df col s Hl Ho).
  destruct s as [vs|vs|vs]; rewrite <- ?clean_object_series; try reflexivity.
  simpl. rewrite (setitem_apply_at (fun s => s) df col (NumericCol vs) Hl Ho).
  rewrite apply_at_id. reflexivity.
Qed.

Lemma clean_cells_loop_unique (cols : list str) (df : DataFrame) :
  incl cols (labels df) -> unique_labels df ->
  clean_cells_loop cols df
  = (fold_left (fun d c => apply_at c clean_text_series d) cols df, None).
Proof.
  revert df. induction cols as [|col rest IH]; intros df Hin Hu; [reflexivity|].
  assert (Hc : In col (labels df)) by (apply Hin; left; reflexivity).
  destruct (getitem_unique df col Hc (Hu col Hc)) as [s [Hs _]].
  rewrite (clean_cells_loop_step df col rest s Hs). simpl. apply IH.
  - rewrite labels_apply_at. intros x Hx. apply Hin. right. exact Hx.
  - unfold unique_labels. rewrite labels_apply_at. exact Hu.
Qed.

(** The loop ends without an exception only on labels that are unique; the
    exception it raises is the one of the attribute access, and the labels
    are those it began with. *)
Lemma clean_cells_loop_outcome (cols : list str) (df : DataFrame) :
  incl cols (labels df) ->
  labels (fst (clean_cells_loop cols df)) = labels df
  /\ match snd (clean_cells_loop cols df) with
     | None => forall col, In col cols -> occurrences col (labels df) = 1
     | Some e => exists msg, e = AttributeError msg
     end.
Proof.
  revert df. induction cols as [|c rest IH]; intros df Hin.
  - simpl. split; [reflexivity|intros col []].
  - assert (Hc : In c (labels df)) by (apply Hin; left; reflexivity).
    destruct (getitem df c) as [s|e] eqn:E.
    + rewrite (clean_cells_loop_step df c rest s E).
      destruct (IH (apply_at c clean_text_series df)) as [Hl Ho].
      { rewrite labels_apply_at. intros x Hx. apply Hin. right. exact Hx. }
      rewrite labels_apply_at in Hl. split; [exact Hl|].
      destruct (snd (clean_cells_loop rest _)); [exact Ho|].
      intros col [<-|Hcol].
      * apply getitem_ok in E. tauto.
      * rewrite <- (labels_apply_at clean_text_series df c). apply Ho, Hcol.
    + simpl. rewrite E. simpl. split; [reflexivity|].
      unfold getitem in E. destruct (lookup_in c (columns df) Hc) as [s Hs].
      rewrite Hs in E. destruct (Nat.eqb _ 1); [discriminate|].
      injection E as <-. eauto.
Qed.

Lemma labels_rename_columns (df : DataFrame) :
  labels (rename_columns df) = map clean_col (labels df).
Proof. unfold labels, rename_columns. simpl. rewrite !map_map. reflexivity. Qed.

(** On distinct labels the loop cleans every column once and raises
    nothing. *)
Lemma clean_cells_loop_NoDup (df : DataFrame) :
  NoDup (labels df) ->
  clean_cells_loop (labels df) df
  = (mkDF (index_len df)
          (map (fun c => (fst c, clean_text_series (snd c))) (columns df)),
     None).
Proof.
  intros Hnd.
  assert (Hu : unique_labels df).
  { intros col Hcol. apply occurrences_NoDup; assumption. }
  rewrite (clean_cells_loop_unique _ _ (incl_refl _) Hu).
  rewrite fold_apply_at_NoDup by exact Hnd.
  f_equal. f_equal. apply map_ext_in. intros [n s] Hin. simpl.
  assert (H : existsb (fun col => PyStr.eqb col n) (labels df) = true).
  { apply existsb_exists. exists n. split; [|apply str_eqb_refl].
    unfold labels. change n with (fst (n, s)). apply in_map, Hin. }
  rewrite H. reflexivity.
Qed.

(** X6.  When the rewritten column names are all different,
    [clean_for_excel] returns: every column carries its rewritten name,
    in the order of the input, every cell of an object column is cleaned
    on its own (a boolean becomes its text), and the numeric columns and
    the number of rows are as they were.  An object column in which the
    cleaning leaves no value, a column of NaN and ['nan'] say, comes
    back as a float64 column of NaN. *)
Theorem clean_for_excel_distinct_names (df : DataFrame) :
  NoDup (map clean_col (labels df)) ->
  clean_for_excel df
  = (mkDF (index_len df)
          (map (fun c => (clean_col (fst c), clean_text_series (snd c))) (columns df)),
     None).
Proof.
  intros Hnd. unfold clean_for_excel.
  rewrite clean_cells_loop_NoDup by (rewrite labels_rename_columns; exact Hnd).
  unfold rename_columns. simpl. rewrite map_map. reflexivity.
Qed.


End CleanForExcelFacts.

(* ================================================================== *)
(** * Output paths *)

Section PatternFacts.

(** A pattern whose first character does not come again in it. *)
Variable h : char.
Variable t : str.
Hypothesis head_once : ~ In h t.

Variable new : str.

Lemma startswith_refl (p : str) : startswith p p = true.
Proof. induction p as [|x p' IH]; simpl; [reflexivity|]. rewrite char_eqb_refl. exact IH. Qed.

Lemma startswith_app_left (p a r : str) :
  startswith p a = true -> startswith p (a ++ r) = true.
Proof.
  revert a. induction p as [|x p' IH]; intros a H; [reflexivity|].
  destruct a as [|y a']; [discriminate|]. simpl in *.
  apply andb_true_iff in H as [H1 H2]. rewrite H1. simpl. apply IH, H2.
Qed.

Lemma startswith_prefix (p s : str) :
  startswith p s = true -> exists r, s = p ++ r.
Proof.
  revert s. induction p as [|x p' IH]; intros s H; [exists s; reflexivity|].
  destruct s as [|y s']; [discriminate|]. simpl in H.
  apply andb_true_iff in H as [H1 H2]. apply char_eqb_eq in H1. subst y.
  destruct (IH s' H2) as [r ->]. exists r. reflexivity.
Qed.

Lemma startswith_length (p s : str) :
  startswith p s = true -> List.length p <= List.length s.
Proof.
  intros H. destruct (startswith_prefix p s H) as [r ->].
  rewrite length_app. lia.
Qed.

(** A pattern at the head of [a ++ r] lies in [a], or runs out of [a]
    into [r]. *)
Lemma startswith_app_split (p a r : str) :
  startswith p (a ++ r) = true ->
  startswith p a = true \/ exists p2, p = a ++ p2 /\ startswith p2 r = true.
Proof.
  revert p. induction a as [|x a' IH]; intros p H.
  - right. exists p. auto.
  - destruct p as [|y p']; [left; reflexivity|]. simpl in H.
    apply andb_true_iff in H as [H1 H2].
    destruct (IH p' H2) as [Hl|(p2 & -> & Hr)].
    + left. simpl. rewrite H1. exact Hl.
    + right. exists p2. apply char_eqb_eq in H1. subst y. auto.
Qed.

(** No occurrence of the pattern begins before an occurrence and runs
    into it. *)
Lemma no_straddle (a b : str) :
  a <> [] -> startswith (h :: t) a = false ->
  startswith (h :: t) (a ++ (h :: t) ++ b) = false.
Proof.
  intros Ha H. destruct (startswith (h :: t) (a ++ (h :: t) ++ b)) eqn:E;
    [|reflexivity].
  exfalso. destruct (startswith_app_split _ _ _ E) as [Hl|(p2 & Hp & Hr)];
    [congruence|].
  destruct a as [|x a']; [contradiction|]. injection Hp as -> ->.
  destruct p2 as [|y p2'].
  - rewrite app_nil_r in H. rewrite startswith_refl in H. discriminate.
  - simpl in Hr. apply andb_true_iff in Hr as [H1 _].
    apply char_eqb_eq in H1. subst y. apply head_once, in_or_app.
    right. left. reflexivity.
Qed.

(** An occurrence at the very end is replaced like any other: the
    replacement of [a ++ old] is the replacement of [a], then [new]. *)
Lemma replace_from_suffix (k : nat) (a : str) :
  k <= List.length a ->
  replace_from (h :: t) new k (a ++ h :: t)
  = replace_from (h :: t) new k a ++ new.
Proof.
  revert k. induction a as [|c r IH]; intros k Hk.
  - assert (k = 0) by (simpl in Hk; lia). subst k.
    change ([] ++ h :: t) with (h :: t).
    cbn [replace_from]. rewrite startswith_refl.
    rewrite replace_from_skip.
    replace (skipn (List.length (h :: t) - 1) t) with (@nil char).
    + simpl. rewrite app_nil_r. reflexivity.
    + simpl. rewrite Nat.sub_0_r. symmetry. apply skipn_all.
  - change ((c :: r) ++ h :: t) with (c :: (r ++ h :: t)).
    cbn [replace_from]. destruct k as [|k].
    + destruct (startswith (h :: t) (c :: r)) eqn:E.
      * change (c :: r ++ h :: t) with ((c :: r) ++ h :: t).
        rewrite (startswith_app_left _ _ _ E).
        rewrite IH; [rewrite app_assoc; reflexivity|].
        apply startswith_length in E. simpl in E. simpl. lia.
      * change (c :: r ++ h :: t) with ((c :: r) ++ h :: t).
        pose proof (no_straddle (c :: r) [] ltac:(discriminate) E) as Hn.
        rewrite app_nil_r in Hn. rewrite Hn.
        rewrite IH by lia. reflexivity.
    + apply IH. simpl in Hk. lia.
Qed.

Lemma replace_suffix (a : str) :
  replace (h :: t) new (a ++ h :: t) = replace (h :: t) new a ++ new.
Proof. apply replace_from_suffix. lia. Qed.

(** A text after which the pattern cannot begin midway: the join of two
    texts without the pattern has none. *)
Lemma contains_app_absent (a b : str) :
  match b with
  | [] => True
  | hb :: _ => ~ In hb t
  end ->
  contains (h :: t) a = false -> contains (h :: t) b = false ->
  contains (h :: t) (a ++ b) = false.
Proof.
  intros Hb. induction a as [|x a' IH]; intros Ha Hbb; [exact Hbb|].
  cbn [contains] in Ha. apply orb_false_iff in Ha as [Ha1 Ha2].
  change ((x :: a') ++ b) with (x :: (a' ++ b)).
  cbn [contains]. apply orb_false_iff. split; [|apply IH; assumption].
  change (x :: a' ++ b) with ((x :: a') ++ b).
  destruct (startswith (h :: t) ((x :: a') ++ b)) eqn:E; [|reflexivity].
  exfalso. destruct (startswith_app_split _ _ _ E) as [Hl|(p2 & Hp & Hr)];
    [congruence|].
  injection Hp as -> ->.
  destruct p2 as [|y p2'].
  - rewrite app_nil_r in Ha1. rewrite startswith_refl in Ha1. discriminate.
  - destruct b as [|hb b']; [discriminate|]. simpl in Hr.
    apply andb_true_iff in Hr as [H1 _]. apply char_eqb_eq in H1. subst y.
    apply Hb, in_or_app. right. left. reflexivity.
Qed.

End PatternFacts.

Section PathFacts.

Lemma endswith_suffix (p s : str) :
  endswith p s = true -> exists pre, s = pre ++ p.
Proof.
  unfold endswith. intros H. destruct (startswith_prefix _ _ H) as [r Hr].
  exists (rev r). rewrite <- (rev_involutive s), Hr, rev_app_distr, rev_involutive.
  reflexivity.
Qed.

Lemma ensure_xlsx_suffix (change : str) : exists pre, ensure_xlsx change = pre ++ xlsx.
Proof.
  unfold ensure_xlsx. destruct (endswith xlsx change) eqn:E.
  - apply endswith_suffix, E.
  - exists change. reflexivity.
Qed.

Lemma dot_once (ext : str) :
  forallb (fun c => negb (char_eqb 46%N c)) ext = true -> ~ In 46%N ext.
Proof.
  intros H Hin. rewrite forallb_forall in H. specialize (H _ Hin).
  rewrite char_eqb_refl in H. discriminate.
Qed.

Lemma replace_xlsx_suffix (a : str) :
  replace xlsx csv (a ++ xlsx) = replace xlsx csv a ++ csv.
Proof. exact (replace_suffix 46%N (lit "xlsx") (dot_once (lit "xlsx") eq_refl) csv a). Qed.

Lemma replace_dat_suffix (new a : str) :
  replace dat new (a ++ dat) = replace dat new a ++ new.
Proof. exact (replace_suffix 46%N (lit "dat") (dot_once (lit "dat") eq_refl) new a). Qed.

Lemma replace_dbf_suffix (new a : str) :
  replace dbf new (a ++ dbf) = replace dbf new a ++ new.
Proof. exact (replace_suffix 46%N (lit "dbf") (dot_once (lit "dbf") eq_refl) new a). Qed.

(** X8.  The [output_file] of [interactive_mode] always ends in [".xlsx"],
    whatever name is typed, as long as the platform's join ends with its
    last component.  On such a path the CSV fallback of [export_to_excel]
    ends in [".csv"]: it is the rewritten base followed by [".csv"], and
    never the spreadsheet path itself. *)
Theorem interactive_output_ends_in_xlsx
    (splitext_root os_dirname : str -> str) (os_join : str -> str -> str)
    (input_file change : str) :
  (forall a b, exists pre, os_join a b = pre ++ b) ->
  exists base,
    output_file splitext_root os_dirname os_join input_file change = base ++ xlsx
    /\ replace xlsx csv (output_file splitext_root os_dirname os_join input_file change)
       = replace xlsx csv base ++ csv
    /\ replace xlsx csv (output_file splitext_root os_dirname os_join input_file change)
       <> output_file splitext_root os_dirname os_join input_file change.
Proof.
  intros Hjoin.
  assert (Hb : exists base,
             output_file splitext_root os_dirname os_join input_file change
             = base ++ xlsx).
  { unfold output_file. destruct change as [|c r]; [eauto|].
    destruct (ensure_xlsx_suffix (c :: r)) as [pre ->].
    destruct (Hjoin (os_dirname input_file) (pre ++ xlsx)) as [pre' ->].
    exists (pre' ++ pre). rewrite app_assoc. reflexivity. }
  destruct Hb as [base Hb]. exists base. rewrite Hb.
  split; [reflexivity|]. split; [apply replace_xlsx_suffix|].
  rewrite replace_xlsx_suffix. intros H. apply (f_equal (@rev char)) in H.
  rewrite !rev_app_distr in H. discriminate.
Qed.

(** X9.  For an input path without [".dat"], [convert_with_field_mapping]
    exports under the input path itself and [main] looks for the
    extracted CSV there.  Without [".dbf"] either, the default
    [excel_file] of [convert_dbf_properly] is the input path, and if that
    holds no [".xlsx"] every file its save step writes, spreadsheet or
    CSV, is written at the input path. *)
Theorem dbf_names_without_extension {num : Type} (dbf_file : str) :
  contains dat dbf_file = false ->
  mapped_excel_file dbf_file = dbf_file
  /\ extracted_csv dbf_file = dbf_file
  /\ (contains dbf dbf_file = false ->
      default_excel_file dbf_file = dbf_file
      /\ (contains xlsx dbf_file = false ->
          forall to_excel to_csv to_excel_writer (df : DataFrame num) ev,
            In ev (fst (dbf_save to_excel to_csv to_excel_writer df
                          (default_excel_file dbf_file))) ->
            match ev with
            | WroteExcel path _ => path = dbf_file
            | WroteCsv path _ => path = dbf_file
            | Printed _ => True
            end)).
Proof.
  intros Hdat. unfold mapped_excel_file, extracted_csv, default_excel_file.
  rewrite !(replace_absent dat _ dbf_file Hdat).
  split; [reflexivity|]. split; [reflexivity|]. intros Hdbf.
  rewrite (replace_absent dbf _ dbf_file Hdbf). split; [reflexivity|].
  intros Hx to_excel to_csv to_excel_writer df ev. unfold dbf_save.
  rewrite (replace_absent xlsx csv dbf_file Hx).
  destruct (Nat.ltb large_frame (index_len df)).
  - destruct (to_excel_writer df dbf_file default_sheet); simpl.
    + intros [<-|[<-|[<-|[]]]]; auto.
    + destruct (to_csv df dbf_file None); simpl;
        intros H; repeat (destruct H as [<-|H]; [auto|]); destruct H.
  - destruct (to_excel df dbf_file None); simpl.
    + intros [<-|[<-|[<-|[]]]]; auto.
    + destruct (to_csv df dbf_file None); simpl;
        intros H; repeat (destruct H as [<-|H]; [auto|]); destruct H.
Qed.

(** X10.  For an input path that ends in [".dat"] or in [".dbf"] and
    holds neither before that, the default [excel_file] of
    [convert_dbf_properly] is the base with [".xlsx"].  With [".dat"] the
    mapped export and the extracted CSV swap the extension too; with
    [".dbf"] the mapped export keeps the input path. *)
Theorem dbf_names_with_extension (base : str) :
  contains dat base = false ->
  contains dbf base = false ->
  default_excel_file (base ++ dat) = base ++ xlsx
  /\ mapped_excel_file (base ++ dat) = base ++ lit "_mapped.xlsx"
  /\ extracted_csv (base ++ dat) = base ++ lit "_extracted.csv"
  /\ default_excel_file (base ++ dbf) = base ++ xlsx
  /\ mapped_excel_file (base ++ dbf) = base ++ dbf.
Proof.
  intros Hdat Hdbf.
  unfold default_excel_file, mapped_excel_file, extracted_csv.
  rewrite !replace_dat_suffix, !(replace_absent dat _ base Hdat).
  assert (H1 : contains dbf (base ++ xlsx) = false).
  { apply (contains_app_absent 46%N (lit "dbf") (dot_once (lit "dbf") eq_refl)
             base xlsx); [apply dot_once; reflexivity|exact Hdbf|reflexivity]. }
  assert (H2 : contains dat (base ++ dbf) = false).
  { apply (contains_app_absent 46%N (lit "dat") (dot_once (lit "dat") eq_refl)
             base dbf); [apply dot_once; reflexivity|exact Hdat|reflexivity]. }
  rewrite (replace_absent dbf xlsx _ H1).
  rewrite !(replace_absent dat _ _ H2).
  rewrite replace_dbf_suffix, (replace_absent dbf xlsx base Hdbf).
  repeat split.
Qed.

End PathFacts.

(* ================================================================== *)
(** * Further properties of the binary table readers *)

Section DictOrder.

Context {V : Type}.

Lemma keys_item_set_new (k : str) (v : V) (d : list (str * V)) :
  ~ In k (map fst d) -> map fst (item_set k v d) = map fst d ++ [k].
Proof.
  induction d as [|[k' v'] r IH]; intros H; [reflexivity|].
  simpl in *. destruct (PyStr.eqb k k') eqn:E.
  - apply str_eqb_eq in E. subst k'. exfalso. apply H. left. reflexivity.
  - simpl. f_equal. apply IH. intros Hin. apply H. right. exact Hin.
Qed.

(** Assignments to keys that are all new and all different append the
    keys in their order. *)
Lemma keys_fold_item_set {A : Type} (key : A -> str) (val : A -> V)
    (l : list A) (d : list (str * V)) :
  NoDup (map key l) ->
  (forall x, In x l -> ~ In (key x) (map fst d)) ->
  map fst (fold_left (fun d x => item_set (key x) (val x) d) l d)
  = map fst d ++ map key l.
Proof.
  revert d. induction l as [|x r IH]; intros d Hnd Hnew.
  - simpl. rewrite app_nil_r. reflexivity.
  - simpl in *. inversion Hnd as [|? ? Hx Hr]; subst.
    rewrite IH.
    + rewrite keys_item_set_new by (apply Hnew; left; reflexivity).
      rewrite <- app_assoc. reflexivity.
    + exact Hr.
    + intros y Hy. rewrite keys_item_set_new by (apply Hnew; left; reflexivity).
      intros Hin. apply in_app_or in Hin as [Hin|[Heq|[]]].
      * exact (Hnew y (or_intror Hy) Hin).
      * apply Hx. rewrite Heq. apply in_map, Hy.
Qed.

End DictOrder.

Section DbfExtras.

Context {value : Type}.
Context {record : Type}.
Context {num : Type}.
Variable get : record -> str -> result (option value).
Variable is_true : value -> bool.
Variable py_str : value -> str.
Variable py_float : value -> result num.
Variable zero : num.

Local Abbreviation convert_field := (convert_field get is_true py_str py_float zero).
Local Abbreviation convert_record := (convert_record get is_true py_str py_float zero).

(** X11.  In [convert_with_field_mapping] a field comes out as [None] in
    three cases only: its access raised, its value was [None], or it is a
    numeric field (['N'] or ['F']) with a true value that [float] rejects.
    Character, logical, date and other fields with a value never come out
    as [None]. *)
Theorem convert_field_none_iff (rec : record) (fi : field_info) :
  convert_field rec fi = CNone <->
  (exists e, get rec (name fi) = Raise e)
  \/ get rec (name fi) = Ok None
  \/ (exists x e, get rec (name fi) = Ok (Some x)
                  /\ (type fi = lit "N" \/ type fi = lit "F")
                  /\ is_true x = true
                  /\ py_float x = Raise e).
Proof.
  unfold convert_field, convert_value.
  destruct (get rec (name fi)) as [[x|]|e].
  - destruct (PyStr.eqb (type fi) (lit "C")) eqn:EC.
    { apply str_eqb_eq in EC. split; [discriminate|].
      intros [[e H]|[H|(x' & e & _ & [Ht|Ht] & _)]]; try discriminate;
        rewrite EC in Ht; discriminate. }
    destruct (PyStr.eqb (type fi) (lit "N") || PyStr.eqb (type fi) (lit "F")) eqn:EN.
    { destruct (is_true x) eqn:Et.
      - destruct (py_float x) as [f|e] eqn:Ef.
        + split; [discriminate|].
          intros [[e H]|[H|(x' & e & Hx & _ & _ & Hf)]]; try discriminate.
          injection Hx as <-. congruence.
        + split; [|reflexivity]. intros _. right. right. exists x, e.
          apply orb_true_iff in EN as [EN|EN]; apply str_eqb_eq in EN; auto.
      - split; [discriminate|].
        intros [[e H]|[H|(x' & e & Hx & _ & Ht & _)]]; try discriminate.
        injection Hx as <-. congruence. }
    apply orb_false_iff in EN as [EN1 EN2].
    apply str_eqb_neq in EN1. apply str_eqb_neq in EN2.
    destruct (PyStr.eqb (type fi) (lit "L")), (PyStr.eqb (type fi) (lit "D"));
      (split; [discriminate|]);
      intros [[e H]|[H|(x' & e & _ & [Ht|Ht] & _)]]; try discriminate;
      contradiction.
  - split; auto.
  - split; [|reflexivity]. intros _. left. eauto.
Qed.

(** X12.  With field names that are all different, the record dicts of
    [convert_dbf_properly] and the converted records of
    [convert_with_field_mapping] list the fields in the order of the
    table's fields, one entry per field: the frame built from them has
    its columns in that order. *)
Theorem record_keys_in_field_order
    (rec : record) (field_names : list str) (fields_info : list field_info) :
  NoDup field_names ->
  NoDup (map name fields_info) ->
  map fst (record_dict_of get field_names rec) = field_names
  /\ map fst (convert_record rec fields_info) = map name fields_info.
Proof.
  intros H1 H2. split.
  - unfold record_dict_of.
    rewrite (keys_fold_item_set (fun f => f) (stored get rec)).
    + simpl. apply map_id.
    + rewrite map_id. exact H1.
    + intros x _ [].
  - unfold convert_record.
    rewrite (keys_fold_item_set name (convert_field rec)).
    + reflexivity.
    + exact H2.
    + intros x _ [].
Qed.

End DbfExtras.

(* ================================================================== *)
(** * Further properties of the exporters *)

Section ExporterExtras.

Context {num : Type}.
Variable to_excel : DataFrame num -> str -> option str -> result unit.
Variable to_csv : DataFrame num -> str -> option str -> result unit.
Variable to_excel_writer : DataFrame num -> str -> str -> result unit.

Local Abbreviation dbf_attempt := (dbf_attempt to_excel to_excel_writer).

(** X13.  A run of either exporter writes one file and no more when it
    returns, and none when it raises.  The save step of
    [convert_dbf_properly] raises only with the exception of its CSV
    write, after its spreadsheet write raised; a frame above 10000 rows
    goes through the writer route alone, a smaller one never does. *)
Theorem exporters_write_one_file (df : DataFrame num) (output_path sheet_name : str) :
  let out := export_to_excel to_excel to_csv df output_path sheet_name in
  let saved := dbf_save to_excel to_csv to_excel_writer df output_path in
  match snd out with
  | Ok _ => List.length (filter is_write (fst out)) = 1
  | Raise _ => filter is_write (fst out) = []
  end
  /\ match snd saved with
     | Ok _ => List.length (filter is_write (fst saved)) = 1
     | Raise e =>
         filter is_write (fst saved) = []
         /\ to_csv df (replace xlsx csv output_path) None = Raise e
         /\ exists e0, dbf_attempt df output_path = Raise e0
     end
  /\ (large_frame < index_len df ->
      forall to_excel', dbf_save to_excel' to_csv to_excel_writer df output_path = saved)
  /\ (index_len df <= large_frame ->
      forall to_excel_writer', dbf_save to_excel to_csv to_excel_writer' df output_path = saved).
Proof.
  cbv zeta. split; [|split; [|split]].
  - unfold export_to_excel, simpler_export, csv_fallback.
    destruct (clean_for_excel df) as [df1 [e|]].
    + destruct (to_excel df1 output_path None); [reflexivity|].
      destruct (to_csv df1 _ _); reflexivity.
    + destruct (to_excel df1 output_path (Some sheet_name)); [reflexivity|].
      destruct (to_excel df1 output_path None); [reflexivity|].
      destruct (to_csv df1 _ _); reflexivity.
  - unfold dbf_save, dbf_attempt.
    destruct (Nat.ltb large_frame (index_len df)).
    + destruct (to_excel_writer df output_path default_sheet) as [|e0]; [reflexivity|].
      destruct (to_csv df _ None) as [|e]; [reflexivity|]. simpl. eauto.
    + destruct (to_excel df output_path None) as [|e0]; [reflexivity|].
      destruct (to_csv df _ None) as [|e]; [reflexivity|]. simpl. eauto.
  - intros Hbig to_excel'. unfold dbf_save.
    apply Nat.ltb_lt in Hbig. rewrite Hbig. reflexivity.
  - intros Hsmall to_excel_writer'. unfold dbf_save.
    destruct (Nat.ltb_spec large_frame (index_len df)); [lia|]. reflexivity.
Qed.

End ExporterExtras.

(* ================================================================== *)
(** * Further properties of the reader class *)

Section KwargsFacts.

Lemma dict_get_set_same (k : string) (v : arg) (d : kwargs) :
  dict_get k (dict_set k v d) = Some v.
Proof.
  induction d as [|[k' v'] r IH]; simpl.
  - rewrite String.eqb_refl. reflexivity.
  - destruct (String.eqb k k') eqn:E; simpl; rewrite ?String.eqb_refl, ?E; auto.
Qed.

Lemma dict_get_set_other (k k' : string) (v : arg) (d : kwargs) :
  k <> k' -> dict_get k (dict_set k' v d) = dict_get k d.
Proof.
  intros Hne. apply String.eqb_neq in Hne.
  induction d as [|[k2 v2] r IH]; simpl.
  - rewrite Hne. reflexivity.
  - destruct (String.eqb k' k2) eqn:E; simpl.
    + apply String.eqb_eq in E. subst k2. rewrite Hne. reflexivity.
    + destruct (String.eqb k k2); auto.
Qed.

Lemma dict_get_absent (k : string) (d : kwargs) :
  ~ In k (map fst d) -> dict_get k d = None.
Proof.
  induction d as [|[k' v] r IH]; intros H; [reflexivity|].
  simpl in *. destruct (String.eqb k k') eqn:E.
  - apply String.eqb_eq in E. subst k'. exfalso. apply H. left. reflexivity.
  - apply IH. intros Hin. apply H. right. exact Hin.
Qed.

Lemma dict_update_get (d other : kwargs) (k : string) :
  NoDup (map fst other) ->
  dict_get k (dict_update d other)
  = match dict_get k other with
    | Some v => Some v
    | None => dict_get k d
    end.
Proof.
  unfold dict_update. revert d. induction other as [|[k1 v1] rest IH]; intros d Hnd;
    [reflexivity|].
  simpl in *. inversion Hnd as [|? ? Hk Hr]; subst. rewrite (IH _ Hr).
  destruct (String.eqb k k1) eqn:E.
  - apply String.eqb_eq in E. subst k1.
    rewrite (dict_get_absent k rest Hk). apply dict_get_set_same.
  - apply String.eqb_neq in E. rewrite (dict_get_set_other k k1 v1 d E).
    reflexivity.
Qed.

End KwargsFacts.

Section ReaderExtras.

Context {num : Type}.
Variable read_bytes : str -> nat -> result (list byte).
Variable chardet_detect : list byte -> result (option str * Q).
Variable open_text : str -> option str -> result (list (result str)).
Variable read_csv : str -> kwargs -> result (DataFrame num).
Variable read_fwf : str -> option widths -> option (list str) -> option str
                    -> result (DataFrame num).

(** X14.  [read_delimited] raises exactly when [pd.read_csv] raises: it
    re-raises that exception and leaves the reader as it was; when
    [pd.read_csv] returns, it returns that frame and records it with the
    format ['delimited'].  With a delimiter given it does not open the
    file to sniff; without one it reads with the delimiter that
    [detect_delimiter] finds in ten lines, or with a tab.  Of the
    parameters of [pd.read_csv], those the caller names replace the
    defaults and the others keep them. *)
Theorem read_delimited_outcome (delimiter : option str) (kw : kwargs)
    (st : @state num) :
  exists d extra,
    match delimiter with
    | Some d' => d = d' /\ extra = []
    | None => exists c, fst (detect_delimiter open_text 10 st) = Ok c
                        /\ d = delimiter_or_tab c
    end
    /\ read_delimited open_text read_csv delimiter kw st
       = match read_csv (filepath (self st))
                        (dict_update (default_params d (encoding (self st))) kw) with
         | Ok df =>
             (Ok df,
              mkState (mkReader (filepath (self st)) (encoding (self st)) (Some df)
                                (Some "delimited"%string))
                      (log st ++ extra ++ [(INFO, LogReadingDelimited d)]))
         | Raise e =>
             (Raise e,
              mkState (self st)
                      (log st ++ extra ++ [(INFO, LogReadingDelimited d);
                                           (ERROR, LogDelimitedFailed e)]))
         end
    /\ (NoDup (map fst kw) ->
        forall k, dict_get k (dict_update (default_params d (encoding (self st))) kw)
                  = match dict_get k kw with
                    | Some v => Some v
                    | None => dict_get k (default_params d (encoding (self st)))
                    end).
Proof.
  destruct st as [r lg]. destruct delimiter as [d'|].
  - exists d', []. split; [auto|]. split; [|intros H k; apply dict_update_get, H].
    unfold read_delimited, try_except, bind, get_self, set_self, call, logger, ret, raise.
    simpl. destruct (read_csv _ _); simpl; rewrite <- ?app_assoc; reflexivity.
  - destruct (detect_delimiter_state open_text r 10) as (c & extra & _ & Hrun).
    exists (delimiter_or_tab c), extra.
    split; [exists c; rewrite Hrun; auto|].
    split; [|intros H k; apply dict_update_get, H].
    unfold read_delimited, try_except, bind, get_self, set_self, call, logger, ret, raise.
    rewrite Hrun. simpl.
    destruct c as [c|]; simpl; destruct (read_csv _ _); simpl;
      rewrite <- ?app_assoc; reflexivity.
Qed.

(** X15.  [read_fixed_width] raises exactly when [pd.read_fwf] raises: it
    re-raises that exception and leaves the reader as it was; when
    [pd.read_fwf] returns, it returns that frame and records it with the
    format ['fixed_width'].  With widths given it does not open the file
    to sniff; without them it passes what [_detect_fixed_widths] finds in
    a hundred lines, which may be no widths at all. *)
Theorem read_fixed_width_outcome (ws : option widths) (names : option (list str))
    (st : @state num) :
  exists w,
    match ws with
    | Some w' => w = Some w'
    | None => fst (_detect_fixed_widths open_text 100 st) = Ok w
    end
    /\ read_fixed_width open_text read_fwf ws names st
       = match read_fwf (filepath (self st)) w names (encoding (self st)) with
         | Ok df =>
             (Ok df,
              mkState (mkReader (filepath (self st)) (encoding (self st)) (Some df)
                                (Some "fixed_width"%string))
                      (log st ++ [(INFO, LogReadingFixedWidth)]))
         | Raise e =>
             (Raise e,
              mkState (self st)
                      (log st ++ [(INFO, LogReadingFixedWidth);
                                  (ERROR, LogFixedWidthFailed e)]))
         end.
Proof.
  destruct st as [r lg]. destruct ws as [w'|].
  - exists (Some w'). split; [reflexivity|].
    unfold read_fixed_width, try_except, bind, get_self, set_self, call, logger, ret, raise.
    simpl. destruct (read_fwf _ _ _ _); simpl; rewrite <- ?app_assoc; reflexivity.
  - destruct (detect_fixed_widths_state open_text r 100) as (w & Hrun).
    exists w. split; [rewrite Hrun; reflexivity|].
    unfold read_fixed_width, try_except, bind, get_self, set_self, call, logger, ret, raise.
    simpl. rewrite Hrun. simpl.
    destruct (read_fwf _ _ _ _); simpl; rewrite <- ?app_assoc; reflexivity.
Qed.

Lemma count_lines_raise (sample_lines : nat) (lines : list str) (e : exn)
    (rest : list (result str)) (i : nat) (c : counts) :
  i + List.length lines <= sample_lines ->
  count_lines sample_lines i (map Ok lines ++ Raise e :: rest) c = Raise e.
Proof.
  revert i c. induction lines as [|line lines' IH]; intros i c H; [reflexivity|].
  simpl in *. destruct (Nat.leb_spec sample_lines i); [lia|].
  apply IH. lia.
Qed.

(** X16.  [detect_delimiter] answers [None], with a warning in the log,
    when the file cannot be opened and when a line fails to decode among
    those it fetches.  It fetches one line more than it counts, so a line
    that fails to decode right after the sampled ones discards the counts
    of the sampled ones. *)
Theorem detect_delimiter_failure (st : @state num) (sample_lines : nat) (e : exn) :
  open_text (filepath (self st)) (encoding (self st)) = Raise e
  \/ (exists lines rest,
        open_text (filepath (self st)) (encoding (self st))
        = Ok (map Ok lines ++ Raise e :: rest)
        /\ List.length lines <= sample_lines) ->
  detect_delimiter open_text sample_lines st
  = (Ok None, mkState (self st) (log st ++ [(WARNING, LogNoDelimiter e)])).
Proof.
  unfold detect_delimiter, try_except, bind, get_self, call, logger, ret.
  intros [H|(lines & rest & H & Hlen)]; rewrite H; [reflexivity|].
  rewrite count_lines_raise by (simpl; exact Hlen). reflexivity.
Qed.

End ReaderExtras.

(* ================================================================== *)
(** * Further properties of the fixed-width sniffing *)

Section WidthExtras.

Lemma py_max_in {A : Type} (key : A -> nat) (default : A) (l : list A) :
  l <> [] ->
  In (py_max key default l) l
  /\ forall x, In x l -> key x <= key (py_max key default l).
Proof.
  destruct l as [|b r]; [contradiction|]. intros _. unfold py_max.
  destruct (max_from_first key r b) as (l1 & l2 & E & H1 & H2 & _).
  split.
  - rewrite E. apply in_or_app. right. left. reflexivity.
  - intros x Hx. rewrite E in Hx. apply in_app_or in Hx as [Hx|[<-|Hx]].
    + rewrite Forall_forall in H1. specialize (H1 x Hx). lia.
    + lia.
    + rewrite Forall_forall in H2. exact (H2 x Hx).
Qed.

Lemma space_at_length (pos : nat) (line : str) :
  space_at pos line = true -> pos < List.length line.
Proof.
  unfold space_at. intros H. apply andb_true_iff in H as [H _].
  apply Nat.ltb_lt, H.
Qed.

(** The positions kept are exactly those at which every sampled line has
    a space. *)
Lemma space_positions_iff (lines : list str) (pos : nat) :
  In pos (space_positions lines) <->
  lines <> [] /\ Forall (fun line => space_at pos line = true) lines.
Proof.
  unfold space_positions. rewrite filter_In, in_seq, forallb_forall, Forall_forall.
  split.
  - intros [[_ Hlt] H]. split; [|exact H].
    intros ->. simpl in Hlt. lia.
  - intros [Hne H]. split; [|exact H]. split; [lia|]. simpl.
    destruct (py_max_in (@List.length char) [] lines Hne) as [Hin _].
    apply space_at_length, H, Hin.
Qed.

(** The widths kept add up to the last boundary kept. *)
Lemma widths_loop_sum (positions : list nat) (prev : nat) (ws : list nat) :
  list_sum ws = prev ->
  list_sum (widths_loop positions prev ws) = prev
  \/ In (list_sum (widths_loop positions prev ws)) positions.
Proof.
  revert prev ws. induction positions as [|pos rest IH]; intros prev ws H;
    [left; exact H|].
  simpl. destruct (Nat.ltb_spec 1 (pos - prev)) as [Hgap|Hgap].
  - destruct (IH pos (ws ++ [pos - prev])) as [Hs|Hs].
    + rewrite list_sum_app. simpl. lia.
    + right. left. symmetry. exact Hs.
    + right. right. exact Hs.
  - destruct (IH prev ws H) as [Hs|Hs]; [left; exact Hs|right; right; exact Hs].
Qed.

(** X17.  The positions [_detect_fixed_widths] works from are exactly
    those at which every sampled line has a space.  The widths it
    answers, the open-ended one apart, add up to less than the length of
    every sampled line, so no fixed column reaches past the shortest
    line; and one empty line among the sampled ones leaves it without an
    answer. *)
Theorem detected_widths_fit_every_line (lines : list str) :
  (forall pos, In pos (space_positions lines) <->
               lines <> [] /\ Forall (fun line => space_at pos line = true) lines)
  /\ (forall w, widths_of_lines lines = Some w ->
        exists ws, w = map Some ws ++ [None]
                   /\ forall line, In line lines -> list_sum ws < List.length line)
  /\ (In [] lines -> widths_of_lines lines = None).
Proof.
  assert (Hfit : forall w, widths_of_lines lines = Some w ->
            exists ws, w = map Some ws ++ [None]
                       /\ forall line, In line lines -> list_sum ws < List.length line).
  { intros w Hw. unfold widths_of_lines in Hw.
    destruct lines as [|l0 ls] eqn:El; [discriminate|]. rewrite <- El in *.
    destruct (space_positions lines) as [|p ps] eqn:Ep; [discriminate|].
    injection Hw as <-. exists (widths_loop (p :: ps) 0 []).
    split; [reflexivity|]. intros line Hline.
    assert (Hpos : forall q, In q (p :: ps) -> q < List.length line).
    { intros q Hq. rewrite <- Ep in Hq. apply space_positions_iff in Hq as [_ Hq].
      rewrite Forall_forall in Hq. apply space_at_length, Hq, Hline. }
    destruct (widths_loop_sum (p :: ps) 0 [] eq_refl) as [Hs|Hs].
    - rewrite Hs. specialize (Hpos p (or_introl eq_refl)). lia.
    - apply Hpos, Hs. }
  split; [apply space_positions_iff|]. split; [exact Hfit|].
  intros Hin. destruct (widths_of_lines lines) as [w|] eqn:E; [|reflexivity].
  destruct (Hfit w eq_refl) as (ws & _ & Hlt).
  specialize (Hlt [] Hin). simpl in Hlt. lia.
Qed.

End WidthExtras.

(* ================================================================== *)
(** * The diagnostic tool: [diagnose_dat_file] *)

Section DiagnoseFacts.

Variable decode : str -> list byte -> result str.

Lemma diag_count_of_in (counts : list (string * nat)) (k : string) (v : nat) :
  NoDup (map fst counts) -> In (k, v) counts -> diag_count_of counts k = v.
Proof.
  unfold diag_count_of. induction counts as [|[k' v'] r IH]; intros Hnd Hin;
    [destruct Hin|].
  simpl in *. inversion Hnd as [|? ? Hk Hr]; subst.
  destruct Hin as [[= -> ->]|Hin].
  - rewrite String.eqb_refl. reflexivity.
  - destruct (String.eqb k k') eqn:E; [|apply IH; assumption].
    apply String.eqb_eq in E. subst k'. exfalso. apply Hk.
    change k with (fst (k, v)). apply in_map, Hin.
Qed.

(** The largest count is the count of the best name. *)
Lemma max_value_is_best (counts : list (string * nat)) :
  counts <> [] -> NoDup (map fst counts) ->
  py_max (fun v => v) 0 (map snd counts) = diag_count_of counts (diag_best counts).
Proof.
  intros Hne Hnd. unfold diag_best.
  assert (Hn1 : map snd counts <> []) by (destruct counts; [contradiction|discriminate]).
  assert (Hn2 : map fst counts <> []) by (destruct counts; [contradiction|discriminate]).
  destruct (py_max_in (fun v => v) 0 (map snd counts) Hn1) as [Hm1 Hm2].
  destruct (py_max_in (diag_count_of counts) ""%string (map fst counts) Hn2) as [Hb1 Hb2].
  apply in_map_iff in Hm1 as ([k v] & Hv & Hkv). simpl in Hv.
  apply in_map_iff in Hb1 as ([k' v'] & Hk' & Hkv'). simpl in Hk'.
  apply Nat.le_antisymm.
  - rewrite <- Hv. rewrite <- (diag_count_of_in counts k v Hnd Hkv).
    apply Hb2. change k with (fst (k, v)). apply in_map, Hkv.
  - rewrite <- Hk'. rewrite (diag_count_of_in counts k' v' Hnd Hkv').
    apply Hm2. change v' with (snd (k', v')). apply in_map, Hkv'.
Qed.

Lemma diag_counts_names (decoded : str) :
  map fst (diag_counts decoded) = map fst diag_delimiters.
Proof. reflexivity. Qed.

Lemma diag_names_NoDup : NoDup (map fst diag_delimiters).
Proof.
  simpl. repeat constructor; simpl; intuition discriminate.
Qed.

Lemma bytes_contains_one (b : byte) (bs : list byte) :
  bytes_contains [b] bs = true <-> In b bs.
Proof.
  induction bs as [|x r IH]; simpl; [split; [discriminate|tauto]|].
  rewrite orb_true_iff, andb_true_r, IH. split.
  - intros [H|H]; [left; symmetry; apply Byte.byte_dec_bl, H|right; exact H].
  - intros [H|H]; [left; apply Byte.byte_dec_lb; symmetry; exact H|right; exact H].
Qed.

(** X18.  As latin-1 decodes every sample, the tool always finds an
    encoding: it recommends utf-8 when the sample decodes as UTF-8 and
    latin-1 otherwise, never one of the four encodings it tries after
    those.  Of its two remarks on a binary format, the warning that
    stands for the recommendations when nothing decodes is never
    printed; the line of section 6 on NULL bytes is printed exactly when
    the sample holds a zero byte, whatever the encodings do. *)
Theorem diagnose_recommends_utf_8_or_latin_1 (raw_sample : list byte) :
  (exists decoded, decode (lit "latin-1") raw_sample = Ok decoded) ->
  exists enc more,
    recommendations decode raw_sample = DiagUseEncoding enc :: more
    /\ (enc = lit "utf-8" \/ enc = lit "latin-1")
    /\ (enc = lit "utf-8" <-> exists decoded, decode (lit "utf-8") raw_sample = Ok decoded)
    /\ ~ In DiagMaybeBinary (report_lines decode raw_sample)
    /\ (In DiagNullBytes (report_lines decode raw_sample) <-> In x00 raw_sample).
Proof.
  intros [latin Hlatin].
  assert (H : exists enc decoded rest,
             successful_decodings decode raw_sample = (enc, decoded) :: rest
             /\ (enc = lit "utf-8" \/ enc = lit "latin-1")
             /\ (enc = lit "utf-8"
                 <-> exists d, decode (lit "utf-8") raw_sample = Ok d)).
  { unfold successful_decodings, diag_encodings. cbn [flat_map].
    rewrite Hlatin. destruct (decode (lit "utf-8") raw_sample) as [d|e].
    - do 3 eexists. split; [reflexivity|]. split; [left; reflexivity|].
      split; eauto.
    - do 3 eexists. split; [reflexivity|]. split; [right; reflexivity|].
      split; [discriminate|]. intros [d Hd]. discriminate. }
  destruct H as (enc & decoded & rest & Hs & Henc & Hiff).
  assert (Hsec : forall m, In m (delimiter_section decode raw_sample) ->
                           (exists n c, m = DiagCount n c)
                           \/ exists n, m = DiagMostLikely n).
  { unfold delimiter_section. rewrite Hs. intros m Hm.
    apply in_app_or in Hm as [Hm|Hm].
    - apply in_flat_map in Hm as (kv & _ & Hm).
      destruct (Nat.ltb 0 (snd kv)); [|destruct Hm].
      destruct Hm as [<-|[]]. left. eauto.
    - destruct (diag_counts decoded); [destruct Hm|].
      destruct Hm as [<-|[]]. right. eauto. }
  assert (Hrec : forall m, In m (recommendations decode raw_sample) ->
                           (exists e, m = DiagUseEncoding e)
                           \/ exists t, m = DiagUseDelimiter t).
  { unfold recommendations. rewrite Hs. intros m [<-|Hm]; [left; eauto|].
    destruct (diag_counts decoded); [destruct Hm|].
    destruct (Nat.ltb 0 _); [|destruct Hm].
    destruct (delim_map_get _); [|destruct Hm].
    destruct Hm as [<-|[]]. right. eauto. }
  assert (Hstr : forall m, In m (structure_section raw_sample) ->
                           (m = DiagNullBytes /\ In x00 raw_sample)
                           \/ (exists k, m = DiagLineEndings k)
                           \/ exists k, m = DiagBom k).
  { unfold structure_section. intros m Hm.
    apply in_app_or in Hm as [Hm|Hm].
    - destruct (bytes_contains [x00] raw_sample) eqn:E; [|destruct Hm].
      destruct Hm as [<-|[]]. left. split; [reflexivity|].
      apply bytes_contains_one, E.
    - right. apply in_app_or in Hm as [Hm|Hm].
      + left.
        destruct (bytes_contains [x0d; x0a] raw_sample);
          [destruct Hm as [<-|[]]; eauto|].
        destruct (bytes_contains [x0a] raw_sample);
          [destruct Hm as [<-|[]]; eauto|].
        destruct (bytes_contains [x0d] raw_sample);
          [destruct Hm as [<-|[]]; eauto|destruct Hm].
      + right.
        destruct (bytes_startswith [xff; xfe] raw_sample);
          [destruct Hm as [<-|[]]; eauto|].
        destruct (bytes_startswith [xfe; xff] raw_sample);
          [destruct Hm as [<-|[]]; eauto|].
        destruct (bytes_startswith [xef; xbb; xbf] raw_sample);
          [destruct Hm as [<-|[]]; eauto|destruct Hm]. }
  exists enc. unfold recommendations at 1. rewrite Hs. eexists.
  split; [reflexivity|]. split; [exact Henc|]. split; [exact Hiff|].
  unfold report_lines. split.
  - intros Hin. apply in_app_or in Hin as [Hin|Hin];
      [|apply in_app_or in Hin as [Hin|Hin]].
    + destruct (Hsec _ Hin) as [(n & c & E)|(n & E)]; discriminate.
    + destruct (Hstr _ Hin) as [[E _]|[(k & E)|(k & E)]]; discriminate.
    + destruct (Hrec _ Hin) as [(e & E)|(t & E)]; discriminate.
  - split.
    + intros Hin. apply in_app_or in Hin as [Hin|Hin];
        [|apply in_app_or in Hin as [Hin|Hin]].
      * destruct (Hsec _ Hin) as [(n & c & E)|(n & E)]; discriminate.
      * destruct (Hstr _ Hin) as [[_ H0]|[(k & E)|(k & E)]];
          [exact H0|discriminate|discriminate].
      * destruct (Hrec _ Hin) as [(e & E)|(t & E)]; discriminate.
    + intros H0. apply in_or_app. right. apply in_or_app. left.
      unfold structure_section. apply in_or_app. left.
      apply bytes_contains_one in H0. rewrite H0. left. reflexivity.
Qed.

(** X19.  The name the tool prints as the most likely delimiter is the
    first, in the order of its six candidates, among those with the most
    occurrences in the first five lines; it prints one even when no
    candidate occurs at all, and that one is the tab.  It recommends a
    delimiter only when the best candidate occurs and is the tab, the
    pipe, the comma or the semicolon: for the two separator control
    characters it recommends none. *)
Theorem diagnose_delimiter_advice (raw_sample : list byte)
    (enc decoded : str) (more : list (str * str)) :
  successful_decodings decode raw_sample = (enc, decoded) :: more ->
  let n := diag_count_of (diag_counts decoded) in
  exists best,
    In (DiagMostLikely best) (delimiter_section decode raw_sample)
    /\ (exists before after,
          map fst diag_delimiters = before ++ best :: after
          /\ Forall (fun x => n x < n best) before
          /\ Forall (fun x => n x <= n best) after)
    /\ (n best = 0 ->
        best = "Tab (\t)"%string
        /\ recommendations decode raw_sample = [DiagUseEncoding enc])
    /\ (0 < n best ->
        recommendations decode raw_sample
        = DiagUseEncoding enc
          :: match delim_map_get best with
             | Some text => [DiagUseDelimiter text]
             | None => []
             end)
    /\ (delim_map_get best = None <->
        best = "Unit Sep (\x01)"%string \/ best = "Field Sep (\x1f)"%string)
    /\ (forall text, delim_map_get best = Some text ->
                     In text [lit "\t"; lit "|"; lit ","; lit ";"]).
Proof.
  intros Hs. cbv zeta. unfold delimiter_section, recommendations. rewrite Hs.
  remember (diag_counts decoded) as counts eqn:Hc.
  assert (Hne : counts <> []) by (rewrite Hc; discriminate).
  assert (Hnd : NoDup (map fst counts)) by (rewrite Hc; exact diag_names_NoDup).
  assert (Hnames : map fst counts = map fst diag_delimiters)
    by (rewrite Hc; reflexivity).
  assert (Hm : forall (A : Type) (x : list A),
             match counts with [] => [] | _ :: _ => x end = x)
    by (intros A x; destruct counts; [contradiction|reflexivity]).
  rewrite !Hm. rewrite (max_value_is_best counts Hne Hnd).
  exists (diag_best counts).
  set (best := diag_best counts). set (n := diag_count_of counts).
  assert (Hsplit : exists before after,
             map fst diag_delimiters = before ++ best :: after
             /\ Forall (fun x => n x < n best) before
             /\ Forall (fun x => n x <= n best) after).
  { unfold best, diag_best. rewrite Hnames.
    cbn [map fst diag_delimiters py_max].
    destruct (max_from_first n
                ["Pipe (|)"%string; "Comma (,)"%string; "Semicolon (;)"%string;
                 "Unit Sep (\x01)"%string; "Field Sep (\x1f)"%string]
                "Tab (\t)"%string) as (l1 & l2 & E & H1 & H2 & _).
    exists l1, l2. auto. }
  assert (Hbest : In best (map fst diag_delimiters)).
  { destruct Hsplit as (b & a & E & _). rewrite E. apply in_or_app.
    right. left. reflexivity. }
  split; [|split; [exact Hsplit|split; [|split; [|split]]]].
  - apply in_or_app. right. left. reflexivity.
  - intros Hz. split.
    + destruct Hsplit as ([|x before] & after & E & H1 & _).
      * simpl in E. injection E as E _. symmetry. exact E.
      * inversion H1; subst. lia.
    + rewrite Hz. reflexivity.
  - intros Hpos. apply Nat.ltb_lt in Hpos. rewrite Hpos. reflexivity.
  - simpl in Hbest.
    destruct Hbest as [<-|[<-|[<-|[<-|[<-|[<-|[]]]]]]]; cbn;
      (split; [try discriminate; auto|intros [H|H]; try discriminate; reflexivity]).
  - intros text. simpl in Hbest.
    destruct Hbest as [<-|[<-|[<-|[<-|[<-|[<-|[]]]]]]]; cbn;
      intros [= <-]; auto.
Qed.

End DiagnoseFacts.

(* ================================================================== *)
(** * Cleaning what is already clean *)

Section ContainsFacts.

Lemma contains_nil (s : str) : contains [] s = true.
Proof. destruct s; reflexivity. Qed.

Lemma contains_skipn (p : str) (k : nat) (s : str) :
  contains p s = false -> contains p (skipn k s) = false.
Proof.
  revert s. induction k as [|k IH]; intros s H; [exact H|].
  destruct s as [|c r]; [exact H|]. simpl in H.
  apply orb_false_iff in H as [_ H]. apply IH, H.
Qed.

Lemma contains_suffix (p a b : str) :
  contains p (a ++ b) = false -> contains p b = false.
Proof.
  induction a as [|x a' IH]; intros H; [exact H|].
  simpl in H. apply orb_false_iff in H as [_ H]. apply IH, H.
Qed.

Lemma contains_prefix (p a b : str) :
  contains p (a ++ b) = false -> contains p a = false.
Proof.
  induction a as [|x a' IH]; intros H.
  - destruct p as [|y p']; [rewrite contains_nil in H; discriminate|reflexivity].
  - change ((x :: a') ++ b) with (x :: (a' ++ b)) in H. cbn [contains] in H.
    apply orb_false_iff in H as [H1 H2]. cbn [contains].
    apply orb_false_iff. split; [|apply IH, H2].
    destruct (startswith p (x :: a')) eqn:E; [|reflexivity].
    apply (startswith_app_left _ _ b) in E.
    change ((x :: a') ++ b) with (x :: (a' ++ b)) in E. congruence.
Qed.

Lemma contains_apart_app (P l s : str) :
  (forall c, In c l -> ~ In c P) ->
  contains P s = false -> contains P (l ++ s) = false.
Proof.
  intros Hl Hs. induction l as [|x l' IH]; [exact Hs|].
  change ((x :: l') ++ s) with (x :: (l' ++ s)). cbn [contains].
  apply orb_false_iff. split.
  - destruct P as [|p0 P'] eqn:EP; [rewrite contains_nil in Hs; discriminate|].
    simpl. destruct (char_eqb p0 x) eqn:E; [|reflexivity].
    exfalso. apply char_eqb_eq in E. subst x.
    apply (Hl p0 (or_introl eq_refl)). left. reflexivity.
  - apply IH. intros c Hc. apply Hl. right. exact Hc.
Qed.

End ContainsFacts.

Section RescanFacts.

(** A pattern [P] looked for after [Q] has been replaced by [new], where
    [new] is not empty and shares no character with [P]. *)
Variables P Q new : str.
Hypothesis new_apart : forall c, In c new -> ~ In c P.
Hypothesis new_nonempty : new <> [].
Hypothesis Q_nonempty : Q <> [].

(** An occurrence of [P] at the head of a copied text [u] followed by the
    rewritten rest was there before the rewriting. *)
Lemma rescan_prefix (r u : str) :
  startswith P (u ++ replace Q new r) = true -> startswith P (u ++ r) = true.
Proof.
  revert u. induction r as [|c r IH]; intros u H; [exact H|].
  destruct (startswith Q (c :: r)) eqn:E.
  - rewrite (replace_at_occurrence Q new (c :: r) Q_nonempty E) in H.
    destruct (startswith_app_split _ _ _ H) as [Hl|(p2 & Hp & Hr)].
    + apply startswith_app_left, Hl.
    + destruct p2 as [|y p2'].
      * rewrite app_nil_r in Hp. rewrite Hp.
        apply startswith_app_left, startswith_refl.
      * exfalso. destruct new as [|n0 new']; [contradiction|].
        simpl in Hr. apply andb_true_iff in Hr as [Hy _].
        apply char_eqb_eq in Hy. subst y.
        apply (new_apart n0 (or_introl eq_refl)). rewrite Hp.
        apply in_or_app. right. left. reflexivity.
  - rewrite (replace_before_occurrence Q new c r E) in H.
    replace (u ++ c :: replace Q new r) with ((u ++ [c]) ++ replace Q new r) in H
      by (rewrite <- app_assoc; reflexivity).
    apply IH in H. rewrite <- app_assoc in H. exact H.
Qed.

(** Replacing [Q] brings no occurrence of [P] into a text without one. *)
Lemma rescan_absent (n : nat) (s : str) :
  List.length s <= n ->
  contains P s = false -> contains P (replace Q new s) = false.
Proof.
  revert s. induction n as [|n IH]; intros s Hn H.
  - destruct s; [exact H|simpl in Hn; lia].
  - destruct s as [|c r]; [exact H|].
    destruct (startswith Q (c :: r)) eqn:E.
    + rewrite (replace_at_occurrence Q new (c :: r) Q_nonempty E).
      apply contains_apart_app; [exact new_apart|].
      apply IH; [|apply contains_skipn, H].
      destruct Q as [|q Q']; [contradiction|].
      simpl. rewrite length_skipn. simpl in Hn. lia.
    + rewrite (replace_before_occurrence Q new c r E).
      cbn [contains] in *. apply orb_false_iff in H as [H1 H2].
      apply orb_false_iff. split; [|apply IH; [simpl in Hn; lia|exact H2]].
      destruct (startswith P (c :: replace Q new r)) eqn:E2; [|reflexivity].
      apply (rescan_prefix r [c]) in E2. simpl in E2. congruence.
Qed.

End RescanFacts.

Section ReplacedFacts.

Variables Q new : str.
Hypothesis new_apart : forall c, In c new -> ~ In c Q.
Hypothesis new_nonempty : new <> [].
Hypothesis Q_nonempty : Q <> [].

(** After the replacement of [Q] by a text that shares no character with
    it, no occurrence of [Q] is left. *)
Lemma replace_leaves_none (n : nat) (s : str) :
  List.length s <= n -> contains Q (replace Q new s) = false.
Proof.
  revert s. induction n as [|n IH]; intros s Hn.
  - destruct s; [|simpl in Hn; lia].
    destruct Q; [contradiction|reflexivity].
  - destruct s as [|c r]; [destruct Q; [contradiction|reflexivity]|].
    destruct (startswith Q (c :: r)) eqn:E.
    + rewrite (replace_at_occurrence Q new (c :: r) Q_nonempty E).
      apply contains_apart_app; [exact new_apart|].
      apply IH. destruct Q as [|q Q']; [contradiction|].
      simpl. rewrite length_skipn. simpl in Hn. lia.
    + rewrite (replace_before_occurrence Q new c r E).
      cbn [contains]. apply orb_false_iff.
      split; [|apply IH; simpl in Hn; lia].
      destruct (startswith Q (c :: replace Q new r)) eqn:E2; [|reflexivity].
      apply (rescan_prefix Q Q new new_apart new_nonempty Q_nonempty r [c]) in E2.
      simpl in E2. congruence.
Qed.

End ReplacedFacts.

Section StripParts.

Variable p : char -> bool.

Lemma lstrip_by_suffix (s : str) : exists a, s = a ++ lstrip_by p s.
Proof.
  induction s as [|c r [a IH]]; [exists []; reflexivity|].
  simpl. destruct (p c).
  - exists (c :: a). simpl. f_equal. exact IH.
  - exists []. reflexivity.
Qed.

Lemma rstrip_by_prefix (s : str) : exists b, s = rstrip_by p s ++ b.
Proof.
  unfold rstrip_by. destruct (lstrip_by_suffix (rev s)) as [a Ha].
  exists (rev a). rewrite <- rev_app_distr, <- Ha, rev_involutive. reflexivity.
Qed.

(** Stripping brings no occurrence of a pattern. *)
Lemma contains_strip_by (pat s : str) :
  contains pat s = false -> contains pat (strip_by p s) = false.
Proof.
  intros H. unfold strip_by.
  destruct (lstrip_by_suffix s) as [a Ha].
  destruct (rstrip_by_prefix (lstrip_by p s)) as [b Hb].
  rewrite Ha in H. apply contains_suffix in H.
  rewrite Hb in H. apply contains_prefix in H. exact H.
Qed.

(** A text that does not begin or end with a stripped character is left
    as it is. *)
Lemma strip_by_fixed (s : str) :
  match s with [] => True | c :: _ => p c = false end ->
  match rev s with [] => True | c :: _ => p c = false end ->
  strip_by p s = s.
Proof.
  intros Hh Hl. unfold strip_by.
  assert (E : lstrip_by p s = s).
  { destruct s as [|c r]; [reflexivity|]. simpl. rewrite Hh. reflexivity. }
  rewrite E. unfold rstrip_by.
  assert (E2 : lstrip_by p (rev s) = rev s).
  { destruct (rev s) as [|c r]; [reflexivity|]. simpl. rewrite Hl. reflexivity. }
  rewrite E2. apply rev_involutive.
Qed.

(** A stripped text does not end with a stripped character. *)
Lemma strip_by_last (s : str) :
  match rev (strip_by p s) with
  | [] => True
  | c :: _ => p c = false
  end.
Proof.
  unfold strip_by, rstrip_by. rewrite rev_involutive. apply lstrip_by_head.
Qed.

End StripParts.

Section CleanTwice.

Lemma dash_apart (pat : str) :
  In pat [en_dash_seq; em_dash_seq; ellipsis_seq] ->
  (forall c, In c (lit "-") -> ~ In c pat)
  /\ (forall c, In c (lit "...") -> ~ In c pat).
Proof.
  intros [<-|[<-|[<-|[]]]]; split; intros c Hc Hin; simpl in Hc, Hin;
    repeat (destruct Hc as [Hc|Hc]; [subst c|]); try contradiction;
    repeat (destruct Hin as [Hin|Hin]; [discriminate|]); contradiction.
Qed.

(** The text before the last two steps of the chain. *)
Lemma clean_text_chain (v : option str) :
  exists t,
    Forall printable t
    /\ contains en_dash_seq t = false
    /\ contains em_dash_seq t = false
    /\ contains ellipsis_seq t = false
    /\ clean_text v = if PyStr.eqb (strip t) (lit "nan") then None else Some (strip t).
Proof.
  unfold clean_text.
  set (s1 := replace [0%N] [] (astype_str v)).
  set (s2 := remove_class is_control s1).
  set (s3 := replace quote_pattern [squote] (replace [dquote] [dquote]
               (replace [dquote] [dquote] s2))).
  set (s4 := replace en_dash_seq (lit "-") s3).
  set (s5 := replace em_dash_seq (lit "-") s4).
  set (s6 := replace ellipsis_seq (lit "...") s5).
  exists s6.
  assert (H2 : Forall printable s2).
  { apply Forall_forall. intros c Hc. split.
    - intros ->. unfold s2, remove_class in Hc. apply filter_In in Hc as [Hc _].
      exact (replace_delete _ _ Hc).
    - pose proof (remove_class_clean is_control s1) as Hr.
      rewrite Forall_forall in Hr. exact (Hr c Hc). }
  destruct (dash_apart en_dash_seq) as [Hen1 Hen3]; [simpl; auto|].
  destruct (dash_apart em_dash_seq) as [Hem1 Hem3]; [simpl; auto|].
  destruct (dash_apart ellipsis_seq) as [Hel1 Hel3]; [simpl; auto|].
  assert (N1 : lit "-" <> []) by discriminate.
  assert (N3 : lit "..." <> []) by discriminate.
  assert (Qen : en_dash_seq <> []) by discriminate.
  assert (Qem : em_dash_seq <> []) by discriminate.
  assert (Qel : ellipsis_seq <> []) by discriminate.
  assert (E4 : contains en_dash_seq s4 = false).
  { apply (replace_leaves_none en_dash_seq (lit "-") Hen1 N1 Qen (List.length s3)).
    lia. }
  assert (E5 : contains en_dash_seq s5 = false).
  { apply (rescan_absent en_dash_seq em_dash_seq (lit "-") Hen1 N1 Qem
             (List.length s4)); [lia|exact E4]. }
  assert (M5 : contains em_dash_seq s5 = false).
  { apply (replace_leaves_none em_dash_seq (lit "-") Hem1 N1 Qem (List.length s4)).
    lia. }
  split; [|split; [|split; [|split; [|reflexivity]]]].
  - do 6 (apply replace_incl;
          [|repeat (apply Forall_cons; [split; [discriminate|reflexivity]|]);
            apply Forall_nil]).
    exact H2.
  - apply (rescan_absent en_dash_seq ellipsis_seq (lit "...") Hen3 N3 Qel
             (List.length s5)); [lia|exact E5].
  - apply (rescan_absent em_dash_seq ellipsis_seq (lit "...") Hem3 N3 Qel
             (List.length s5)); [lia|exact M5].
  - apply (replace_leaves_none ellipsis_seq (lit "...") Hel3 N3 Qel (List.length s5)).
    lia.
Qed.

(** A text that the chain has nothing to do on. *)
Lemma clean_text_nothing_to_do (s : str) :
  Forall printable s ->
  contains en_dash_seq s = false ->
  contains em_dash_seq s = false ->
  contains ellipsis_seq s = false ->
  strip s = s ->
  s <> lit "nan" ->
  clean_text (Some s) = Some s.
Proof.
  intros Hs Hen Hem Hel Hstrip Hnan. unfold clean_text, astype_str.
  assert (H0 : ~ In 0%N s).
  { intros H. rewrite Forall_forall in Hs. destruct (Hs _ H) as [Hz _].
    apply Hz. reflexivity. }
  assert (Hnl : ~ In newline s).
  { intros H. rewrite Forall_forall in Hs. destruct (Hs _ H) as [_ Hc].
    discriminate. }
  rewrite (replace_absent [0%N] [] s)
    by (apply (contains_absent_char _ 0%N); [left; reflexivity|exact H0]).
  rewrite remove_class_fixed
    by (eapply Forall_impl; [|exact Hs]; intros c [_ Hc]; exact Hc).
  rewrite !replace_self.
  rewrite (replace_absent quote_pattern)
    by (apply (contains_absent_char _ newline); [cbn; auto 30|exact Hnl]).
  rewrite (replace_absent en_dash_seq) by exact Hen.
  rewrite (replace_absent em_dash_seq) by exact Hem.
  rewrite (replace_absent ellipsis_seq) by exact Hel.
  rewrite Hstrip.
  apply str_eqb_neq in Hnan. rewrite Hnan. reflexivity.
Qed.

(** The cleaning of a cell is idempotent: after the replacements none of
    the three sequences is left, and the later steps bring none back. *)
Lemma clean_text_idem (v : option str) :
  clean_text (clean_text v) = clean_text v.
Proof.
  destruct (clean_text_chain v) as (t & Hp & Hen & Hem & Hel & ->).
  destruct (PyStr.eqb (strip t) (lit "nan")) eqn:E; [reflexivity|].
  apply clean_text_nothing_to_do.
  - apply strip_incl, Hp.
  - apply contains_strip_by, Hen.
  - apply contains_strip_by, Hem.
  - apply contains_strip_by, Hel.
  - unfold strip. apply strip_by_idem.
  - apply str_eqb_neq, E.
Qed.

Lemma among_underscore (c : char) :
  among [underscore] c = char_eqb underscore c.
Proof.
  unfold among, char_eqb. simpl. rewrite orb_false_r. apply N.eqb_sym.
Qed.

Lemma startswith_one (c : char) (s : str) :
  startswith [c] s = match s with [] => false | x :: _ => char_eqb c x end.
Proof. destruct s; [reflexivity|]. simpl. apply andb_true_r. Qed.

(** X20.  The names that [clean_for_excel] leaves as they are are exactly
    the non-empty names made of letters, digits and underscores that do
    not begin or end with an underscore; every other name is changed. *)
Theorem clean_col_keeps_exactly_the_clean_names (col : str) :
  clean_col col = col
  <-> col <> []
      /\ Forall (fun c => is_word c = true) col
      /\ startswith [underscore] col = false
      /\ endswith [underscore] col = false.
Proof.
  unfold endswith. change (rev [underscore]) with [underscore].
  rewrite !startswith_one. split.
  - intros H.
    split; [rewrite <- H; apply clean_col_nonempty|].
    split; [rewrite <- H; apply clean_col_words|].
    rewrite clean_col_unfold in H. unfold strip_chars in H.
    pose proof (strip_by_head (among [underscore])
                  (sub_class (fun c => negb (is_word c)) underscore col)) as Hh.
    pose proof (strip_by_last (among [underscore])
                  (sub_class (fun c => negb (is_word c)) underscore col)) as Hl.
    destruct (strip_by (among [underscore]) _) as [|c r].
    + rewrite <- H. split; reflexivity.
    + cbn beta iota in H. subst col. split.
      * rewrite <- among_underscore. exact Hh.
      * destruct (rev (c :: r)); [reflexivity|].
        rewrite <- among_underscore. exact Hl.
  - intros (Hne & Hw & Hh & Hl).
    rewrite clean_col_unfold, (sub_class_fixed _ Hw). unfold strip_chars.
    rewrite strip_by_fixed.
    + destruct col; [contradiction|reflexivity].
    + destruct col; [exact I|]. rewrite among_underscore. exact Hh.
    + destruct (rev col); [exact I|]. rewrite among_underscore. exact Hl.
Qed.

End CleanTwice.

Section CleanForExcelTwice.

Context {num : Type}.

Local Abbreviation Series := (Series num).
Local Abbreviation DataFrame := (DataFrame num).

(** The text cells of a cleaned column are cells the chain leaves as
    they are. *)
Lemma clean_text_series_cells (s : Series) (vs : list (option str)) :
  clean_text_series s = ObjectCol vs -> map clean_text vs = vs.
Proof.
  destruct s as [ws|ws|ws]; simpl; [| |discriminate];
    destruct (_ && _)%bool; try discriminate; intros [= <-].
  - rewrite map_map. apply map_ext. intros v. apply clean_text_idem.
  - rewrite map_map. apply map_ext, clean_text_bool.
Qed.

Lemma clean_text_series_idem (s : Series) :
  clean_text_series (clean_text_series s) = clean_text_series s.
Proof.
  destruct (clean_text_series s) as [vs|vs|vs] eqn:E; [| |reflexivity].
  - pose proof (clean_text_series_cells s vs E) as Hc.
    assert (Hn : negb (Nat.eqb (List.length vs) 0) && forallb isna vs = false).
    { destruct s as [ws|ws|ws]; simpl in E; [| |discriminate];
        destruct (_ && _)%bool eqn:Ec; try discriminate; injection E as <-;
        rewrite length_map, ?isna_bool_text; exact Ec. }
    simpl. rewrite Hc, Hn. reflexivity.
  - destruct s as [ws|ws|ws]; simpl in E; [| |discriminate];
      destruct (_ && _)%bool; discriminate.
Qed.

(** X21.  [clean_for_excel] is idempotent on the frames it returns on:
    when the rewritten column names are all different, cleaning the
    cleaned frame again returns the same frame, and every text column of
    the cleaned frame is left as it is by the cleaning of cells, whatever
    texts it came from. *)
Theorem clean_for_excel_idempotent (df : DataFrame) :
  NoDup (map clean_col (labels df)) ->
  clean_for_excel (fst (clean_for_excel df)) = clean_for_excel df
  /\ forall col vs,
       In (col, ObjectCol vs) (columns (fst (clean_for_excel df))) ->
       map clean_text vs = vs.
Proof.
  intros Hnd.
  assert (Hgen : forall d : DataFrame,
             NoDup (map clean_col (labels d)) ->
             clean_for_excel d
             = (mkDF (index_len d)
                     (map (fun c => (clean_col (fst c), clean_text_series (snd c)))
                          (columns d)),
                None)).
  { intros d Hd. unfold clean_for_excel.
    rewrite clean_cells_loop_NoDup by (rewrite labels_rename_columns; exact Hd).
    unfold rename_columns. simpl. rewrite map_map. reflexivity. }
  rewrite (Hgen df Hnd). cbn [fst]. split.
  - rewrite Hgen.
    + f_equal. cbn [index_len columns]. f_equal. rewrite map_map.
      apply map_ext. intros [n s]. cbn [fst snd].
      rewrite clean_col_idem, clean_text_series_idem. reflexivity.
    + unfold labels. cbn [columns]. rewrite !map_map. cbn [fst].
      erewrite map_ext; [|intros c; apply clean_col_idem].
      unfold labels in Hnd. rewrite map_map in Hnd. exact Hnd.
  - intros col vs Hin. cbn [columns] in Hin.
    apply in_map_iff in Hin as ([n s] & E & _). cbn [fst snd] in E.
    injection E as _ E. exact (clean_text_series_cells s vs E).
Qed.

End CleanForExcelTwice.

(* ================================================================== *)
(** * What [auto_read] raises *)

Section AutoReadFailure.

Context {num : Type}.
Variable read_bytes : str -> nat -> result (list byte).
Variable chardet_detect : list byte -> result (option str * Q).
Variable open_text : str -> option str -> result (list (result str)).
Variable read_csv : str -> kwargs -> result (DataFrame num).
Variable read_fwf : str -> option widths -> option (list str) -> option str
                    -> result (DataFrame num).

(** None of the methods hands a DEBUG record on. *)
Lemma detect_encoding_quiet (st : @state num) (n : nat) (m : log_msg) :
  In (DEBUG, m) (log (snd (detect_encoding read_bytes chardet_detect n st))) ->
  In (DEBUG, m) (log st).
Proof.
  destruct st as [r lg].
  unfold detect_encoding, try_except, bind, get_self, call, logger, ret. simpl.
  destruct (read_bytes _ _) as [raw|e]; simpl;
    [|rewrite in_app_iff; simpl; intuition discriminate].
  destruct (chardet_detect raw) as [[detected confidence]|e]; simpl;
    [|rewrite in_app_iff; simpl; intuition discriminate].
  destruct detected as [[|c d]|]; simpl;
    try (rewrite in_app_iff; simpl; intuition discriminate).
  destruct (above_threshold confidence); simpl;
    rewrite in_app_iff; simpl; intuition discriminate.
Qed.

Lemma detect_delimiter_quiet (st : @state num) (n : nat) (m : log_msg) :
  In (DEBUG, m) (log (snd (detect_delimiter open_text n st))) ->
  In (DEBUG, m) (log st).
Proof.
  destruct st as [r lg].
  unfold detect_delimiter, try_except, bind, get_self, call, logger, ret. simpl.
  destruct (open_text _ _) as [f|e]; simpl;
    [|rewrite in_app_iff; simpl; intuition discriminate].
  destruct (count_lines _ _ _ _) as [c|e]; simpl;
    [|rewrite in_app_iff; simpl; intuition discriminate].
  destruct (Nat.ltb 0 _); simpl; [|tauto].
  rewrite in_app_iff. simpl. intuition discriminate.
Qed.

Lemma read_delimited_quiet (st : @state num) (m : log_msg) :
  In (DEBUG, m) (log (snd (read_delimited open_text read_csv None [] st))) ->
  In (DEBUG, m) (log st).
Proof.
  destruct st as [r lg].
  destruct (detect_delimiter_state open_text r 10) as (c & extra & _ & Hrun).
  assert (Hq : ~ In (DEBUG, m) extra).
  { intros Hm. apply (detect_delimiter_quiet (mkState r []) 10 m).
    rewrite Hrun. exact Hm. }
  unfold read_delimited, try_except, bind, get_self, set_self, call, logger, ret, raise.
  rewrite Hrun. simpl.
  destruct c as [c|]; simpl; destruct (read_csv _ _); simpl;
    rewrite ?in_app_iff; simpl; intros H; decompose [or] H;
    try discriminate; try assumption; contradiction.
Qed.

Lemma read_fixed_width_quiet (st : @state num) (m : log_msg) :
  In (DEBUG, m) (log (snd (read_fixed_width open_text read_fwf None None st))) ->
  In (DEBUG, m) (log st).
Proof.
  destruct st as [r lg].
  destruct (detect_fixed_widths_state open_text r 100) as (ws & Hrun).
  unfold read_fixed_width, try_except, bind, get_self, set_self, call, logger, ret, raise.
  simpl. rewrite Hrun. simpl.
  destruct (read_fwf _ _ _ _); simpl;
    rewrite ?in_app_iff; simpl; intros H; decompose [or] H;
    try discriminate; try assumption; contradiction.
Qed.

(** What [auto_read] does before its loop: a line in the log, and the
    encoding when it is not known. *)
Lemma auto_read_prelude (r : @SybaseDatReader num) (lg : list (level * log_msg)) :
  exists enc extra,
    (forall m, ~ In (DEBUG, m) extra)
    /\ auto_read read_bytes chardet_detect open_text read_csv read_fwf (mkState r lg)
       = try_methods
           [("read_delimited"%string, read_delimited open_text read_csv None []);
            ("read_fixed_width"%string, read_fixed_width open_text read_fwf None None)]
           (mkState (with_encoding r enc) (lg ++ extra)).
Proof.
  unfold auto_read, bind, get_self, set_self, logger, ret. simpl.
  destruct r as [path [e|] dat fmt]; simpl.
  - exists e, [(INFO, LogAutoDetecting path)]. split; [|reflexivity].
    intros m [H|[]]. discriminate.
  - destruct (detect_encoding_state read_bytes chardet_detect
                (mkReader path None dat fmt) default_sample_size)
      as (e & extra & _ & Hrun).
    exists e, ((INFO, LogAutoDetecting path) :: extra). split.
    + intros m [H|H]; [discriminate|].
      apply (detect_encoding_quiet (mkState (mkReader path None dat fmt) [])
               default_sample_size m).
      rewrite Hrun. exact H.
    + rewrite Hrun. simpl. rewrite <- app_assoc. reflexivity.
Qed.

(** X22.  Whatever [auto_read] raises is its own [ValueError]: the
    exceptions of [pd.read_csv] and [pd.read_fwf], a missing file or a
    denied permission among them, never reach the caller.  When it
    raises, both calls have raised, and what they raised is in the log
    at the level ERROR, where the two readers put it; the DEBUG records
    of [auto_read] itself are below the level the module configures, so
    the log gains none. *)
Theorem auto_read_raises_only_its_own_error (st : @state num) (e : exn) :
  fst (auto_read read_bytes chardet_detect open_text read_csv read_fwf st) = Raise e ->
  e = no_known_format
  /\ exists e1 e2 params ws enc,
       read_csv (filepath (self st)) params = Raise e1
       /\ read_fwf (filepath (self st)) ws None (Some enc) = Raise e2
       /\ let lg := log (snd (auto_read read_bytes chardet_detect open_text
                                read_csv read_fwf st)) in
          In (ERROR, LogDelimitedFailed e1) lg
          /\ In (ERROR, LogFixedWidthFailed e2) lg
          /\ (forall m, In (DEBUG, m) lg -> In (DEBUG, m) (log st)).
Proof.
  destruct st as [r lg]. cbv zeta.
  destruct (auto_read_prelude r lg) as (enc & extra0 & Hq0 & ->).
  set (r1 := with_encoding r enc).
  destruct (read_delimited_state open_text read_csv r1)
    as (d & extra1 & _ & _ & Hrun1).
  destruct (read_fixed_width_state open_text read_fwf r1)
    as (ws & extra2 & _ & _ & Hrun2).
  pose proof (fun m => read_delimited_quiet (mkState r1 []) m) as Hq1.
  pose proof (fun m => read_fixed_width_quiet (mkState r1 []) m) as Hq2.
  rewrite Hrun1 in Hq1. rewrite Hrun2 in Hq2.
  remember (try_methods _ _) as out eqn:Hout.
  cbn [try_methods] in Hout. unfold try_except, bind, logger, raise in Hout.
  cbn [isEnabledFor levelno configured_level Nat.leb] in Hout.
  rewrite Hrun1 in Hout. cbn [r1 with_encoding filepath encoding] in *.
  destruct (read_csv (filepath r) _) as [df|e1] eqn:E1;
    [subst out; discriminate|].
  rewrite Hrun2 in Hout.
  destruct (read_fwf (filepath r) ws None (Some enc)) as [df|e2] eqn:E2;
    [subst out; discriminate|].
  subst out. cbn [self log fst snd] in *.
  intros [= <-]. split; [reflexivity|].
  exists e1, e2, (default_params (delimiter_or_tab d) (Some enc)), ws, enc.
  split; [exact E1|]. split; [exact E2|].
  split; [rewrite !in_app_iff; simpl; tauto|].
  split; [rewrite !in_app_iff; simpl; tauto|].
  intros m. specialize (Hq0 m). specialize (Hq1 m). specialize (Hq2 m).
  rewrite !in_app_iff in *. simpl in *.
  intros H. decompose [or] H; try discriminate; try tauto.
Qed.

(** X23.  Every list of widths that [_detect_fixed_widths] answers ends
    with the open-ended width [None], and [read_fixed_width] hands the
    list to [pd.read_fwf] as it is.  So where [pd.read_fwf] raises on a
    width that is [None] (it adds the widths up), [read_fixed_width]
    without widths of the caller raises on every file in which the
    sniffer finds a shared column of spaces: it can return only where
    the sniffer finds none. *)
Theorem sniffed_widths_are_refused (st : @state num) (w : widths) :
  (forall path (ws : widths) names enc,
      In None ws -> exists e, read_fwf path (Some ws) names enc = Raise e) ->
  fst (_detect_fixed_widths open_text 100 st) = Ok (Some w) ->
  In None w
  /\ exists e, read_fwf (filepath (self st)) (Some w) None (encoding (self st)) = Raise e
               /\ fst (read_fixed_width open_text read_fwf None None st) = Raise e.
Proof.
  intros Hpd Hw. destruct st as [r lg].
  assert (Hin : In None w).
  { unfold _detect_fixed_widths, try_except, bind, get_self, call, ret in Hw.
    simpl in Hw. destruct (open_text _ _) as [f|e]; [|discriminate].
    simpl in Hw. destruct (sample_loop _ _ _ _) as [l|e]; [|discriminate].
    simpl in Hw. injection Hw as Hw. unfold widths_of_lines in Hw.
    destruct l; [discriminate|].
    destruct (space_positions _); [discriminate|]. injection Hw as <-.
    apply in_or_app. right. left. reflexivity. }
  split; [exact Hin|].
  destruct (detect_fixed_widths_state open_text r 100) as (w0 & Hrun).
  rewrite Hrun in Hw. simpl in Hw. injection Hw as ->.
  destruct (Hpd (filepath r) w None (encoding r) Hin) as [e He].
  exists e. split; [exact He|].
  unfold read_fixed_width, try_except, bind, get_self, set_self, call, logger, ret, raise.
  simpl. rewrite Hrun. simpl. rewrite He. reflexivity.
Qed.

End AutoReadFailure.

(* ================================================================== *)
(** * The further properties on concrete inputs *)

Lemma clean_data_keeps_shape_witness :
  labels two_ids_cleaned = labels two_ids
  /\ index_len two_ids_cleaned = index_len two_ids
  /\ (well_formed two_ids -> well_formed two_ids_cleaned)
  /\ (forall col vs, lookup col (columns two_ids) = Some (NumericCol vs) ->
                     lookup col (columns two_ids_cleaned) = Some (NumericCol vs)).
Proof.
  exact (clean_data_keeps_shape parse_digits false two_ids two_ids_cleaned eq_refl).
Defined.

Lemma clean_data_text_cells_trimmed_witness :
  lit "Bob" <> [] /\ strip (lit "Bob") = lit "Bob".
Proof.
  exact (clean_data_text_cells_trimmed parse_digits false two_ids two_ids_cleaned
           (lit "NAME") [Some (lit "Alice"); Some (lit "Bob")] (lit "Bob")
           eq_refl eq_refl (or_intror (or_introl eq_refl))).
Defined.

Lemma clean_text_fixed_point_witness :
  clean_text (Some curly_quoted) = Some curly_quoted.
Proof.
  apply clean_text_fixed_point.
  - repeat (apply Forall_cons;
            [split; [split; [discriminate|reflexivity]|discriminate]|]).
    apply Forall_nil.
  - reflexivity.
  - discriminate.
Defined.

Lemma clean_for_excel_distinct_names_witness :
  clean_for_excel item_qty
  = (mkDF 1 [(lit "Item", ObjectCol [Some (lit "bolt")]);
             (lit "Qty", NumericCol [Some 4%Z])], None)
  /\ clean_for_excel nan_texts
     = (mkDF 2 [(lit "NOTE", NumericCol [None; None])], None).
Proof.
  split.
  - apply (clean_for_excel_distinct_names item_qty).
    repeat constructor; simpl; intuition discriminate.
  - apply (clean_for_excel_distinct_names nan_texts).
    repeat constructor; simpl; intuition discriminate.
Defined.


Lemma posix_join_suffix (a b : str) : exists pre, posix_join a b = pre ++ b.
Proof.
  unfold posix_join. destruct (startswith (lit "/") b); [exists []; reflexivity|].
  destruct a as [|c r]; [exists []; reflexivity|].
  destruct (endswith (lit "/") (c :: r)); [exists (c :: r); reflexivity|].
  exists ((c :: r) ++ lit "/"). rewrite <- app_assoc. reflexivity.
Defined.

Lemma interactive_output_ends_in_xlsx_witness :
  exists base,
    output_file before_last_dot dirname posix_join (lit "data/stock.dat") (lit "report")
    = base ++ xlsx
    /\ replace xlsx csv
         (output_file before_last_dot dirname posix_join (lit "data/stock.dat") (lit "report"))
       = replace xlsx csv base ++ csv
    /\ replace xlsx csv
         (output_file before_last_dot dirname posix_join (lit "data/stock.dat") (lit "report"))
       <> output_file before_last_dot dirname posix_join (lit "data/stock.dat") (lit "report").
Proof.
  exact (interactive_output_ends_in_xlsx before_last_dot dirname posix_join
           (lit "data/stock.dat") (lit "report") posix_join_suffix).
Defined.

Lemma dbf_names_without_extension_witness :
  mapped_excel_file (lit "STOCK.DBF") = lit "STOCK.DBF"
  /\ default_excel_file (lit "STOCK.DBF") = lit "STOCK.DBF".
Proof.
  destruct (dbf_names_without_extension (num := Z) (lit "STOCK.DBF") eq_refl)
    as (Hm & _ & Hd).
  split; [exact Hm|]. exact (proj1 (Hd eq_refl)).
Defined.

Lemma dbf_names_with_extension_witness :
  default_excel_file (lit "data/stock.dat") = lit "data/stock.xlsx"
  /\ default_excel_file (lit "data/stock.dbf") = lit "data/stock.xlsx".
Proof.
  destruct (dbf_names_with_extension (lit "data/stock") eq_refl eq_refl)
    as (H1 & _ & _ & H2 & _).
  split; [exact H1|exact H2].
Defined.

Lemma record_keys_in_field_order_witness :
  map fst (record_dict_of dict_record_get [lit "ID"; lit "NAME"]
             [(lit "NAME", lit "Alice"); (lit "ID", lit "1")])
  = [lit "ID"; lit "NAME"]
  /\ map fst (convert_record dict_record_get text_is_true (fun s => s) text_float 0%Z
                [(lit "NAME", lit "Alice"); (lit "ID", lit "1")]
                [mkField (lit "ID") (lit "N") 4 0; mkField (lit "NAME") (lit "C") 20 0])
     = [lit "ID"; lit "NAME"].
Proof.
  apply (record_keys_in_field_order dict_record_get text_is_true (fun s => s)
           text_float 0%Z [(lit "NAME", lit "Alice"); (lit "ID", lit "1")]
           [lit "ID"; lit "NAME"]
           [mkField (lit "ID") (lit "N") 4 0; mkField (lit "NAME") (lit "C") 20 0]);
    repeat constructor; simpl; intuition discriminate.
Defined.

Lemma detect_delimiter_failure_witness :
  fst (detect_delimiter (num := Z) two_lines_then_error 2
         (init (lit "data.dat") (Some latin_1)))
  = Ok None.
Proof.
  rewrite (detect_delimiter_failure (num := Z) two_lines_then_error
             (init (lit "data.dat") (Some latin_1)) 2
             (OtherError "UnicodeDecodeError")).
  - reflexivity.
  - right. exists [lit "a" ++ [tab] ++ lit "b" ++ [newline];
                   lit "1" ++ [tab] ++ lit "2" ++ [newline]], [].
    split; [reflexivity|]. simpl. lia.
Defined.

Lemma diagnose_recommends_utf_8_or_latin_1_witness :
  exists enc more,
    recommendations decode_latin_1_only piped_sample = DiagUseEncoding enc :: more
    /\ (enc = lit "utf-8" \/ enc = lit "latin-1")
    /\ (enc = lit "utf-8"
        <-> exists decoded, decode_latin_1_only (lit "utf-8") piped_sample = Ok decoded)
    /\ ~ In DiagMaybeBinary (report_lines decode_latin_1_only piped_sample)
    /\ (In DiagNullBytes (report_lines decode_latin_1_only piped_sample)
        <-> In x00 piped_sample).
Proof.
  apply (diagnose_recommends_utf_8_or_latin_1 decode_latin_1_only piped_sample).
  eexists. reflexivity.
Defined.

Lemma diagnose_delimiter_advice_witness :
  exists best,
    In (DiagMostLikely best) (delimiter_section decode_latin_1_only piped_sample)
    /\ delim_map_get best = Some (lit "|")
    /\ recommendations decode_latin_1_only piped_sample
       = [DiagUseEncoding (lit "latin-1"); DiagUseDelimiter (lit "|")].
Proof.
  destruct (diagnose_delimiter_advice decode_latin_1_only piped_sample
              (lit "latin-1") (latin_1_decode piped_sample) [] eq_refl)
    as (best & Hin & _ & _ & Hpos & _ & _).
  exists best. split; [exact Hin|].
  assert (Hb : best = "Pipe (|)"%string).
  { vm_compute in Hin. destruct Hin as [Hin|[Hin|[]]]; [discriminate|].
    injection Hin as <-. reflexivity. }
  subst best. split; [reflexivity|].
  apply Hpos. vm_compute. lia.
Defined.

Lemma clean_for_excel_idempotent_witness :
  clean_for_excel (fst (clean_for_excel item_qty)) = clean_for_excel item_qty
  /\ forall col vs,
       In (col, ObjectCol vs) (columns (fst (clean_for_excel item_qty))) ->
       map clean_text vs = vs.
Proof.
  apply (clean_for_excel_idempotent item_qty).
  repeat constructor; simpl; intuition discriminate.
Defined.

Lemma auto_read_raises_only_its_own_error_witness :
  exists e1 e2,
    In (ERROR, LogDelimitedFailed e1)
       (log (snd (auto_read (num := Z) no_file_bytes chardet_on_bom no_file_open
                    csv_missing fwf_raises (init (lit "gone.dat") None))))
    /\ In (ERROR, LogFixedWidthFailed e2)
          (log (snd (auto_read (num := Z) no_file_bytes chardet_on_bom no_file_open
                       csv_missing fwf_raises (init (lit "gone.dat") None)))).
Proof.
  destruct (auto_read_raises_only_its_own_error (num := Z) no_file_bytes chardet_on_bom
              no_file_open csv_missing fwf_raises (init (lit "gone.dat") None)
              (ValueError "Could not read file with any known format") eq_refl)
    as (_ & e1 & e2 & params & ws & enc & _ & _ & H1 & H3 & _).
  exists e1, e2. split; assumption.
Defined.

Lemma sniffed_widths_are_refused_witness :
  exists e,
    fwf_adding (lit "stock.dat") (Some [Some 2; Some 2; None]) None (Some latin_1)
    = Raise e
    /\ fst (read_fixed_width aa_bb_open fwf_adding None None
              (init (lit "stock.dat") (Some latin_1)))
       = Raise e.
Proof.
  refine (proj2 (sniffed_widths_are_refused (num := Z) aa_bb_open fwf_adding
                   (init (lit "stock.dat") (Some latin_1))
                   [Some 2; Some 2; None] _ eq_refl)).
  intros path ws names enc Hin. unfold fwf_adding.
  assert (H : existsb isna ws = true)
    by (apply existsb_exists; exists None; split; [exact Hin|reflexivity]).
  rewrite H. eexists. reflexivity.
Defined.
